(** * mCSD Update Client: a shallow embedding of the synchronisation engine

    The development follows [component/mcsd/component.go] and
    [component/mcsd/updater.go] of nuts-knooppunt.  Go maps are [gmap]s, Go
    slices are lists, errors are messages of type [string], and the mutable
    [Component] is threaded explicitly together with the state of the remote
    FHIR servers.  Functions that live outside the two files (the FHIR model
    and client libraries, [lib/fhirutil], [lib/coding], the validator, and the
    Go standard packages [net/url], [time] and [encoding/json]) are collected
    in two interfaces, [Externals] and [Remote]; every general result
    quantifies over them. *)

From Stdlib Require Import ZArith Ascii String.
From stdpp Require Import gmap strings list fin_maps pretty.

(** ** Go's [strings] package, on byte strings *)

Module strings.

(** [strings.Split(s, sep)] for a one-byte separator: always at least one
    part, and one more part than there are separators. *)
Fixpoint Split (s : string) (sep : ascii) : list string :=
  match s with
  | EmptyString => [EmptyString]
  | String a rest =>
      if Ascii.eqb a sep then EmptyString :: Split rest sep
      else match Split rest sep with
           | h :: t => String a h :: t
           | [] => [String a EmptyString]
           end
  end.

(** [strings.TrimRight(s, cutset)] for a one-byte cutset: every trailing
    occurrence of the byte is removed. *)
Fixpoint TrimRight (s : string) (cut : ascii) : string :=
  match s with
  | EmptyString => EmptyString
  | String a rest =>
      match TrimRight rest cut with
      | EmptyString => if Ascii.eqb a cut then EmptyString else String a EmptyString
      | r => String a r
      end
  end.

Definition HasPrefix (s pre : string) : bool := String.prefix pre s.

Fixpoint Contains (s sub : string) : bool :=
  String.prefix sub s ||
  match s with
  | EmptyString => false
  | String _ rest => Contains rest sub
  end.

(** [strings.ToLower] on the ASCII letters.  Go also lowers non-ASCII
    letters; none of them lowers to a letter of the words this program
    compares with (http, https, gone). *)
Definition lowerByte (a : ascii) : ascii :=
  let n := nat_of_ascii a in
  if (65 <=? n)%nat && (n <=? 90)%nat then ascii_of_nat (n + 32) else a.

Fixpoint ToLower (s : string) : string :=
  match s with
  | EmptyString => EmptyString
  | String a rest => String (lowerByte a) (ToLower rest)
  end.

End strings.

(** ** The FHIR data model (golang-fhir-models), as far as the engine reads it *)

(** A JSON document.  [json.RawMessage] fields of a decoded bundle always hold
    a syntactically valid document, so a raw message is its tree; objects are
    association lists read through [obj_get], which gives the first binding of
    a key.  Number literals are kept as text. *)
#[warnings="-register-all"]
Inductive JSON : Type :=
| JNull
| JBool (b : bool)
| JNumber (lit : string)
| JString (s : string)
| JArray (items : list JSON)
| JObject (fields : list (string * JSON)).

Definition JMap := list (string * JSON).

Fixpoint obj_get (k : string) (m : JMap) : option JSON :=
  match m with
  | [] => None
  | (k', v) :: rest => if String.eqb k k' then Some v else obj_get k rest
  end.

(** [delete(m, k)] *)
Fixpoint obj_delete (k : string) (m : JMap) : JMap :=
  match m with
  | [] => []
  | (k', v) :: rest =>
      if String.eqb k k' then obj_delete k rest else (k', v) :: obj_delete k rest
  end.

(** [m[k] = v] *)
Definition obj_set (k : string) (v : JSON) (m : JMap) : JMap :=
  (k, v) :: obj_delete k m.

(** The type assertion [m[k].(string)]. *)
Definition obj_get_string (k : string) (m : JMap) : option string :=
  match obj_get k m with
  | Some (JString s) => Some s
  | _ => None
  end.

(** The type assertion [m[k].(map[string]any)]. *)
Definition obj_get_map (k : string) (m : JMap) : option JMap :=
  match obj_get k m with
  | Some (JObject o) => Some o
  | _ => None
  end.

(** [time.Time] as an instant: nanoseconds counted from Go's zero time. *)
Definition Time := Z.
Definition IsZero (t : Time) : bool := (t =? 0)%Z.
Definition After (t u : Time) : bool := (u <? t)%Z.

Inductive HTTPVerb := HTTPVerbGET | HTTPVerbHEAD | HTTPVerbPOST | HTTPVerbPUT
                    | HTTPVerbDELETE | HTTPVerbPATCH.

Definition isDELETE (m : HTTPVerb) : bool :=
  match m with HTTPVerbDELETE => true | _ => false end.

Record BundleEntryRequest := {
  Method : HTTPVerb;
  Url : string;
}.

Record BundleEntryResponse := {
  Status : string;
}.

Record BundleEntry := {
  FullUrl : option string;
  Resource : option JSON;
  Request : option BundleEntryRequest;
  Response : option BundleEntryResponse;
}.

Record Meta := {
  LastUpdated : option string;
}.

Inductive BundleType := BundleTypeTransaction | BundleTypeHistory | BundleTypeSearchset.

Record Bundle := {
  Type_ : option BundleType;
  BundleMeta : option Meta;
  Entry : list BundleEntry;
}.

Definition emptyBundle : Bundle :=
  {| Type_ := None; BundleMeta := None; Entry := [] |}.

Record Identifier := {
  System : option string;
  Value : option string;
}.

Record Reference := {
  ReferenceRef : option string;
}.

Record Coding := {
  CodingSystem : option string;
  Code : option string;
}.

Record CodeableConcept := {
  CodingList : list Coding;
}.

Record Organization := {
  OrgId : option string;
  OrgIdentifier : list Identifier;
  PartOf : option Reference;
  OrgEndpoint : list Reference;
}.

Record Endpoint := {
  EndpointId : option string;
  Address : string;
  PayloadType : list CodeableConcept;
}.

Record URL := {
  Scheme : string;
  Host : string;
}.

(** [libfhir.ResourceInfo] *)
Record ResourceInfo := {
  ID : string;
  ResourceType : string;
  InfoLastUpdated : option Time;
}.

(** [parentOrganizationMap]: Go keys the map by [*fhir.Organization].  Every
    such pointer is an entry of the [orgMap] built in [createOrganizationTree],
    so the pointer is represented by its key in [orgMap] and the pointed
    organisation is stored next to the linked ones. *)
Abbreviation parentOrganizationMap := (gmap string (Organization * list Organization)).

Record ValidationRules := {
  AllowedResourceTypes : list string;
}.

(** ** What the two files import *)

Class Externals := {
  (** [libfhir.ExtractResourceInfo]; [None] is the error result. *)
  ExtractResourceInfo : JSON → option ResourceInfo;
  (** [libfhir.BuildSourceURL(base, parts...)]; [None] is the error result. *)
  BuildSourceURL : string → list string → option string;
  (** [libfhir.FilterIdentifiersBySystem] *)
  FilterIdentifiersBySystem : list Identifier → string → list Identifier;
  (** [coding.URANamingSystem], [coding.MCSDPayloadTypeSystem],
      [coding.MCSDPayloadTypeDirectoryCode], [coding.PayloadCoding] *)
  URANamingSystem : string;
  MCSDPayloadTypeSystem : string;
  MCSDPayloadTypeDirectoryCode : string;
  PayloadCoding : Coding;
  (** [coding.CodablesIncludesCode] *)
  CodablesIncludesCode : list CodeableConcept → Coding → bool;
  (** [ValidateUpdate] and [ValidateParentOrganizations] of the validator;
      [None] is the nil error. *)
  ValidateUpdate : ValidationRules → JSON → parentOrganizationMap →
                   list BundleEntry → option string;
  ValidateParentOrganizations : parentOrganizationMap → option string;
  (** [extractReferenceID], applied to a [*string] *)
  extractReferenceID : option string → string;
  (** [json.Unmarshal] into the FHIR structs; [None] is the error result. *)
  Unmarshal_Organization : JSON → option Organization;
  Unmarshal_Endpoint : JSON → option Endpoint;
  Unmarshal_HealthcareService : JSON → bool;
  (** [url.Parse], [url.QueryEscape] *)
  url_Parse : string → option URL;
  QueryEscape : string → string;
  (** [t.Format(time.RFC3339Nano)] *)
  Format_RFC3339Nano : Time → string;
}.

(** ** History deduplication (component.go) *)

Section Dedup.
Context {ext : Externals}.

(** getLastUpdated extracts lastUpdated timestamp from an entry *)
Definition getLastUpdated (entry : BundleEntry) : Time :=
  match Resource entry with
  | None => 0%Z
  | Some r =>
      match ExtractResourceInfo r with
      | Some info =>
          match InfoLastUpdated info with
          | Some t => t
          | None => 0%Z
          end
      | None => 0%Z
      end
  end.

(** isMoreRecent compares two entries, returns true if first is more recent *)
Definition isMoreRecent (entry1 entry2 : BundleEntry) : bool :=
  let time1 := getLastUpdated entry1 in
  let time2 := getLastUpdated entry2 in
  if negb (IsZero time1) && negb (IsZero time2) then After time1 time2
  else false.

(** The fallback of [extractResourceIDFromURL]: the last part of fullUrl. *)
Definition idFromFullUrl (entry : BundleEntry) : string :=
  match FullUrl entry with
  | Some fullUrl => List.last (strings.Split fullUrl "/") ""
  | None => ""
  end.

(** extractResourceIDFromURL extracts the resource ID from a DELETE
    operation's URL *)
Definition extractResourceIDFromURL (entry : BundleEntry) : string :=
  match Request entry with
  | Some rq =>
      if negb (String.eqb (Url rq) "") then
        match strings.Split (Url rq) "/" with
        | _ :: id :: _ => id
        | _ => idFromFullUrl entry
        end
      else idFromFullUrl entry
  | None => idFromFullUrl entry
  end.

(** The first block of the loop body of [deduplicateHistoryEntries]: the
    resource ID of an entry, [""] when there is none. *)
Definition entryResourceID (entry : BundleEntry) : string :=
  match Resource entry with
  | None =>
      match Request entry with
      | Some rq => if isDELETE (Method rq) then extractResourceIDFromURL entry else ""
      | None => ""
      end
  | Some r =>
      match ExtractResourceInfo r with
      | Some info => ID info
      | None => ""
      end
  end.

(** One iteration of the loop, on the pair (resourceMap, entriesWithoutID). *)
Definition dedupStep (st : gmap string BundleEntry * list BundleEntry)
    (entry : BundleEntry) : gmap string BundleEntry * list BundleEntry :=
  let '(resourceMap, entriesWithoutID) := st in
  let resourceID := entryResourceID entry in
  if negb (String.eqb resourceID "") then
    match resourceMap !! resourceID with
    | Some existing =>
        if isMoreRecent entry existing
        then (<[resourceID := entry]> resourceMap, entriesWithoutID)
        else st
    | None => (<[resourceID := entry]> resourceMap, entriesWithoutID)
    end
  else (resourceMap, entriesWithoutID ++ [entry]).

Definition dedupLoop (entries : list BundleEntry)
    : gmap string BundleEntry * list BundleEntry :=
  fold_left dedupStep entries (∅, []).

(** deduplicateHistoryEntries keeps only the most recent version of each
    resource.  Go ranges over [resourceMap] in an unspecified order; the
    embedding lists the map by key. *)
Definition deduplicateHistoryEntries (entries : list BundleEntry) : list BundleEntry :=
  let '(resourceMap, entriesWithoutID) := dedupLoop entries in
  (map_to_list resourceMap).*2 ++ entriesWithoutID.

End Dedup.

(** ** Organization tree (component.go) *)

Section OrgTree.
Context {ext : Externals}.

(** The reference ID of a [partOf] reference: the part after the last slash,
    or the whole reference when it has none. *)
Definition partOfParentID (ref : string) : string :=
  if strings.Contains ref "/" then List.last (strings.Split ref "/") ""
  else ref.

(** organizationLinksToParentRecursive is the recursive helper for
    organizationLinksToParent.  Go counts [depth] up and stops when
    [depth > maxDepth]; the recursion here is on [budget], the number of
    levels still allowed: [budget = maxDepth + 1 - depth].  The [visited] map
    is handed down the single recursive call. *)
Fixpoint organizationLinksToParentRecursive (orgMap : gmap string Organization)
    (org parentOrg : Organization) (visited : gset string) (budget : nat) : bool :=
  match budget with
  | O => false
  | S budget' =>
      let continue (visited : gset string) :=
        match PartOf org with
        | Some {| ReferenceRef := Some ref |} =>
            match orgMap !! partOfParentID ref with
            | Some nextOrg =>
                organizationLinksToParentRecursive orgMap nextOrg parentOrg visited budget'
            | None => false
            end
        | _ => false
        end in
      match OrgId org with
      | Some id =>
          if bool_decide (id ∈ visited) then false
          else if bool_decide (OrgId parentOrg = Some id) then true
          else continue ({[id]} ∪ visited)
      | None => continue visited
      end
  end.

Definition maxDepth : nat := 10.

(** organizationLinksToParent checks if an organization's partOf chain
    eventually leads to the parent organization. *)
Definition organizationLinksToParent (orgMap : gmap string Organization)
    (org parentOrg : Organization) : bool :=
  organizationLinksToParentRecursive orgMap org parentOrg ∅ (S maxDepth).

(** [org.Id != nil && parentOrg.Id != nil && *org.Id == *parentOrg.Id] *)
Definition sameOrgId (org parentOrg : Organization) : bool :=
  match OrgId org, OrgId parentOrg with
  | Some a, Some b => String.eqb a b
  | _, _ => false
  end.

(** findOrganizationsLinkedToParent returns all organizations whose partOf
    chain leads to the parent organization, the parent itself excluded. *)
Definition findOrganizationsLinkedToParent (orgMap : gmap string Organization)
    (parentOrg : Organization) : list Organization :=
  filter (λ org, negb (sameOrgId org parentOrg)
                 && organizationLinksToParent orgMap org parentOrg = true)
         (map_to_list orgMap).*2.

(** The first loop of [createOrganizationTree]: all organizations by ID, a
    later entry replacing an earlier one with the same ID. *)
Definition buildOrgMap (entries : list BundleEntry) : gmap string Organization :=
  fold_left (λ orgMap entry,
    match Resource entry with
    | None => orgMap
    | Some r =>
        match Unmarshal_Organization r with
        | None => orgMap
        | Some org =>
            match OrgId org with
            | Some id => <[id := org]> orgMap
            | None => orgMap
            end
        end
    end) entries ∅.

Definition hasURA (org : Organization) : bool :=
  bool_decide (0 < length (FilterIdentifiersBySystem (OrgIdentifier org) URANamingSystem)).

(** createOrganizationTree: every organization of [orgMap] with a URA
    identifier, with the organizations linked to it. *)
Definition createOrganizationTree (entries : list BundleEntry) : parentOrganizationMap :=
  let orgMap := buildOrgMap entries in
  omap (λ org, if hasURA org
               then Some (org, findOrganizationsLinkedToParent orgMap org)
               else None) orgMap.

(** The filter of [ensureParentOrganizationsMap] on the authoritative URA. *)
Definition hasUraValue (org : Organization) (authoritativeUra : string) : bool :=
  existsb (λ ura, match Value ura with
                  | Some v => String.eqb v authoritativeUra
                  | None => false
                  end)
          (FilterIdentifiersBySystem (OrgIdentifier org) URANamingSystem).

Definition filterByAuthoritativeUra (authoritativeUra : string)
    (tree : parentOrganizationMap) : parentOrganizationMap :=
  if String.eqb authoritativeUra "" then tree
  else filter (λ kv, hasUraValue (kv.2.1) authoritativeUra = true) tree.

End OrgTree.

(** ** Transaction builder (updater.go) *)

(** A Go result [(T, error)]. *)
Inductive Result (A : Type) : Type :=
| Ok (a : A)
| Err (msg : string).
Arguments Ok {A} a.
Arguments Err {A} msg.

Definition isOk {A} (r : Result A) : bool :=
  match r with Ok _ => true | Err _ => false end.

(** A loop over a slice or a map that returns at the first error. *)
Fixpoint traverse {A B : Type} (f : A → Result B) (l : list A) : Result (list B) :=
  match l with
  | [] => Ok []
  | x :: rest =>
      match f x with
      | Err e => Err e
      | Ok y =>
          match traverse f rest with
          | Err e => Err e
          | Ok ys => Ok (y :: ys)
          end
      end
  end.

(** [to.EmptyString] *)
Definition EmptyString_of (s : option string) : string := default "" s.

Section Updater.
Context {ext : Externals}.

(** hasURAIdentifier checks if a resource (as map) has a URA identifier. *)
Definition hasURAIdentifier (resource : JMap) : bool :=
  match obj_get "identifier" resource with
  | Some (JArray identifiers) =>
      existsb (λ id, match id with
                     | JObject idMap =>
                         match obj_get_string "system" idMap with
                         | Some system => String.eqb system URANamingSystem
                         | None => false
                         end
                     | _ => false
                     end) identifiers
  | _ => false
  end.

(** [json.Unmarshal(raw, &resource)] for [resource : map[string]any]: an
    object gives its map, [null] leaves a nil map, anything else fails. *)
Definition Unmarshal_map (raw : JSON) : Result JMap :=
  match raw with
  | JObject m => Ok m
  | JNull => Ok []
  | _ => Err "json: cannot unmarshal into Go value of type map[string]interface {}"
  end.

(** The first step of the map case of [convertReferencesRecursive]: the new
    value of the [reference] field, when it is rewritten. *)
Definition rewriteReference (v : JMap) (sourceBaseURL : string) : Result (option JSON) :=
  match obj_get_string "reference" v with
  | Some ref =>
      match strings.Split ref "/" with
      | [resourceType; _] =>
          match BuildSourceURL sourceBaseURL [ref] with
          | Some sourceURL =>
              Ok (Some (JString (resourceType +:+ "?_source=" +:+ QueryEscape sourceURL)))
          | None => Err "failed to build source URL for reference"
          end
      | _ => Ok None
      end
  | None => Ok None
  end.

(** convertReferencesRecursive.  Go mutates the maps in place: it first
    assigns [v["reference"]], then ranges over the values.  The assigned value
    is a string, which the traversal returns unchanged, so the traversal runs
    on the original bindings and the assignment is applied to its result. *)
Fixpoint convertReferencesRecursive (obj : JSON) (sourceBaseURL : string) : Result JSON :=
  match obj with
  | JObject v =>
      match rewriteReference v sourceBaseURL with
      | Err e => Err e
      | Ok newRef =>
          match traverse (λ kv, match convertReferencesRecursive kv.2 sourceBaseURL with
                                | Ok value => Ok (kv.1, value)
                                | Err e => Err e
                                end) v with
          | Err e => Err e
          | Ok v' =>
              Ok (JObject match newRef with
                          | Some r => obj_set "reference" r v'
                          | None => v'
                          end)
          end
      end
  | JArray items =>
      match traverse (λ item, convertReferencesRecursive item sourceBaseURL) items with
      | Err e => Err e
      | Ok items' => Ok (JArray items')
      end
  | other => Ok other
  end.

(** updateResourceMeta *)
Definition updateResourceMeta (resource : JMap) (source : string) : JMap :=
  let meta := default [] (obj_get_map "meta" resource) in
  let meta := obj_set "source" (JString source) meta in
  let meta := obj_delete "versionId" meta in
  let meta := obj_delete "lastUpdated" meta in
  obj_set "meta" (JObject meta) resource.

(** [url.Values{"_source": []string{sourceURL}}.Encode()] *)
Definition encodeSource (sourceURL : string) : string :=
  "_source=" +:+ QueryEscape sourceURL.

Definition appendEntry (tx : Bundle) (e : BundleEntry) : Bundle :=
  {| Type_ := Type_ tx; BundleMeta := BundleMeta tx; Entry := Entry tx ++ [e] |}.

(** The mCSD-directory test of the discoverability filter; [None] when the
    resource does not decode as an Endpoint. *)
Definition isDirectoryEndpoint (raw : JSON) : option bool :=
  match Unmarshal_Endpoint raw with
  | Some endpoint => Some (CodablesIncludesCode (PayloadType endpoint) PayloadCoding)
  | None => None
  end.

(** buildUpdateTransaction constructs a FHIR Bundle transaction for updating
    resources.  The transaction [tx] is returned with the result. *)
Definition buildUpdateTransaction (tx : Bundle) (entry : BundleEntry)
    (validationRules : ValidationRules) (parentOrganizationMap : parentOrganizationMap)
    (allHealthcareServices : list BundleEntry) (isDiscoverableDirectory : bool)
    (sourceBaseURL : string) : Bundle * Result string :=
  match FullUrl entry with
  | None => (tx, Err "missing 'fullUrl' field")
  | Some fullUrl =>
  match Request entry with
  | None => (tx, Err "missing 'request' field")
  | Some request =>
  if isDELETE (Method request) then
    match strings.Split (Url request) "/" with
    | resourceType :: resourceID :: _ =>
        if negb (bool_decide (resourceType ∈ AllowedResourceTypes validationRules)) then
          (tx, Err ("resource type " +:+ resourceType +:+ " not allowed"))
        else
          match BuildSourceURL sourceBaseURL [resourceType; resourceID] with
          | None => (tx, Err "failed to build source URL for DELETE")
          | Some sourceURL =>
              (appendEntry tx
                 {| FullUrl := None; Resource := None;
                    Request := Some {| Method := HTTPVerbDELETE;
                                       Url := resourceType +:+ "?" +:+ encodeSource sourceURL |};
                    Response := None |},
               Ok resourceType)
          end
    | _ => (tx, Err ("invalid DELETE URL format: " +:+ Url request))
    end
  else
  match Resource entry with
  | None => (tx, Err "missing 'resource' field for non-DELETE operation")
  | Some raw =>
  match Unmarshal_map raw with
  | Err e => (tx, Err ("failed to unmarshal resource (fullUrl=" +:+ fullUrl +:+ "): " +:+ e))
  | Ok resource =>
  match obj_get_string "resourceType" resource with
  | None => (tx, Err ("not a valid resourceType (fullUrl=" +:+ fullUrl +:+ ")"))
  | Some resourceType =>
  match ValidateUpdate validationRules raw parentOrganizationMap allHealthcareServices with
  | Some e => (tx, Err e)
  | None =>
  let resource :=
    if String.eqb resourceType "Organization" && negb isDiscoverableDirectory
       && hasURAIdentifier resource
    then obj_delete "name" resource else resource in
  let doSync : Result bool :=
    if isDiscoverableDirectory then
      if String.eqb resourceType "Endpoint" then
        match isDirectoryEndpoint raw with
        | None => Err "failed to unmarshal Endpoint resource"
        | Some b => Ok b
        end
      else Ok false
    else Ok true in
  match doSync with
  | Err e => (tx, Err e)
  | Ok false => (tx, Ok resourceType)
  | Ok true =>
  match obj_get_string "id" resource with
  | None => (tx, Err ("resource missing ID field (fullUrl=" +:+ fullUrl +:+ ")"))
  | Some resourceID =>
  match BuildSourceURL sourceBaseURL [resourceType; resourceID] with
  | None => (tx, Err "failed to build source URL")
  | Some sourceURL =>
  let resource := updateResourceMeta resource sourceURL in
  let resource := obj_delete "id" resource in
  match convertReferencesRecursive (JObject resource) sourceBaseURL with
  | Err e => (tx, Err ("failed to convert references: " +:+ e))
  | Ok resourceJSON =>
      (appendEntry tx
         {| FullUrl := None; Resource := Some resourceJSON;
            Request := Some {| Method := HTTPVerbPUT;
                               Url := resourceType +:+ "?" +:+ encodeSource sourceURL |};
            Response := None |},
       Ok resourceType)
  end end end end end end end end end end.

End Updater.

(** ** The remote FHIR servers and the state file *)

(** What one search returns: the first page and the pages its [next] links
    lead to; following a link may fail. *)
Inductive Pages : Type :=
| LastPage (searchSet : Bundle)
| NextPage (searchSet : Bundle) (rest : Pages)
| NextPageFails (searchSet : Bundle) (err : string).

Definition firstPage (p : Pages) : Bundle :=
  match p with
  | LastPage b | NextPage b _ | NextPageFails b _ => b
  end.

Class Remote := {
  (** The state of everything outside the process. *)
  World : Type;
  (** [client.SearchWithContext] on the client of a base URL, at a path and
      with search parameters. *)
  SearchWithContext : World → string → string → gmap string string → World * Result Pages;
  (** [client.CreateWithContext(ctx, tx, &txResult, AtPath("/"))] on the
      client of a base URL. *)
  CreateWithContext : World → string → Bundle → World * Result Bundle;
  (** [time.Now()] *)
  time_Now : World → Time;
  (** [os.ReadFile] followed by [json.Unmarshal] of the state file, and
      [os.WriteFile] of the marshalled state (whose failure is only logged). *)
  ReadStateFile : World → string → Result (gmap string string);
  WriteStateFile : World → string → gmap string string → World;
}.

(** Modelled from the spec: [fhirclient.Paginate] belongs to the FHIR client
    library, which is not under src/.  It hands every page to the consumer,
    stops on the consumer's error or when it declines to continue, and
    otherwise follows the [next] link of the page until there is none. *)
Fixpoint Paginate {S : Type} (pages : Pages)
    (consumeFunc : S → Bundle → S * Result bool) (s : S) : S * option string :=
  match pages with
  | LastPage searchSet =>
      match consumeFunc s searchSet with
      | (s', Err e) => (s', Some e)
      | (s', Ok _) => (s', None)
      end
  | NextPage searchSet rest =>
      match consumeFunc s searchSet with
      | (s', Err e) => (s', Some e)
      | (s', Ok false) => (s', None)
      | (s', Ok true) => Paginate rest consumeFunc s'
      end
  | NextPageFails searchSet err =>
      match consumeFunc s searchSet with
      | (s', Err e) => (s', Some e)
      | (s', Ok false) => (s', None)
      | (s', Ok true) => (s', Some err)
      end
  end.

(** ** Configuration, registry and cursor (component.go) *)

Definition rootDirectoryResourceTypes : list string := ["Organization"; "Endpoint"].
Definition defaultDirectoryResourceTypes : list string :=
  ["Organization"; "Endpoint"; "Location"; "HealthcareService"; "PractitionerRole";
   "Practitioner"].

(** clockSkewBuffer, in nanoseconds *)
Definition clockSkewBuffer : Z := 2 * 1000000000.

(** maxUpdateEntries limits the number of entries processed in a single FHIR
    transaction to prevent excessive load on the FHIR server *)
Definition maxUpdateEntries : nat := 1000.

Definition searchPageSize : nat := 100.

Record DirectoryConfig := {
  FHIRBaseURL : string;
}.

Record Config := {
  AdministrationDirectories : gmap string DirectoryConfig;
  QueryDirectory : DirectoryConfig;
  ExcludeAdminDirectories : list string;
  DirectoryResourceTypes : list string;
  StateFile : string;
  SnapshotModeSupport : bool;
}.

(** The fields of [administrationDirectory] are read as [Dir.fhirBaseURL d],
    so that the functions below keep the parameter names of the source. *)
Module Dir.
Record administrationDirectory := {
  fhirBaseURL : string;
  resourceTypes : list string;
  discover : bool;
  sourceURL : string; (* The fullUrl from the Bundle entry that created this Endpoint *)
  authoritativeUra : string; (* URA of the organization that is authoritative for this directory *)
}.
End Dir.
Abbreviation administrationDirectory := Dir.administrationDirectory.

Record DirectoryUpdateReport := {
  CountCreated : nat;
  CountUpdated : nat;
  CountDeleted : nat;
  Warnings : list string;
  Errors : list string;
}.

Definition emptyReport : DirectoryUpdateReport :=
  {| CountCreated := 0; CountUpdated := 0; CountDeleted := 0; Warnings := []; Errors := [] |}.

Abbreviation UpdateReport := (gmap string DirectoryUpdateReport).

Record Component := {
  config : Config;
  administrationDirectories : list administrationDirectory;
  directoryResourceTypes : list string;
  lastUpdateTimes : gmap string string;
}.

Definition setDirectories (c : Component) (dirs : list administrationDirectory) : Component :=
  {| config := config c; administrationDirectories := dirs;
     directoryResourceTypes := directoryResourceTypes c;
     lastUpdateTimes := lastUpdateTimes c |}.

Definition setLastUpdateTimes (c : Component) (m : gmap string string) : Component :=
  {| config := config c; administrationDirectories := administrationDirectories c;
     directoryResourceTypes := directoryResourceTypes c;
     lastUpdateTimes := m |}.

(** is410GoneError checks if an error indicates a 410 Gone response *)
Definition is410GoneError (err : string) : bool :=
  strings.Contains err "410" || strings.Contains (strings.ToLower err) "gone".

(** makeDirectoryKey creates a composite key from fhirBaseURL and
    authoritativeUra *)
Definition makeDirectoryKey (fhirBaseURL authoritativeUra : string) : string :=
  if String.eqb authoritativeUra "" then fhirBaseURL
  else fhirBaseURL +:+ "|" +:+ authoritativeUra.

Section Registry.
Context {ext : Externals}.

(** The URL check of [registerAdministrationDirectory]. *)
Definition validFHIRBaseURL (fhirBaseURL : string) : Result unit :=
  match url_Parse fhirBaseURL with
  | None => Err ("invalid FHIR base URL (url=" +:+ fhirBaseURL +:+ "): parse error")
  | Some parsed =>
      let scheme := strings.ToLower (Scheme parsed) in
      if (negb (String.eqb scheme "https") && negb (String.eqb scheme "http"))
         || String.eqb (Host parsed) ""
      then Err ("invalid FHIR base URL (url=" +:+ fhirBaseURL +:+ ")")
      else Ok tt
  end.

(** The exclusion check of [registerAdministrationDirectory]. *)
Definition isExcluded (c : Component) (fhirBaseURL : string) : bool :=
  let trimmedFHIRBaseURL := strings.TrimRight fhirBaseURL "/" in
  existsb (λ excludedURL, String.eqb (strings.TrimRight excludedURL "/") trimmedFHIRBaseURL)
          (ExcludeAdminDirectories (config c)).

(** registerAdministrationDirectory; the second component is the error. *)
Definition registerAdministrationDirectory (c : Component) (fhirBaseURL : string)
    (resourceTypes : list string) (discover : bool) (sourceURL authoritativeUra : string)
    : Component * option string :=
  match validFHIRBaseURL fhirBaseURL with
  | Err e => (c, Some e)
  | Ok _ =>
      if isExcluded c fhirBaseURL then (c, None)
      else
        let exists_ :=
          existsb (λ directory,
                     String.eqb (Dir.fhirBaseURL directory) fhirBaseURL
                     && String.eqb (Dir.authoritativeUra directory) authoritativeUra)
                  (administrationDirectories c) in
        if exists_ then (c, None)
        else
          (setDirectories c
             (administrationDirectories c ++
                [{| Dir.resourceTypes := resourceTypes; Dir.fhirBaseURL := fhirBaseURL;
                    Dir.discover := discover; Dir.sourceURL := sourceURL;
                    Dir.authoritativeUra := authoritativeUra |}]),
           None)
  end.

(** unregisterAdministrationDirectory removes an administration directory
    from the list by its fullUrl. *)
Definition unregisterAdministrationDirectory (c : Component) (fullUrl : string) : Component :=
  setDirectories c
    (filter (λ dir, String.eqb (Dir.sourceURL dir) fullUrl = false)
            (administrationDirectories c)).

(** The test of [processEndpointDeletes] on one entry: the fullUrl to
    unregister, if the entry is the DELETE of an Endpoint. *)
Definition endpointDeleteFullUrl (entry : BundleEntry) : option string :=
  match Request entry, FullUrl entry with
  | Some rq, Some fullUrl =>
      if isDELETE (Method rq) then
        match strings.Split (Url rq) "/" with
        | first :: _ :: _ => if String.eqb first "Endpoint" then Some fullUrl else None
        | _ => None
        end
      else None
  | _, _ => None
  end.

(** processEndpointDeletes processes DELETE operations for Endpoints and
    unregisters them from administrationDirectories. *)
Definition processEndpointDeletes (c : Component) (entries : list BundleEntry) : Component :=
  fold_left (λ c entry,
    match endpointDeleteFullUrl entry with
    | Some fullUrl => unregisterAdministrationDirectory c fullUrl
    | None => c
    end) entries c.

End Registry.

(** ** Queries and the sync orchestrator (component.go) *)

Section Orchestrator.
Context {ext : Externals} {rem : Remote}.

(** The consumer that [queryFHIR] hands to [Paginate]; its state is the
    captured slice [entries]. *)
Definition collectPage (entries : list BundleEntry) (searchSet : Bundle)
    : list BundleEntry * Result bool :=
  let entries := entries ++ Entry searchSet in
  if bool_decide (maxUpdateEntries ≤ length entries) then
    (entries,
     Err ("too many entries (" +:+ pretty (length entries)
          +:+ "), aborting update to prevent excessive memory usage"))
  else (entries, Ok true).

(** queryFHIR performs a FHIR search query with pagination and returns all
    matching entries, with the first page of the search. *)
Definition queryFHIR (w : World) (client : string) (resourceType : string)
    (searchParams : gmap string string) (includeHistory : bool)
    : World * Result (list BundleEntry * Bundle) :=
  let '(path, searchErrMsg, paginationErrMsg) :=
    if includeHistory
    then (resourceType +:+ "/_history", "_history search failed",
          "pagination of _history search failed")
    else (resourceType, "query failed", "pagination of search failed") in
  match SearchWithContext w client path searchParams with
  | (w', Err err) => (w', Err (searchErrMsg +:+ ": " +:+ err))
  | (w', Ok pages) =>
      match Paginate pages collectPage [] with
      | (_, Some err) => (w', Err (paginationErrMsg +:+ ": " +:+ err))
      | (entries, None) => (w', Ok (entries, firstPage pages))
      end
  end.

Definition queryHistory (w : World) (client resourceType : string)
    (searchParams : gmap string string) :=
  queryFHIR w client resourceType searchParams true.

Definition query (w : World) (client resourceType : string)
    (searchParams : gmap string string) :=
  queryFHIR w client resourceType searchParams false.

Definition countParams : gmap string string := {[ "_count" := pretty searchPageSize ]}.

(** ensureParentOrganizationsMap *)
Definition ensureParentOrganizationsMap (w : World) (client : string)
    (authoritativeUra : string) : World * Result parentOrganizationMap :=
  match query w client "Organization" countParams with
  | (w', Err err) => (w', Err err)
  | (w', Ok (orgEntries, _)) =>
      (w', Ok (filterByAuthoritativeUra authoritativeUra (createOrganizationTree orgEntries)))
  end.

Definition addWarning (report : DirectoryUpdateReport) (msg : string) : DirectoryUpdateReport :=
  {| CountCreated := CountCreated report; CountUpdated := CountUpdated report;
     CountDeleted := CountDeleted report; Warnings := Warnings report ++ [msg];
     Errors := Errors report |}.

Definition addError (report : DirectoryUpdateReport) (msg : string) : DirectoryUpdateReport :=
  {| CountCreated := CountCreated report; CountUpdated := CountUpdated report;
     CountDeleted := CountDeleted report; Warnings := Warnings report;
     Errors := Errors report ++ [msg] |}.

(** The inner loops of [discoverAndRegisterEndpoints] that fill [endpoints]:
    the entries that decode as an Endpoint whose ID one of the parent's
    endpoint references names, keyed by fullUrl. *)
Definition referencedEndpoints (entries : list BundleEntry) (parentOrg : Organization)
    : gmap string Endpoint :=
  fold_left (λ endpoints entry,
    match Resource entry with
    | None => endpoints
    | Some r =>
        match Unmarshal_Endpoint r with
        | None => endpoints
        | Some endpoint =>
            match EndpointId endpoint with
            | Some endpointID =>
                if existsb (λ parentEndpoint,
                              match ReferenceRef parentEndpoint with
                              | Some ref => String.eqb endpointID (extractReferenceID (Some ref))
                              | None => false
                              end) (OrgEndpoint parentOrg)
                then match FullUrl entry with
                     | Some fullUrl => <[fullUrl := endpoint]> endpoints
                     | None => endpoints
                     end
                else endpoints
            | None => endpoints
            end
        end
    end) entries ∅.

(** The last loop of [discoverAndRegisterEndpoints], for one parent. *)
Definition registerDiscovered (authoritativeUra : string)
    (st : Component * DirectoryUpdateReport) (kv : string * Endpoint)
    : Component * DirectoryUpdateReport :=
  let '(c, report) := st in
  let '(fullUrl, endpoint) := kv in
  if CodablesIncludesCode (PayloadType endpoint)
       {| CodingSystem := Some MCSDPayloadTypeSystem;
          Code := Some MCSDPayloadTypeDirectoryCode |}
  then
    match registerAdministrationDirectory c (Address endpoint) (directoryResourceTypes c)
            false fullUrl authoritativeUra with
    | (c', Some err) =>
        (c', addWarning report ("failed to register discovered mCSD Directory at "
                                +:+ Address endpoint +:+ ": " +:+ err))
    | (c', None) => (c', report)
    end
  else st.

(** discoverAndRegisterEndpoints processes endpoint discovery and registration
    for the given parent organizations. *)
Definition discoverAndRegisterEndpoints (c : Component) (entries : list BundleEntry)
    (parentOrganizationsMap : parentOrganizationMap) (report : DirectoryUpdateReport)
    : Component * DirectoryUpdateReport :=
  fold_left (λ st kv,
    let parentOrg := kv.2.1 in
    match FilterIdentifiersBySystem (OrgIdentifier parentOrg) URANamingSystem with
    | {| Value := Some authoritativeUra |} :: _ =>
        match OrgEndpoint parentOrg with
        | [] => st
        | _ =>
            fold_left (registerDiscovered authoritativeUra)
                      (map_to_list (referencedEndpoints entries parentOrg)) st
        end
    | _ => st
    end) (map_to_list parentOrganizationsMap) (c, report).

(** saveSyncState persists the sync state to the configured state file. *)
Definition saveSyncState (c : Component) (w : World) : World :=
  if String.eqb (StateFile (config c)) "" then w
  else WriteStateFile w (StateFile (config c)) (lastUpdateTimes c).

(** How the history loop of [updateFromDirectory] ends: all types queried,
    a 410 Gone answer that switches to Snapshot Mode, or a fatal error. *)
Inductive HistoryOutcome : Type :=
| HistoryDone (entries : list BundleEntry) (firstSearchSet : Bundle)
| HistoryGone (firstSearchSet : Bundle)
| HistoryFailed (err : string).

(** The loop over [allowedResourceTypes] in History Mode; [i] is the loop
    index. *)
Fixpoint historyLoop (c : Component) (w : World) (client : string)
    (types : list string) (searchParams : gmap string string) (i : nat)
    (entries : list BundleEntry) (firstSearchSet : Bundle) : World * HistoryOutcome :=
  match types with
  | [] => (w, HistoryDone entries firstSearchSet)
  | resourceType :: rest =>
      match queryHistory w client resourceType searchParams with
      | (w', Err err) =>
          if is410GoneError err then
            if negb (SnapshotModeSupport (config c)) then
              (w', HistoryFailed ("410 Gone: history too old for " +:+ resourceType
                                   +:+ " and Snapshot Mode is disabled, cannot sync"))
            else (w', HistoryGone firstSearchSet)
          else (w', HistoryFailed ("failed to query " +:+ resourceType +:+ " history: " +:+ err))
      | (w', Ok (currEntries, currSearchSet)) =>
          historyLoop c w' client rest searchParams (S i) (entries ++ currEntries)
                      (if (i =? 0)%nat then currSearchSet else firstSearchSet)
      end
  end.

(** Search results carry no request: one is added for the later steps. *)
Definition addSnapshotRequest (resourceType : string) (entry : BundleEntry) : BundleEntry :=
  match Request entry with
  | Some _ => entry
  | None =>
      let resourceID :=
        match Resource entry with
        | Some r => match ExtractResourceInfo r with
                    | Some info => ID info
                    | None => ""
                    end
        | None => ""
        end in
      {| FullUrl := FullUrl entry; Resource := Resource entry;
         Request := Some {| Method := HTTPVerbPUT; Url := resourceType +:+ "/" +:+ resourceID |};
         Response := Response entry |}
  end.

(** The loop over [allowedResourceTypes] in Snapshot Mode. *)
Fixpoint snapshotLoop (w : World) (client : string) (types : list string)
    (searchParams : gmap string string) (i : nat)
    (entries : list BundleEntry) (firstSearchSet : Bundle)
    : World * Result (list BundleEntry * Bundle) :=
  match types with
  | [] => (w, Ok (entries, firstSearchSet))
  | resourceType :: rest =>
      match query w client resourceType searchParams with
      | (w', Err err) => (w', Err ("failed to query " +:+ resourceType +:+ ": " +:+ err))
      | (w', Ok (currEntries, currSearchSet)) =>
          snapshotLoop w' client rest searchParams (S i)
                       (entries ++ (addSnapshotRequest resourceType <$> currEntries))
                       (if (i =? 0)%nat then currSearchSet else firstSearchSet)
      end
  end.

(** The loop of [updateFromDirectory] that builds the transaction. *)
Definition buildStep (allowedResourceTypes : list string)
    (parentOrganizationsMap : parentOrganizationMap)
    (allHealthcareServices : list BundleEntry) (allowDiscovery : bool)
    (fhirBaseURLRaw : string)
    (st : Bundle * DirectoryUpdateReport * nat) (entry : BundleEntry)
    : Bundle * DirectoryUpdateReport * nat :=
  let '(tx, report, i) := st in
  match Request entry with
  | None => (tx, addWarning report ("Skipping entry with no request: #" +:+ pretty i), S i)
  | Some _ =>
      match buildUpdateTransaction tx entry
              {| AllowedResourceTypes := allowedResourceTypes |}
              parentOrganizationsMap allHealthcareServices allowDiscovery fhirBaseURLRaw with
      | (tx', Err err) =>
          (tx', addWarning report ("entry #" +:+ pretty i +:+ ": " +:+ err), S i)
      | (tx', Ok _) => (tx', report, S i)
      end
  end.

(** The loop of [updateFromDirectory] over the transaction response.  Go
    prints the fullUrl pointer in the last message; the text here shows the
    string it points to. *)
Definition resultStep (st : DirectoryUpdateReport * nat) (entry : BundleEntry)
    : DirectoryUpdateReport * nat :=
  let '(report, i) := st in
  match Response entry with
  | None => (addWarning report ("Skipping entry with no response: #" +:+ pretty i), S i)
  | Some response =>
      let status := Status response in
      if strings.HasPrefix status "201" then
        ({| CountCreated := S (CountCreated report); CountUpdated := CountUpdated report;
            CountDeleted := CountDeleted report; Warnings := Warnings report;
            Errors := Errors report |}, S i)
      else if strings.HasPrefix status "200" then
        ({| CountCreated := CountCreated report; CountUpdated := S (CountUpdated report);
            CountDeleted := CountDeleted report; Warnings := Warnings report;
            Errors := Errors report |}, S i)
      else if strings.HasPrefix status "204" then
        ({| CountCreated := CountCreated report; CountUpdated := CountUpdated report;
            CountDeleted := S (CountDeleted report); Warnings := Warnings report;
            Errors := Errors report |}, S i)
      else
        (addWarning report ("Unknown HTTP response status " +:+ status +:+ " (url="
                            +:+ EmptyString_of (FullUrl entry) +:+ ")"), S i)
  end.

(** The filter of [updateFromDirectory] that collects [allHealthcareServices]. *)
Definition decodesAsHealthcareService (entry : BundleEntry) : bool :=
  match Resource entry with
  | Some r => Unmarshal_HealthcareService r
  | None => false
  end.

(** The steps of [updateFromDirectory] after the entries have been pulled. *)
Definition applyEntries (c : Component) (w : World) (fhirBaseURLRaw : string)
    (allowedResourceTypes : list string) (allowDiscovery : bool)
    (authoritativeUra : string) (directoryKey : string) (queryStartTime : Time)
    (entries : list BundleEntry) (firstSearchSet : Bundle)
    : Component * World * DirectoryUpdateReport * option string :=
  let deduplicatedEntries := deduplicateHistoryEntries entries in
  let allHealthcareServices :=
    filter (λ entry, decodesAsHealthcareService entry = true) entries in
  let c := if allowDiscovery then processEndpointDeletes c deduplicatedEntries else c in
  match ensureParentOrganizationsMap w fhirBaseURLRaw authoritativeUra with
  | (w, Err err) =>
      (c, w, emptyReport, Some ("failed to build parent organization map: " +:+ err))
  | (w, Ok parentOrganizationsMap) =>
  match ValidateParentOrganizations parentOrganizationsMap with
  | Some err =>
      (c, w, emptyReport,
       Some ("parent organization (one that supposedly has ura identifier - and only only) validation failed: "
             +:+ err))
  | None =>
  let tx := {| Type_ := Some BundleTypeTransaction; BundleMeta := None; Entry := [] |} in
  let '(tx, report, _) :=
    fold_left (buildStep allowedResourceTypes parentOrganizationsMap allHealthcareServices
                         allowDiscovery fhirBaseURLRaw)
              deduplicatedEntries (tx, emptyReport, 0) in
  let '(c, report) :=
    if allowDiscovery
    then discoverAndRegisterEndpoints c entries parentOrganizationsMap report
    else (c, report) in
  match Entry tx with
  | [] => (c, w, report, None)
  | _ =>
  match CreateWithContext w (FHIRBaseURL (QueryDirectory (config c))) tx with
  | (w, Err err) =>
      (c, w, emptyReport, Some ("failed to apply mCSD update to query directory: " +:+ err))
  | (w, Ok txResult) =>
  let '(report, _) := fold_left resultStep (Entry txResult) (report, 0) in
  let nextSyncTime :=
    match BundleMeta firstSearchSet with
    | Some {| LastUpdated := Some lastUpdated |} => lastUpdated
    | _ => Format_RFC3339Nano (queryStartTime - clockSkewBuffer)%Z
    end in
  let c := setLastUpdateTimes c (<[directoryKey := nextSyncTime]> (lastUpdateTimes c)) in
  let w := saveSyncState c w in
  (c, w, report, None)
  end end end end.

(** The Snapshot Mode block of [updateFromDirectory], followed by the rest. *)
Definition snapshotAndApply (c : Component) (w : World) (fhirBaseURLRaw : string)
    (allowedResourceTypes : list string) (allowDiscovery : bool)
    (authoritativeUra : string) (directoryKey : string) (queryStartTime : Time)
    (searchParams : gmap string string) (firstSearchSet : Bundle)
    : Component * World * DirectoryUpdateReport * option string :=
  match snapshotLoop w fhirBaseURLRaw allowedResourceTypes searchParams 0 [] firstSearchSet with
  | (w, Err err) => (c, w, emptyReport, Some err)
  | (w, Ok (entries, firstSearchSet)) =>
      let c := setLastUpdateTimes c (delete directoryKey (lastUpdateTimes c)) in
      applyEntries c w fhirBaseURLRaw allowedResourceTypes allowDiscovery authoritativeUra
                   directoryKey queryStartTime entries firstSearchSet
  end.

(** updateFromDirectory; the result is the component and the world after the
    call, the report and the error. *)
Definition updateFromDirectory (c : Component) (w : World) (fhirBaseURLRaw : string)
    (allowedResourceTypes : list string) (allowDiscovery : bool)
    (authoritativeUra : string)
    : Component * World * DirectoryUpdateReport * option string :=
  match url_Parse fhirBaseURLRaw with
  | None => (c, w, emptyReport, Some "parse error")
  | Some _ =>
  match url_Parse (FHIRBaseURL (QueryDirectory (config c))) with
  | None => (c, w, emptyReport, Some "parse error")
  | Some _ =>
  let directoryKey := makeDirectoryKey fhirBaseURLRaw authoritativeUra in
  let queryStartTime := time_Now w in
  let searchParams := countParams in
  let '(useHistoryMode, useSnapshotMode, searchParams) :=
    match lastUpdateTimes c !! directoryKey with
    | Some lastUpdate => (true, false, <["_since" := lastUpdate]> searchParams)
    | None => (negb (SnapshotModeSupport (config c)), SnapshotModeSupport (config c),
               searchParams)
    end in
  let history :=
    if useHistoryMode
    then historyLoop c w fhirBaseURLRaw allowedResourceTypes searchParams 0 [] emptyBundle
    else (w, HistoryDone [] emptyBundle) in
  match history with
  | (w, HistoryFailed err) => (c, w, emptyReport, Some err)
  | (w, HistoryGone firstSearchSet) =>
      snapshotAndApply c w fhirBaseURLRaw allowedResourceTypes allowDiscovery
        authoritativeUra directoryKey queryStartTime (delete "_since" searchParams)
        firstSearchSet
  | (w, HistoryDone entries firstSearchSet) =>
      if useSnapshotMode then
        snapshotAndApply c w fhirBaseURLRaw allowedResourceTypes allowDiscovery
          authoritativeUra directoryKey queryStartTime searchParams firstSearchSet
      else
        applyEntries c w fhirBaseURLRaw allowedResourceTypes allowDiscovery
          authoritativeUra directoryKey queryStartTime entries firstSearchSet
  end end end.

End Orchestrator.

Section Run.
Context {ext : Externals} {rem : Remote}.

(** What one iteration of the loop of [update] stores under the directory
    key: the report with the error, if any, appended. *)
Definition finishReport (report : DirectoryUpdateReport) (err : option string)
    : DirectoryUpdateReport :=
  match err with
  | Some e => addError report e
  | None => report
  end.

(** The loop of [update]:
    [for i := 0; i < len(c.administrationDirectories); i++].  The registry is
    read again at every iteration.  No bound on the number of iterations is
    known beforehand, so the loop takes [fuel] and returns [None] when it runs
    out; [updateLoop_total] shows that enough fuel always exists.  The last
    component of the result is a ghost output: the directories processed, in
    order. *)
Fixpoint updateLoop (fuel : nat) (i : nat) (c : Component) (w : World)
    (result : UpdateReport) (processed : list administrationDirectory)
    : option (Component * World * UpdateReport * list administrationDirectory) :=
  match administrationDirectories c !! i with
  | None => Some (c, w, result, processed)
  | Some adminDirectory =>
      match fuel with
      | O => None
      | S fuel' =>
          let '(c', w', report, err) :=
            updateFromDirectory c w (Dir.fhirBaseURL adminDirectory)
              (Dir.resourceTypes adminDirectory) (Dir.discover adminDirectory)
              (Dir.authoritativeUra adminDirectory) in
          let report := finishReport report err in
          let directoryKey :=
            makeDirectoryKey (Dir.fhirBaseURL adminDirectory)
                             (Dir.authoritativeUra adminDirectory) in
          updateLoop fuel' (S i) c' w' (<[directoryKey := report]> result)
                     (processed ++ [adminDirectory])
      end
  end.

(** update, under the update lock. *)
Definition update (fuel : nat) (c : Component) (w : World) :=
  updateLoop fuel 0 c w ∅ [].

(** loadSyncState, as called from [New] with no state loaded yet. *)
Definition loadSyncState (config : Config) (w : World) : gmap string string :=
  match ReadStateFile w (StateFile config) with
  | Ok m => m
  | Err _ => ∅
  end.

(** The registration loop of [New] over the configured root directories. *)
Fixpoint registerRoots (c : Component) (roots : list (string * DirectoryConfig))
    : Result Component :=
  match roots with
  | [] => Ok c
  | (_, rootDirectory) :: rest =>
      match registerAdministrationDirectory c (FHIRBaseURL rootDirectory)
              rootDirectoryResourceTypes true "" "" with
      | (_, Some err) =>
          Err ("register root administration directory (url="
               +:+ FHIRBaseURL rootDirectory +:+ "): " +:+ err)
      | (c', None) => registerRoots c' rest
      end
  end.

(** The last statement of [New]: an empty [config.DirectoryResourceTypes]
    becomes the default list. *)
Definition withDefaultResourceTypes (c : Component) : Component :=
  if bool_decide (length (DirectoryResourceTypes (config c)) = 0) then
    {| config :=
         {| AdministrationDirectories := AdministrationDirectories (config c);
            QueryDirectory := QueryDirectory (config c);
            ExcludeAdminDirectories := ExcludeAdminDirectories (config c);
            DirectoryResourceTypes := defaultDirectoryResourceTypes;
            StateFile := StateFile (config c);
            SnapshotModeSupport := SnapshotModeSupport (config c) |};
       administrationDirectories := administrationDirectories c;
       directoryResourceTypes := directoryResourceTypes c;
       lastUpdateTimes := lastUpdateTimes c |}
  else c.

(** New, without the construction of the HTTP client. *)
Definition New (config : Config) (w : World) : Result Component :=
  let result :=
    {| config := config;
       administrationDirectories := [];
       directoryResourceTypes := DirectoryResourceTypes config;
       lastUpdateTimes :=
         if negb (String.eqb (StateFile config) "") then loadSyncState config w else ∅ |} in
  match registerRoots result (map_to_list (AdministrationDirectories config)) with
  | Err e => Err e
  | Ok result =>
      Ok (withDefaultResourceTypes result)
  end.

End Run.

(** ** A concrete instance of the imports

    The results below hold for every [Externals] and [Remote].  To evaluate
    the engine on concrete bundles, the imports are instantiated here with
    small decoders that read the JSON fields the engine uses, and with a world
    whose servers answer from fixed tables. *)

Module Example.

Definition digit (a : ascii) : option Z :=
  let n := nat_of_ascii a in
  if (48 <=? n)%nat && (n <=? 57)%nat then Some (Z.of_nat (n - 48)) else None.

Fixpoint number (l : list ascii) (acc : Z) : option Z :=
  match l with
  | [] => Some acc
  | a :: rest =>
      match digit a with
      | Some d => number rest (acc * 10 + d)%Z
      | None => None
      end
  end.

(** Days from 0001-01-01 to the given date of the proleptic Gregorian
    calendar. *)
Definition daysFromCivil (y m d : Z) : Z :=
  let y' := (if m <=? 2 then y - 1 else y)%Z in
  let era := (y' / 400)%Z in
  let yoe := (y' - era * 400)%Z in
  let mp := (if m <=? 2 then m + 9 else m - 3)%Z in
  let doy := ((153 * mp + 2) / 5 + d - 1)%Z in
  let doe := (yoe * 365 + yoe / 4 - yoe / 100 + doy)%Z in
  (era * 146097 + doe - 306)%Z.

(** [time.Parse(time.RFC3339, s)] on timestamps of the shape
    [YYYY-MM-DDTHH:MM:SSZ]; other strings are not read. *)
Definition parseTime (s : string) : option Time :=
  match list_ascii_of_string s with
  | [y1; y2; y3; y4; s1; m1; m2; s2; d1; d2; t; h1; h2; s3; n1; n2; s4; c1; c2; z] =>
      if Ascii.eqb s1 "-" && Ascii.eqb s2 "-" && Ascii.eqb t "T" && Ascii.eqb s3 ":"
         && Ascii.eqb s4 ":" && Ascii.eqb z "Z"
      then
        match number [y1; y2; y3; y4] 0, number [m1; m2] 0, number [d1; d2] 0,
              number [h1; h2] 0, number [n1; n2] 0, number [c1; c2] 0 with
        | Some y, Some m, Some d, Some h, Some n, Some c =>
            if ((1 <=? m) && (m <=? 12) && (1 <=? d) && (d <=? 31) && (h <? 24)
                && (n <? 60) && (c <? 60))%Z
            then Some ((((daysFromCivil y m d * 24 + h) * 60 + n) * 60 + c) * 1000000000)%Z
            else None
        | _, _, _, _, _, _ => None
        end
      else None
  | _ => None
  end.

Definition field_string (k : string) (m : JMap) : string :=
  default "" (obj_get_string k m).

Definition extractResourceInfo (raw : JSON) : option ResourceInfo :=
  match raw with
  | JObject m =>
      Some {| ID := field_string "id" m;
              ResourceType := field_string "resourceType" m;
              InfoLastUpdated :=
                match obj_get_map "meta" m with
                | Some meta =>
                    match obj_get_string "lastUpdated" meta with
                    | Some s => parseTime s
                    | None => None
                    end
                | None => None
                end |}
  | _ => None
  end.

Definition parseURL (s : string) : option URL :=
  match String.index 0 "://" s with
  | Some n =>
      let rest := String.substring (n + 3) (String.length s - (n + 3)) s in
      Some {| Scheme := String.substring 0 n s;
              Host := default "" (head (strings.Split rest "/")) |}
  | None => Some {| Scheme := ""; Host := "" |}
  end.

Definition absoluteHTTP (s : string) : bool :=
  match parseURL s with
  | Some u =>
      let scheme := strings.ToLower (Scheme u) in
      (String.eqb scheme "http" || String.eqb scheme "https")
      && negb (String.eqb (Host u) "")
  | None => false
  end.

Fixpoint joinSlash (parts : list string) : string :=
  match parts with
  | [] => ""
  | [p] => p
  | p :: rest => p +:+ "/" +:+ joinSlash rest
  end.

(** [{sourceBaseURL}/{ResourceType}/{id}], for an absolute http(s) base. *)
Definition buildSourceURL (base : string) (parts : list string) : option string :=
  if absoluteHTTP base
  then Some (strings.TrimRight base "/" +:+ "/" +:+ joinSlash parts)
  else None.

Definition filterIdentifiersBySystem (ids : list Identifier) (system : string)
    : list Identifier :=
  filter (λ id, System id = Some system) ids.

Definition sameCoding (a b : Coding) : bool :=
  bool_decide (CodingSystem a = CodingSystem b) && bool_decide (Code a = Code b).

Definition codablesIncludesCode (concepts : list CodeableConcept) (c : Coding) : bool :=
  existsb (λ concept, existsb (λ x, sameCoding x c) (CodingList concept)) concepts.

Definition uraNamingSystem : string := "http://fhir.nl/fhir/NamingSystem/ura".
Definition payloadSystem : string :=
  "http://nuts-foundation.github.io/nl-generic-functions-ig/CodeSystem/nl-gf-data-exchange-capabilities".
Definition payloadCode : string :=
  "http://nuts-foundation.github.io/nl-generic-functions-ig/CapabilityStatement/nl-gf-admin-directory-update-client".

Definition optString (k : string) (m : JMap) : option string := obj_get_string k m.

Definition decodeReference (j : JSON) : Reference :=
  match j with
  | JObject m => {| ReferenceRef := optString "reference" m |}
  | _ => {| ReferenceRef := None |}
  end.

Definition decodeIdentifier (j : JSON) : Identifier :=
  match j with
  | JObject m => {| System := optString "system" m; Value := optString "value" m |}
  | _ => {| System := None; Value := None |}
  end.

Definition decodeCoding (j : JSON) : Coding :=
  match j with
  | JObject m => {| CodingSystem := optString "system" m; Code := optString "code" m |}
  | _ => {| CodingSystem := None; Code := None |}
  end.

Definition arrayOf (k : string) (m : JMap) : list JSON :=
  match obj_get k m with
  | Some (JArray l) => l
  | _ => []
  end.

Definition decodeConcept (j : JSON) : CodeableConcept :=
  match j with
  | JObject m => {| CodingList := decodeCoding <$> arrayOf "coding" m |}
  | _ => {| CodingList := [] |}
  end.

Definition unmarshalOrganization (raw : JSON) : option Organization :=
  match raw with
  | JObject m =>
      Some {| OrgId := optString "id" m;
              OrgIdentifier := decodeIdentifier <$> arrayOf "identifier" m;
              PartOf := decodeReference <$> obj_get "partOf" m;
              OrgEndpoint := decodeReference <$> arrayOf "endpoint" m |}
  | _ => None
  end.

Definition unmarshalEndpoint (raw : JSON) : option Endpoint :=
  match raw with
  | JObject m =>
      Some {| EndpointId := optString "id" m;
              Address := field_string "address" m;
              PayloadType := decodeConcept <$> arrayOf "payloadType" m |}
  | _ => None
  end.

Definition isObject (raw : JSON) : bool :=
  match raw with JObject _ => true | _ => false end.

(** Rule 7 of the validator, the resource-type allowlist; the other rules
    are not exercised by the examples. *)
Definition validateUpdate (rules : ValidationRules) (raw : JSON)
    (tree : parentOrganizationMap) (services : list BundleEntry) : option string :=
  match raw with
  | JObject m =>
      let t := field_string "resourceType" m in
      if bool_decide (t ∈ AllowedResourceTypes rules) then None
      else Some ("resource type " +:+ t +:+ " not allowed")
  | _ => Some "not a resource"
  end.

(** Rule 1 of the validator: a root carries exactly one URA identifier. *)
Definition validateParentOrganizations (tree : parentOrganizationMap) : option string :=
  if forallb (λ kv, bool_decide
                      (length (filterIdentifiersBySystem (OrgIdentifier kv.2.1)
                                                         uraNamingSystem) = 1))
             (map_to_list tree)
  then None else Some "organization must have exactly one URA identifier".

Definition referenceID (ref : option string) : string :=
  match ref with
  | Some r => List.last (strings.Split r "/") ""
  | None => ""
  end.

Definition hexDigit (n : nat) : ascii :=
  ascii_of_nat (if (n <? 10)%nat then 48 + n else 55 + n).

Definition unreserved (a : ascii) : bool :=
  let n := nat_of_ascii a in
  ((48 <=? n) && (n <=? 57) || (65 <=? n) && (n <=? 90) || (97 <=? n) && (n <=? 122)
   || (n =? 45) || (n =? 95) || (n =? 46) || (n =? 126))%nat.

(** [url.QueryEscape] *)
Fixpoint queryEscape (s : string) : string :=
  match s with
  | EmptyString => EmptyString
  | String a rest =>
      if unreserved a then String a (queryEscape rest)
      else if Ascii.eqb a " " then String "+" (queryEscape rest)
      else let n := nat_of_ascii a in
           String "%" (String (hexDigit (n / 16)) (String (hexDigit (n mod 16))
                                                          (queryEscape rest)))
  end.

(** The instant, in whole seconds, as text; the examples do not reach the
    fallback that formats the local clock. *)
Definition formatTime (t : Time) : string := pretty (t / 1000000000)%Z.

Definition externals : Externals :=
  {| ExtractResourceInfo := extractResourceInfo;
     BuildSourceURL := buildSourceURL;
     FilterIdentifiersBySystem := filterIdentifiersBySystem;
     URANamingSystem := uraNamingSystem;
     MCSDPayloadTypeSystem := payloadSystem;
     MCSDPayloadTypeDirectoryCode := payloadCode;
     PayloadCoding := {| CodingSystem := Some payloadSystem; Code := Some payloadCode |};
     CodablesIncludesCode := codablesIncludesCode;
     ValidateUpdate := validateUpdate;
     ValidateParentOrganizations := validateParentOrganizations;
     extractReferenceID := referenceID;
     Unmarshal_Organization := unmarshalOrganization;
     Unmarshal_Endpoint := unmarshalEndpoint;
     Unmarshal_HealthcareService := isObject;
     url_Parse := parseURL;
     QueryEscape := queryEscape;
     Format_RFC3339Nano := formatTime |}.

(** Servers that answer from tables: [search] gives the pages of a search by
    base URL and path, [submit] the answer of the query directory to a
    transaction. *)
Record Servers := {
  search : string → string → gmap string string → Result Pages;
  submit : Bundle → Result Bundle;
  clock : Time;
  stateFile : Result (gmap string string);
}.

(** The servers, as a [Remote] whose world never changes. *)
Definition remote (s : Servers) : Remote :=
  {| World := unit;
     SearchWithContext := λ w base path params, (w, search s base path params);
     CreateWithContext := λ w base tx, (w, submit s tx);
     time_Now := λ _, clock s;
     ReadStateFile := λ _ _, stateFile s;
     WriteStateFile := λ w _ _, w |}.

(** A table of searches: the pages by base URL and path; a search that is
    not listed fails. *)
Fixpoint searchTable (rows : list (string * string * Result Pages))
    (base path : string) (params : gmap string string) : Result Pages :=
  match rows with
  | [] => Err "404 Not Found"
  | (b, p, r) :: rest =>
      if String.eqb b base && String.eqb p path then r
      else searchTable rest base path params
  end.

(** The query directory accepts every transaction. *)
Definition accept (tx : Bundle) : Result Bundle :=
  Ok {| Type_ := None; BundleMeta := None;
        Entry := (λ e, {| FullUrl := None; Resource := None; Request := None;
                          Response :=
                            Some {| Status :=
                                      match Request e with
                                      | Some {| Method := HTTPVerbDELETE |} => "204 No Content"
                                      | _ => "201 Created"
                                      end |} |}) <$> Entry tx |}.

Definition servers (rows : list (string * string * Result Pages)) : Servers :=
  {| search := searchTable rows; submit := accept; clock := 0%Z;
     stateFile := Err "absent" |}.

End Example.

(** ** Statement-side definitions *)

Section Statements.
Context {ext : Externals}.

(** The entries of a feed that carry a given resource ID, in feed order. *)
Definition bucket (id : string) (entries : list BundleEntry) : list BundleEntry :=
  filter (λ e, entryResourceID e = id) entries.

(** What the loop of [deduplicateHistoryEntries] leaves in [resourceMap] for
    one ID, started on the first entry of the bucket. *)
Definition keepLatest (cur : BundleEntry) (rest : list BundleEntry) : BundleEntry :=
  fold_left (λ cur e, if isMoreRecent e cur then e else cur) rest cur.

(** A DELETE entry: no resource body and method DELETE. *)
Definition isDeleteEntry (e : BundleEntry) : bool :=
  match Resource e, Request e with
  | None, Some rq => isDELETE (Method rq)
  | _, _ => false
  end.

(** The deduplication rule as the specification words it: the survivor of an
    ID that occurs more than once is the non-DELETE entry with the greatest
    lastUpdated, and a DELETE survives only if it is the only entry of the ID
    or it is the last entry of the input and no other entry of the ID carries
    a timestamp. *)
Definition dedup_rule_as_specified : Prop :=
  ∀ (entries : list BundleEntry) (id : string) (w : BundleEntry),
    id ≠ "" →
    2 ≤ length (bucket id entries) →
    w ∈ deduplicateHistoryEntries entries →
    entryResourceID w = id →
    (isDeleteEntry w = false ∧
     ∀ e, e ∈ bucket id entries → isDeleteEntry e = false →
          (getLastUpdated e ≤ getLastUpdated w)%Z)
    ∨
    (isDeleteEntry w = true ∧
     (bucket id entries = [w] ∨
      (last entries = Some w ∧
       ∀ e, e ∈ bucket id entries → e ≠ w → getLastUpdated e = 0%Z))).

(** The organizations of [orgMap] are keyed by their own ID. *)
Definition keyedById (orgMap : gmap string Organization) : Prop :=
  ∀ k org, orgMap !! k = Some org → OrgId org = Some k.


(** The binding-wise step of the map case of [convertReferencesRecursive]. *)
Definition convertBinding (sourceBaseURL : string) (kv : string * JSON)
    : Result (string * JSON) :=
  match convertReferencesRecursive kv.2 sourceBaseURL with
  | Ok value => Ok (kv.1, value)
  | Err e => Err e
  end.

(** The entry that [buildUpdateTransaction] emits for a PUT or POST. *)
Definition putEntry (resourceType sourceURL : string) (body : JSON) : BundleEntry :=
  {| FullUrl := None; Resource := Some body;
     Request := Some {| Method := HTTPVerbPUT;
                        Url := resourceType +:+ "?" +:+ encodeSource sourceURL |};
     Response := None |}.





(** Two URLs are equal after ignoring one trailing slash. *)
Definition equalUpToOneSlash (a b : string) : Prop :=
  a = b ∨ a = b +:+ "/" ∨ b = a +:+ "/".

(** The exclusion rule as the specification words it: an attempt to register
    an excluded URL adds nothing and returns no error. *)
Definition exclusion_as_specified : Prop :=
  ∀ (c : Component) (fhirBaseURL : string) (resourceTypes : list string)
    (discover : bool) (sourceURL authoritativeUra excluded : string),
    excluded ∈ ExcludeAdminDirectories (config c) →
    equalUpToOneSlash fhirBaseURL excluded →
    registerAdministrationDirectory c fhirBaseURL resourceTypes discover sourceURL
      authoritativeUra = (c, None).

End Statements.

(** All entries of the pages of a search, in page order, up to the first
    page whose [next] link cannot be followed. *)
Fixpoint pageEntries (p : Pages) : list BundleEntry :=
  match p with
  | LastPage b => Entry b
  | NextPage b rest => Entry b ++ pageEntries rest
  | NextPageFails b _ => Entry b
  end.

(** Every [next] link of the search can be followed. *)
Fixpoint allPagesFetched (p : Pages) : bool :=
  match p with
  | LastPage _ => true
  | NextPage _ rest => allPagesFetched rest
  | NextPageFails _ _ => false
  end.

(** ** Concrete feeds *)

Module Feed.

Definition organization (id : string) (fields : JMap) : JSON :=
  JObject (("resourceType", JString "Organization") :: ("id", JString id) :: fields).

Definition lastUpdatedAt (ts : string) : string * JSON :=
  ("meta", JObject [("lastUpdated", JString ts)]).

Definition put (type id : string) (resource : JSON) : BundleEntry :=
  {| FullUrl := Some ("https://root.example/fhir/" +:+ type +:+ "/" +:+ id);
     Resource := Some resource;
     Request := Some {| Method := HTTPVerbPUT; Url := type +:+ "/" +:+ id |};
     Response := None |}.

Definition delete (fullUrl type id : string) : BundleEntry :=
  {| FullUrl := Some fullUrl;
     Resource := None;
     Request := Some {| Method := HTTPVerbDELETE; Url := type +:+ "/" +:+ id |};
     Response := None |}.

(** A history feed, newest first: organization 1 was updated and then
    deleted. *)
Definition deletedOrganization : list BundleEntry :=
  [ delete "https://root.example/fhir/Organization/1" "Organization" "1";
    put "Organization" "1" (organization "1" [lastUpdatedAt "2025-08-01T10:00:00Z"]) ].

Definition ura (value : string) : string * JSON :=
  ("identifier", JArray [JObject [("system", JString Example.uraNamingSystem);
                                  ("value", JString value)]]).

Definition partOf (id : string) : string * JSON :=
  ("partOf", JObject [("reference", JString ("Organization/" +:+ id))]).

Definition found (type id : string) (resource : JSON) : BundleEntry :=
  {| FullUrl := Some ("https://root.example/fhir/" +:+ type +:+ "/" +:+ id);
     Resource := Some resource; Request := None; Response := None |}.

Definition hospitalOrg : Organization :=
  {| OrgId := Some "hospital";
     OrgIdentifier := [{| System := Some Example.uraNamingSystem; Value := Some "100" |}];
     PartOf := None; OrgEndpoint := [] |}.

Definition wardOf (parent : string) : Organization :=
  {| OrgId := Some "ward"; OrgIdentifier := [];
     PartOf := Some {| ReferenceRef := Some ("Organization/" +:+ parent) |};
     OrgEndpoint := [] |}.

(** A hospital with a URA and one ward. *)
Definition hospitalWithWard : list BundleEntry :=
  [ found "Organization" "hospital" (organization "hospital" [ura "100"]);
    found "Organization" "ward" (organization "ward" [partOf "hospital"]) ].


Definition directoryPayload : string * JSON :=
  ("payloadType",
   JArray [JObject [("coding",
      JArray [JObject [("system", JString Example.payloadSystem);
                       ("code", JString Example.payloadCode)]])]]).

(** An mCSD-directory Endpoint, with server-assigned metadata. *)
Definition directoryEndpoint (id address : string) : JSON :=
  JObject [("resourceType", JString "Endpoint"); ("id", JString id);
           ("meta", JObject [("versionId", JString "1");
                             ("lastUpdated", JString "2025-08-01T10:00:00Z")]);
           directoryPayload; ("address", JString address)].

Definition emptyTransaction : Bundle :=
  {| Type_ := Some BundleTypeTransaction; BundleMeta := None; Entry := [] |}.

Definition rootRules : ValidationRules :=
  {| AllowedResourceTypes := rootDirectoryResourceTypes |}.

Definition rootBase : string := "https://root.example/fhir".

Definition configWith (excluded : list string) (snapshot : bool) : Config :=
  {| AdministrationDirectories := ∅;
     QueryDirectory := {| FHIRBaseURL := "http://localhost:8080/fhir" |};
     ExcludeAdminDirectories := excluded;
     DirectoryResourceTypes := defaultDirectoryResourceTypes;
     StateFile := "";
     SnapshotModeSupport := snapshot |}.

Definition componentWith (cfg : Config) (dirs : list administrationDirectory)
    (cursors : gmap string string) : Component :=
  {| config := cfg; administrationDirectories := dirs;
     directoryResourceTypes := DirectoryResourceTypes cfg;
     lastUpdateTimes := cursors |}.

(** One page with a thousand entries. *)
Definition thousandEntries : Pages :=
  LastPage {| Type_ := Some BundleTypeSearchset; BundleMeta := None;
              Entry := replicate 1000 (found "Organization" "hospital"
                                         (organization "hospital" [ura "100"])) |}.

Definition oneSearch (pages : Pages) : Example.Servers :=
  {| Example.search := λ _ _ _, Ok pages;
     Example.submit := λ _, Err "unreachable";
     Example.clock := 0%Z;
     Example.stateFile := Err "absent" |}.

(** The creation of a directory Endpoint, and the deletion of one, as a root
    directory reports them. *)
Definition endpointCreated : BundleEntry :=
  put "Endpoint" "e1" (directoryEndpoint "e1" "https://care.example/fhir").

Definition endpointDeleted : BundleEntry :=
  delete "https://root.example/fhir/Endpoint/e1" "Endpoint" "e1".

Definition page (entries : list BundleEntry) : Result Pages :=
  Ok (LastPage {| Type_ := Some BundleTypeHistory;
                  BundleMeta := Some {| LastUpdated := Some "2025-08-01T12:00:00Z" |};
                  Entry := entries |}).

Definition careBase : string := "https://care.example/fhir".
Definition mirrorBase : string := "https://mirror.example/fhir".

Definition rootDirectory (base : string) : administrationDirectory :=
  {| Dir.fhirBaseURL := base; Dir.resourceTypes := rootDirectoryResourceTypes;
     Dir.discover := true; Dir.sourceURL := ""; Dir.authoritativeUra := "" |}.

(** The directory that discovery registers for [endpointCreated]. *)
Definition careDirectory : administrationDirectory :=
  {| Dir.fhirBaseURL := careBase; Dir.resourceTypes := defaultDirectoryResourceTypes;
     Dir.discover := false; Dir.sourceURL := "https://root.example/fhir/Endpoint/e1";
     Dir.authoritativeUra := "100" |}.

(** The hospital of the root directory, which names the Endpoint e1. *)
Definition hospitalWithEndpoint : JSON :=
  organization "hospital"
    [ura "100"; ("endpoint", JArray [JObject [("reference", JString "Endpoint/e1")]])].

(** The root directory lists the hospital and its directory Endpoint. *)
Definition rootRows : list (string * string * Result Pages) :=
  [ (rootBase, "Organization/_history", page [put "Organization" "hospital" hospitalWithEndpoint]);
    (rootBase, "Endpoint/_history", page [endpointCreated]);
    (rootBase, "Organization", page [found "Organization" "hospital" hospitalWithEndpoint]) ].

(** The directory of the hospital is empty. *)
Definition careRows : list (string * string * Result Pages) :=
  [ (careBase, "Organization/_history", page []);
    (careBase, "Endpoint/_history", page []);
    (careBase, "Location/_history", page []);
    (careBase, "HealthcareService/_history", page []);
    (careBase, "PractitionerRole/_history", page []);
    (careBase, "Practitioner/_history", page []);
    (careBase, "Organization", page []) ].

(** A second root directory, which reports the Endpoint e1 of the first as
    deleted. *)
Definition mirrorRows : list (string * string * Result Pages) :=
  [ (mirrorBase, "Organization/_history", page []);
    (mirrorBase, "Endpoint/_history", page [endpointDeleted]);
    (mirrorBase, "Organization", page []) ].

(** The history of a source is gone. *)
Definition goneRows : list (string * string * Result Pages) :=
  [ (rootBase, "Organization/_history", Err "410 Gone") ].



(** A feed in which the Endpoint e1 was deleted, with an empty fullUrl, and
    created again: newest first, the DELETE comes second. *)
Definition recreatedEndpoint : list BundleEntry :=
  [ endpointCreated; delete "" "Endpoint" "e1" ].

End Feed.

(** ** Statement-side definitions for the registry and the run *)

(** Some entry of the list is the DELETE of an Endpoint whose fullUrl is the
    source URL of the directory: [processEndpointDeletes] unregisters the
    directory. *)
Definition unregisteredBy (entries : list BundleEntry) (d : administrationDirectory) : bool :=
  existsb (λ e, match endpointDeleteFullUrl e with
                | Some fullUrl => String.eqb (Dir.sourceURL d) fullUrl
                | None => false
                end) entries.

(** The directories that read discoverable, counted. *)
Definition discoverable (l : list administrationDirectory) : nat :=
  length (filter (λ d, Dir.discover d = true) l).

(** The shape of a registry built by [New] and grown by discovery: first
    directories with an empty source URL, the configured roots, then
    directories that are not discoverable. *)
Definition rootsFirst (l : list administrationDirectory) : Prop :=
  ∃ roots rest, l = roots ++ rest ∧
    Forall (λ d, Dir.sourceURL d = "") roots ∧
    Forall (λ d, Dir.discover d = false) rest.


(** The order of processing as the specification words it, for the first
    source of a run: every directory that is appended to the registry while
    the first source is processed is processed in the same run. *)
Definition appended_directories_processed_as_specified {ext : Externals} {rem : Remote}
    : Prop :=
  ∀ (fuel : nat) (c c' : Component) (w w' : World) (first : administrationDirectory)
    (result : UpdateReport) (processed : list administrationDirectory),
    administrationDirectories c !! 0 = Some first →
    update fuel c w = Some (c', w', result, processed) →
    ∀ d, d ∈ administrationDirectories
               (updateFromDirectory c w (Dir.fhirBaseURL first) (Dir.resourceTypes first)
                  (Dir.discover first) (Dir.authoritativeUra first)).1.1.1 →
         d ∉ administrationDirectories c →
         d ∈ processed.

(** The pre-scan as the claim words it: when the pulled feed contains the
    DELETE of an Endpoint with an empty fullUrl, no directory with an empty
    source URL is left in the registry after the pre-scan, which runs on the
    deduplicated feed. *)
Definition prescan_as_specified {ext : Externals} : Prop :=
  ∀ (c : Component) (feed : list BundleEntry) (e : BundleEntry),
    e ∈ feed → endpointDeleteFullUrl e = Some "" →
    ∀ d, d ∈ administrationDirectories
               (processEndpointDeletes c (deduplicateHistoryEntries feed)) →
         Dir.sourceURL d ≠ "".

(** No search of the remote servers ever returns the DELETE of an Endpoint
    whose fullUrl is the empty string. *)
Definition noEmptyFullUrlDelete {rem : Remote} : Prop :=
  ∀ (w : World) (client path : string) (searchParams : gmap string string)
    (w' : World) (pages : Pages),
    SearchWithContext w client path searchParams = (w', Ok pages) →
    ∀ e, e ∈ pageEntries pages → endpointDeleteFullUrl e ≠ Some "".


(** The error of a source whose history is gone while Snapshot Mode is
    disabled. *)
Definition goneError (resourceType : string) : string :=
  "410 Gone: history too old for " +:+ resourceType
  +:+ " and Snapshot Mode is disabled, cannot sync".

(** The component keeps its settings and cursors, and the registry only
    gains directories that are not discoverable. *)
Definition sameSettings (c c' : Component) : Prop :=
  config c' = config c ∧ directoryResourceTypes c' = directoryResourceTypes c ∧
  lastUpdateTimes c' = lastUpdateTimes c ∧
  ∃ added, administrationDirectories c' = administrationDirectories c ++ added ∧
           Forall (λ d, Dir.discover d = false) added.

(** What a sync does to the component: the settings stay, the registry loses
    the directories unregistered by the Endpoint DELETEs of the deduplicated
    [entries] and gains directories that are not discoverable (both only for
    a discoverable source), and the cursor map is [cursors]. *)
Definition syncEffect {ext : Externals} (c c' : Component) (allowDiscovery : bool)
    (entries : list BundleEntry) (cursors : gmap string string) : Prop :=
  config c' = config c ∧ directoryResourceTypes c' = directoryResourceTypes c ∧
  lastUpdateTimes c' = cursors ∧
  ∃ added,
    administrationDirectories c'
    = (if allowDiscovery
       then filter (λ d, unregisteredBy (deduplicateHistoryEntries entries) d = false)
                   (administrationDirectories c)
       else administrationDirectories c) ++ added
    ∧ Forall (λ d, Dir.discover d = false) added
    ∧ (allowDiscovery = false → added = []).

(** The cursor maps a sync of the source with key [key] can leave behind:
    the old map, the old map without the key (only under Snapshot Mode
    support), or, after a sync without error, the old map with a timestamp
    for the key. *)
Definition cursorOutcome (c : Component) (key : string) (err : option string)
    (cursors : gmap string string) : Prop :=
  cursors = lastUpdateTimes c
  ∨ (SnapshotModeSupport (config c) = true ∧ cursors = delete key (lastUpdateTimes c))
  ∨ (err = None ∧ ∃ ts, cursors = <[key := ts]> (lastUpdateTimes c)).

(** ** Statement-side definitions for the further results *)

(** A string without a slash: one segment of a path. *)
Definition segment (s : string) : Prop := strings.Contains s "/" = false.

(** The organization that [org] is part of, as
    [organizationLinksToParentRecursive] looks it up in [orgMap]. *)
Definition partOfOrg (orgMap : gmap string Organization) (org : Organization)
    : option Organization :=
  match PartOf org with
  | Some {| ReferenceRef := Some ref |} => orgMap !! partOfParentID ref
  | _ => None
  end.

(** The organization [n] partOf-steps above [org]. *)
Fixpoint ancestor (orgMap : gmap string Organization) (n : nat) (org : Organization)
    : option Organization :=
  match n with
  | O => Some org
  | S n' => partOfOrg orgMap org ≫= ancestor orgMap n'
  end.

(** The organization [n] partOf-steps above [org] has the ID [pid]. *)
Definition reaches (orgMap : gmap string Organization) (n : nat) (org : Organization)
    (pid : string) : Prop :=
  ancestor orgMap n org ≫= OrgId = Some pid.

(** One step into a JSON document: a field of an object or an item of an
    array. *)
Inductive Step : Type :=
| Field (k : string)
| Item (i : nat).

(** The value at a path of a JSON document. *)
Fixpoint at_path (path : list Step) (j : JSON) : option JSON :=
  match path with
  | [] => Some j
  | Field k :: rest =>
      match j with
      | JObject m => obj_get k m ≫= at_path rest
      | _ => None
      end
  | Item i :: rest =>
      match j with
      | JArray items => items !! i ≫= at_path rest
      | _ => None
      end
  end.

(** The entry that [buildUpdateTransaction] emits for a DELETE. *)
Definition deleteEntry {ext : Externals} (resourceType sourceURL : string) : BundleEntry :=
  {| FullUrl := None; Resource := None;
     Request := Some {| Method := HTTPVerbDELETE;
                        Url := resourceType +:+ "?" +:+ encodeSource sourceURL |};
     Response := None |}.

(** What identifies a directory of the registry: its base URL and its
    authoritative URA. *)
Definition registryKey (d : administrationDirectory) : string * string :=
  (Dir.fhirBaseURL d, Dir.authoritativeUra d).

(** No two directories of the registry have the same base URL and the same
    authoritative URA. *)
Definition uniqueDirectories (l : list administrationDirectory) : Prop :=
  NoDup (registryKey <$> l).

(** The base URL of every directory of the registry passes the URL check of
    [registerAdministrationDirectory] and is not excluded by the
    configuration. *)
Definition admissibleDirectories {ext : Externals} (c : Component) : Prop :=
  Forall (λ d, validFHIRBaseURL (Dir.fhirBaseURL d) = Ok tt
               ∧ isExcluded c (Dir.fhirBaseURL d) = false)
         (administrationDirectories c).

(** The response of the query directory to one entry of the transaction has
    a status that starts with the given code. *)
Definition hasStatus (code : string) (entry : BundleEntry) : bool :=
  match Response entry with
  | Some response => strings.HasPrefix (Status response) code
  | None => false
  end.

(** The response to the entry is counted as created, updated or deleted. *)
Definition isCounted (entry : BundleEntry) : bool :=
  hasStatus "201" entry || hasStatus "200" entry || hasStatus "204" entry.

(** The key under which [update] reports a directory. *)
Definition reportKey (d : administrationDirectory) : string :=
  makeDirectoryKey (Dir.fhirBaseURL d) (Dir.authoritativeUra d).

(** The registry entry of a configured root directory. *)
Definition configuredRoot (rootDirectory : DirectoryConfig) : administrationDirectory :=
  {| Dir.fhirBaseURL := FHIRBaseURL rootDirectory;
     Dir.resourceTypes := rootDirectoryResourceTypes;
     Dir.discover := true; Dir.sourceURL := ""; Dir.authoritativeUra := "" |}.

(** A configuration with one root directory and no resource types. *)
Definition bareConfig : Config :=
  {| AdministrationDirectories := {[ "lrza" := {| FHIRBaseURL := "https://root.example/fhir" |} ]};
     QueryDirectory := {| FHIRBaseURL := "http://localhost:8080/fhir" |};
     ExcludeAdminDirectories := [];
     DirectoryResourceTypes := [];
     StateFile := "";
     SnapshotModeSupport := false |}.

(** The DELETE of version 3 of an Organization, and an Organization with a
    URA identifier and a name, as a provider directory reports them. *)
Definition versionedDelete : BundleEntry :=
  {| FullUrl := Some "https://care.example/fhir/Organization/1"; Resource := None;
     Request := Some {| Method := HTTPVerbDELETE; Url := "Organization/1/_history/3" |};
     Response := None |}.

Definition namedHospital : BundleEntry :=
  Feed.put "Organization" "hospital"
    (Feed.organization "hospital" [Feed.ura "100"; ("name", JString "General Hospital")]).

Definition providerRules : ValidationRules :=
  {| AllowedResourceTypes := defaultDirectoryResourceTypes |}.

(** ** Bearer tokens for the FHIR clients (lib/httpauth: transport.go and
    oauth2.go)

    [New] builds the HTTP client of the FHIR clients with
    [httpauth.NewOAuth2HTTPClient] when OAuth2 is configured.  The token
    provider is embedded as it runs in one goroutine: the locks of [GetToken]
    then only bracket its steps.  Instants are on one time line, see [Time];
    the clock and the token endpoint belong to the environment. *)

(** [strings.Join] *)
Fixpoint strings_Join (elems : list string) (sep : string) : string :=
  match elems with
  | [] => ""
  | [e] => e
  | e :: rest => e +:+ sep +:+ strings_Join rest sep
  end.

Module httpauth.
Local Open Scope Z_scope.

(** [time.Duration]: a count of nanoseconds in an int64. *)
Definition Duration := Z.
Definition Second : Duration := 1000000000.
Definition Hour : Duration := 3600 * Second.

(** The int64 that an int64 computation with the exact result [z] gives. *)
Definition wrap64 (z : Z) : Z := (z + 2 ^ 63) mod 2 ^ 64 - 2 ^ 63.

(** [t.Add(d)] and [t.Before(u)] *)
Definition Add (t : Time) (d : Duration) : Time := t + d.
Definition Before (t u : Time) : bool := t <? u.

(** OAuth2Config holds the configuration for OAuth2 client credentials
    authentication. *)
Record OAuth2Config := {
  TokenURL : string;
  ClientID : string;
  ClientSecret : string;
  Scopes : list string;
}.

(** IsConfigured returns true if the OAuth2 configuration has all required
    fields set. *)
Definition IsConfigured (c : OAuth2Config) : bool :=
  negb (String.eqb (TokenURL c) "") && negb (String.eqb (ClientID c) "")
  && negb (String.eqb (ClientSecret c) "").

(** oauth2TokenResponse represents the response from the OAuth2 token
    endpoint. *)
Record oauth2TokenResponse := {
  AccessToken : string;
  TokenType : string;
  ExpiresIn : Z; (* Expiration time in seconds *)
  Scope : string;
}.

(** An HTTP response: the status code, and what [io.ReadAll] gives for the
    body. *)
Record Response := {
  StatusCode : Z;
  Body : Result string;
}.

Class Env := {
  (** The state of everything outside the provider. *)
  State : Type;
  (** [time.Now()]: one reading of the clock; the clock may have moved on at
      the next reading. *)
  time_Now : State → State * Time;
  (** The error of [http.NewRequest(http.MethodPost, url, body)], if any. *)
  NewRequest_error : string → option string;
  (** [client.Do(req)] for the POST of a form body to a URL. *)
  Do : State → string → string → State * Result Response;
  (** [data.Encode()] of [url.Values] *)
  Encode : gmap string (list string) → string;
  (** [json.Unmarshal(body, &tokenResp)] *)
  Unmarshal_oauth2TokenResponse : string → Result oauth2TokenResponse;
}.

Section Provider.
Context {env : Env}.

(** TokenProvider manages token caching and automatic refresh. *)
Record TokenProvider := {
  token : string;
  expiresAt : Time;
  refreshFunc : State → State * Result (string * Duration);
  refreshBuffer : Duration;
}.

(** NewTokenProvider creates a new TokenProvider with the given refresh
    function. *)
Definition NewTokenProvider (refreshFunc : State → State * Result (string * Duration))
    (refreshBuffer : Duration) : TokenProvider :=
  {| token := ""; expiresAt := 0;
     refreshFunc := refreshFunc;
     refreshBuffer := if refreshBuffer =? 0 then 30 * Second else refreshBuffer |}.

(** The test of [GetToken]:
    [time.Now().Before(p.expiresAt.Add(-p.refreshBuffer))], for the reading
    [now]. *)
Definition fresh (p : TokenProvider) (now : Time) : bool :=
  Before now (Add (expiresAt p) (wrap64 (- refreshBuffer p))).

(** The last part of [GetToken], after the second test: the refresh. *)
Definition refresh (p : TokenProvider) (s : State) : TokenProvider * State * Result string :=
  match refreshFunc p s with
  | (s, Err err) => (p, s, Err ("token refresh failed: " +:+ err))
  | (s, Ok (token, expiresIn)) =>
      let '(s, now) := time_Now s in
      ({| token := token; expiresAt := Add now expiresIn;
          refreshFunc := refreshFunc p; refreshBuffer := refreshBuffer p |},
       s, Ok token)
  end.

(** GetToken returns a valid token, refreshing if necessary. *)
Definition GetToken (p : TokenProvider) (s : State) : TokenProvider * State * Result string :=
  let '(s, now) := time_Now s in
  if fresh p now then (p, s, Ok (token p))
  else
    (* Token expired or about to expire, refresh it *)
    let '(s, now) := time_Now s in
    (* Double-check after acquiring write lock *)
    if fresh p now then (p, s, Ok (token p))
    else refresh p s.

(** fetchOAuth2Token fetches a new access token using the OAuth2 client
    credentials grant. *)
Definition fetchOAuth2Token (config : OAuth2Config) (s : State)
    : State * Result (string * Duration) :=
  let data : gmap string (list string) :=
    {[ "grant_type" := ["client_credentials"];
       "client_id" := [ClientID config];
       "client_secret" := [ClientSecret config] ]} in
  let data :=
    if bool_decide (0 < length (Scopes config))%nat
    then <["scope" := [strings_Join (Scopes config) " "]]> data
    else data in
  match NewRequest_error (TokenURL config) with
  | Some err => (s, Err ("failed to create token request: " +:+ err))
  | None =>
  match Do s (TokenURL config) (Encode data) with
  | (s, Err err) => (s, Err ("token request failed: " +:+ err))
  | (s, Ok resp) =>
  match Body resp with
  | Err err => (s, Err ("failed to read token response: " +:+ err))
  | Ok body =>
  if negb (StatusCode resp =? 200) then
    (s, Err ("token request returned status " +:+ pretty (StatusCode resp)
             +:+ ": " +:+ body))
  else
  match Unmarshal_oauth2TokenResponse body with
  | Err err => (s, Err ("failed to parse token response: " +:+ err))
  | Ok tokenResp =>
  if String.eqb (AccessToken tokenResp) "" then
    (s, Err "token response did not contain access_token")
  else
    (* Default to 1 hour if expires_in is not provided *)
    let expiresIn := wrap64 (ExpiresIn tokenResp * Second) in
    let expiresIn := if expiresIn <=? 0 then Hour else expiresIn in
    (s, Ok (AccessToken tokenResp, expiresIn))
  end end end end.

(** NewOAuth2TokenProvider creates a TokenProvider that fetches tokens using
    OAuth2 client credentials grant. *)
Definition NewOAuth2TokenProvider (config : OAuth2Config) (refreshBuffer : Duration)
    : Result TokenProvider :=
  if negb (IsConfigured config) then
    Err "OAuth2 configuration is incomplete: tokenurl, clientid, and clientsecret are required"
  else Ok (NewTokenProvider (fetchOAuth2Token config) refreshBuffer).

End Provider.

(** A token endpoint and a clock to evaluate the provider on: the state counts
    the readings of the clock, which moves on ten seconds with every
    reading, and the endpoint answers every request with the given response,
    whose body decodes to the given token response. *)
Definition scripted (resp : Result Response) (decoded : Result oauth2TokenResponse) : Env :=
  {| State := nat;
     time_Now := λ n, (S n, Z.of_nat n * (10 * Second));
     NewRequest_error := λ _, None;
     Do := λ n _ _, (n, resp);
     Encode := λ _, "";
     Unmarshal_oauth2TokenResponse := λ _, decoded |}.

Definition oneHourToken : oauth2TokenResponse :=
  {| AccessToken := "secret"; TokenType := "Bearer"; ExpiresIn := 3600; Scope := "" |}.

Definition twentySecondToken : oauth2TokenResponse :=
  {| AccessToken := "brief"; TokenType := "Bearer"; ExpiresIn := 20; Scope := "" |}.

Definition answers (tokenResp : oauth2TokenResponse) : Env :=
  scripted (Ok {| StatusCode := 200; Body := Ok "{}" |}) (Ok tokenResp).

Definition unavailable : Env :=
  scripted (Ok {| StatusCode := 503; Body := Ok "Service Unavailable" |}) (Err "unexpected end").

Definition client : OAuth2Config :=
  {| TokenURL := "https://auth.example/token"; ClientID := "knooppunt";
     ClientSecret := "s3cret"; Scopes := [] |}.

(** The provider that [NewOAuth2HTTPClient] builds for [client], with its
    refresh buffer of thirty seconds. *)
Definition provider (env : Env) : TokenProvider :=
  NewTokenProvider (fetchOAuth2Token client) (30 * Second).

(** The provider after it has stored, at the instant of twenty seconds, a
    token that is valid for another twenty seconds. *)
Definition briefProvider : TokenProvider (env := answers twentySecondToken) :=
  {| token := "brief"; expiresAt := 40 * Second;
     refreshFunc := fetchOAuth2Token client; refreshBuffer := 30 * Second |}.

End httpauth.

(** * Results *)

(** ** History deduplication *)

Section DedupFacts.
Context {ext : Externals}.

Lemma dedupStep_lookup m l e id :
  id ≠ "" →
  (dedupStep (m, l) e).1 !! id =
    if bool_decide (entryResourceID e = id) then
      match m !! id with
      | Some cur => Some (if isMoreRecent e cur then e else cur)
      | None => Some e
      end
    else m !! id.
Proof.
  intros Hid. unfold dedupStep.
  destruct (String.eqb_spec (entryResourceID e) "") as [He|He]; simpl.
  - rewrite bool_decide_eq_false_2; [done | congruence].
  - case_bool_decide as Hk.
    + subst id. destruct (m !! entryResourceID e) as [cur|] eqn:Hm.
      * destruct (isMoreRecent e cur); simpl; [by rewrite lookup_insert_eq | done].
      * simpl. by rewrite lookup_insert_eq.
    + destruct (m !! entryResourceID e) as [cur|] eqn:Hm.
      * destruct (isMoreRecent e cur); simpl; [by rewrite lookup_insert_ne | done].
      * simpl. by rewrite lookup_insert_ne.
Qed.

Lemma dedupLoop_lookup_gen entries m l id :
  id ≠ "" →
  (fold_left dedupStep entries (m, l)).1 !! id =
    match m !! id with
    | Some cur => Some (keepLatest cur (bucket id entries))
    | None =>
        match bucket id entries with
        | [] => None
        | e0 :: rest => Some (keepLatest e0 rest)
        end
    end.
Proof.
  intros Hid. revert m l. induction entries as [|e entries IH]; intros m l.
  - simpl. by destruct (m !! id).
  - cbn [fold_left]. destruct (dedupStep (m, l) e) as [m' l'] eqn:Hstep.
    rewrite IH. pose proof (dedupStep_lookup m l e id Hid) as Hl.
    rewrite Hstep in Hl. simpl in Hl. rewrite Hl. unfold bucket.
    rewrite filter_cons. case_bool_decide as Hk.
    + rewrite decide_True by done. destruct (m !! id); done.
    + rewrite decide_False by done. done.
Qed.

Lemma dedupLoop_lookup entries id :
  id ≠ "" →
  (dedupLoop entries).1 !! id =
    match bucket id entries with
    | [] => None
    | e0 :: rest => Some (keepLatest e0 rest)
    end.
Proof. intros Hid. unfold dedupLoop. by rewrite dedupLoop_lookup_gen, lookup_empty. Qed.

Lemma dedupStep_keys m l e :
  (∀ k v, m !! k = Some v → entryResourceID v = k ∧ k ≠ "") →
  Forall (λ v, entryResourceID v = "") l →
  (∀ k v, (dedupStep (m, l) e).1 !! k = Some v → entryResourceID v = k ∧ k ≠ "") ∧
  Forall (λ v, entryResourceID v = "") (dedupStep (m, l) e).2.
Proof.
  intros Hm Hl. unfold dedupStep.
  destruct (String.eqb_spec (entryResourceID e) "") as [He|He]; simpl.
  - split; [done|]. apply Forall_app; split; [done|]. by constructor.
  - assert (∀ k v, <[entryResourceID e:=e]> m !! k = Some v → entryResourceID v = k ∧ k ≠ "").
    { intros k v. rewrite lookup_insert. case_decide; [|by apply Hm].
      intros [= <-]. by subst. }
    destruct (m !! entryResourceID e) as [cur|]; [destruct (isMoreRecent e cur)|]; simpl; done.
Qed.

Lemma dedupLoop_keys entries :
  (∀ k v, (dedupLoop entries).1 !! k = Some v → entryResourceID v = k ∧ k ≠ "") ∧
  Forall (λ v, entryResourceID v = "") (dedupLoop entries).2.
Proof.
  unfold dedupLoop.
  assert (∀ m l,
    (∀ k v, m !! k = Some v → entryResourceID v = k ∧ k ≠ "") →
    Forall (λ v, entryResourceID v = "") l →
    (∀ k v, (fold_left dedupStep entries (m, l)).1 !! k = Some v → entryResourceID v = k ∧ k ≠ "") ∧
    Forall (λ v, entryResourceID v = "") (fold_left dedupStep entries (m, l)).2) as Hgen.
  { induction entries as [|e entries IH]; intros m l Hm Hl; [done|].
    cbn [fold_left]. destruct (dedupStep_keys m l e Hm Hl) as [Hm' Hl'].
    destruct (dedupStep (m, l) e) as [m' l']. by apply IH. }
  apply Hgen; [|done]. intros k v. by rewrite lookup_empty.
Qed.

(** The values of a map whose entries are keyed by their own ID: exactly one
    of them has a given ID. *)
Lemma filter_values_by_key (m : gmap string BundleEntry) id w :
  (∀ k v, m !! k = Some v → entryResourceID v = k) →
  m !! id = Some w →
  filter (λ e, entryResourceID e = id) (map_to_list m).*2 ≡ₚ [w].
Proof.
  intros Hm Hw.
  rewrite <- (insert_delete_id m id w Hw) at 1.
  rewrite map_to_list_insert by apply lookup_delete_eq.
  rewrite fmap_cons, filter_cons. simpl.
  rewrite decide_True by (by apply Hm).
  apply Permutation_skip.
  assert (Forall (λ e, ¬ entryResourceID e = id) (map_to_list (delete id m)).*2) as Hall.
  { apply Forall_forall. intros v [[k v'] [-> Hin]]%list_elem_of_fmap. simpl.
    apply elem_of_map_to_list in Hin. apply lookup_delete_Some in Hin as [Hne Hin].
    apply Hm in Hin. congruence. }
  induction Hall as [|x l Hx Hall IH]; [done|].
  rewrite filter_cons. rewrite decide_False by done. done.
Qed.

Lemma isMoreRecent_true e cur :
  isMoreRecent e cur = true ↔
  getLastUpdated e ≠ 0%Z ∧ getLastUpdated cur ≠ 0%Z ∧ (getLastUpdated cur < getLastUpdated e)%Z.
Proof.
  unfold isMoreRecent, IsZero, After.
  destruct (Z.eqb_spec (getLastUpdated e) 0), (Z.eqb_spec (getLastUpdated cur) 0); simpl;
    rewrite ?Z.ltb_lt; split; try done; try tauto; intros; lia.
Qed.

Lemma keepLatest_untimed cur rest :
  getLastUpdated cur = 0%Z → keepLatest cur rest = cur.
Proof.
  intros Hcur. unfold keepLatest. induction rest as [|e rest IH]; [done|].
  cbn [fold_left]. destruct (isMoreRecent e cur) eqn:Hrec; [|done].
  apply isMoreRecent_true in Hrec. tauto.
Qed.

Lemma keepLatest_timed rest : ∀ pre cur mid,
  getLastUpdated cur ≠ 0%Z →
  (∀ e, e ∈ pre → getLastUpdated e = 0%Z ∨ (getLastUpdated e < getLastUpdated cur)%Z) →
  (∀ e, e ∈ mid → getLastUpdated e = 0%Z ∨ (getLastUpdated e ≤ getLastUpdated cur)%Z) →
  let w := keepLatest cur rest in
  getLastUpdated w ≠ 0%Z ∧
  ∃ l1 l2, pre ++ cur :: mid ++ rest = l1 ++ w :: l2 ∧
    (∀ e, e ∈ l1 → getLastUpdated e = 0%Z ∨ (getLastUpdated e < getLastUpdated w)%Z) ∧
    (∀ e, e ∈ l2 → getLastUpdated e = 0%Z ∨ (getLastUpdated e ≤ getLastUpdated w)%Z).
Proof.
  unfold keepLatest. induction rest as [|e rest IH]; intros pre cur mid Hcur Hpre Hmid.
  - simpl. split; [done|]. exists pre, mid. by rewrite app_nil_r.
  - cbn [fold_left]. destruct (isMoreRecent e cur) eqn:Hrec.
    + apply isMoreRecent_true in Hrec as (He & _ & Hlt).
      destruct (IH (pre ++ cur :: mid) e [] He) as (Hw & l1 & l2 & Heq & H1 & H2).
      * intros x [Hx|[->|Hx]%elem_of_cons]%elem_of_app.
        -- destruct (Hpre x Hx); [by left | right; lia].
        -- right; lia.
        -- destruct (Hmid x Hx); [by left | right; lia].
      * intros x Hx. by apply elem_of_nil in Hx.
      * split; [done|]. exists l1, l2. split; [|done].
        rewrite <- Heq. by rewrite <- app_assoc.
    + destruct (IH pre cur (mid ++ [e]) Hcur Hpre) as (Hw & l1 & l2 & Heq & H1 & H2).
      * intros x [Hx|Hx%list_elem_of_singleton]%elem_of_app; [by apply Hmid|]. subst x.
        destruct (decide (getLastUpdated e = 0%Z)); [by left|right].
        destruct (Z.le_gt_cases (getLastUpdated e) (getLastUpdated cur)); [done|].
        assert (isMoreRecent e cur = true) by (apply isMoreRecent_true; split_and!; [done..|lia]).
        congruence.
      * split; [done|]. exists l1, l2. split; [|done].
        rewrite <- Heq. by rewrite <- app_assoc.
Qed.

(** C1 (amended).  For every feed and every resource ID that occurs in it,
    exactly one entry with that ID survives deduplication, in whatever order
    the map is listed.  When the first entry of the ID carries no lastUpdated
    timestamp, as any DELETE does, that first entry survives.  When it
    carries one, the survivor is the first entry of the ID that has the
    greatest lastUpdated among the timestamped ones.  A survivor without a
    resource body is therefore the first entry of its ID. *)
Theorem dedup_keeps_first_or_latest (entries : list BundleEntry) (id : string)
    (e0 : BundleEntry) (rest out : list BundleEntry) :
  id ≠ "" →
  bucket id entries = e0 :: rest →
  out ≡ₚ deduplicateHistoryEntries entries →
  ∃ w, filter (λ e, entryResourceID e = id) out = [w] ∧
       (getLastUpdated e0 = 0%Z → w = e0) ∧
       (getLastUpdated e0 ≠ 0%Z →
          getLastUpdated w ≠ 0%Z ∧
          ∃ l1 l2, e0 :: rest = l1 ++ w :: l2 ∧
            (∀ e, e ∈ l1 → getLastUpdated e = 0%Z ∨ (getLastUpdated e < getLastUpdated w)%Z) ∧
            (∀ e, e ∈ l2 → getLastUpdated e = 0%Z ∨ (getLastUpdated e ≤ getLastUpdated w)%Z)) ∧
       (Resource w = None → w = e0).
Proof.
  intros Hid Hb Hout. exists (keepLatest e0 rest).
  pose proof (dedupLoop_lookup entries id Hid) as Hlook. rewrite Hb in Hlook.
  destruct (dedupLoop_keys entries) as [Hkeys Hwithout].
  assert (filter (λ e, entryResourceID e = id) out = [keepLatest e0 rest]) as Hf.
  { apply Permutation_singleton_r. rewrite Hout. unfold deduplicateHistoryEntries.
    destruct (dedupLoop entries) as [m l]. simpl in *.
    rewrite filter_app.
    assert (filter (λ e, entryResourceID e = id) l = []) as ->.
    { clear -Hwithout Hid. induction Hwithout as [|x l Hx _ IH]; [done|].
      rewrite filter_cons, decide_False by congruence. done. }
    rewrite app_nil_r. apply filter_values_by_key; [|done].
    intros k v Hkv. by apply Hkeys. }
  assert (getLastUpdated e0 ≠ 0%Z →
          getLastUpdated (keepLatest e0 rest) ≠ 0%Z ∧
          ∃ l1 l2, e0 :: rest = l1 ++ keepLatest e0 rest :: l2 ∧
            (∀ e, e ∈ l1 → getLastUpdated e = 0%Z ∨
                            (getLastUpdated e < getLastUpdated (keepLatest e0 rest))%Z) ∧
            (∀ e, e ∈ l2 → getLastUpdated e = 0%Z ∨
                            (getLastUpdated e ≤ getLastUpdated (keepLatest e0 rest))%Z)) as Ht.
  { intros Ht. apply (keepLatest_timed rest [] e0 [] Ht); intros e He; by apply elem_of_nil in He. }
  split_and!; [done | apply keepLatest_untimed | done |].
  intros Hres. destruct (decide (getLastUpdated e0 = 0%Z)) as [Hz|Hnz].
  - by apply keepLatest_untimed.
  - destruct (Ht Hnz) as [Hw _]. unfold getLastUpdated in Hw at 1. by rewrite Hres in Hw.
Qed.

End DedupFacts.

(** The theorem at the feed [Feed.deletedOrganization]: the DELETE, which
    comes first, survives. *)
Lemma dedup_keeps_first_or_latest_witness :
  ∃ w, filter (λ e, entryResourceID (ext:=Example.externals) e = "1")
              (deduplicateHistoryEntries (ext:=Example.externals) Feed.deletedOrganization) = [w]
       ∧ w = Feed.delete "https://root.example/fhir/Organization/1" "Organization" "1".
Proof.
  destruct (dedup_keeps_first_or_latest (ext:=Example.externals) Feed.deletedOrganization "1"
              (Feed.delete "https://root.example/fhir/Organization/1" "Organization" "1")
              [Feed.put "Organization" "1"
                 (Feed.organization "1" [Feed.lastUpdatedAt "2025-08-01T10:00:00Z"])]
              (deduplicateHistoryEntries (ext:=Example.externals) Feed.deletedOrganization))
    as (w & Hw & Hfirst & _).
  - done.
  - reflexivity.
  - reflexivity.
  - exists w. split; [exact Hw | apply Hfirst; reflexivity].
Defined.

(** C1 as the specification words it does not hold: in
    [Feed.deletedOrganization] the DELETE survives although it is neither the
    only entry of its ID nor the last entry of the feed, and the update that
    carries a timestamp is dropped. *)
Lemma dedup_rule_as_specified_fails :
  ¬ dedup_rule_as_specified (ext:=Example.externals).
Proof.
  intros Hrule.
  destruct (Hrule Feed.deletedOrganization "1"
              (Feed.delete "https://root.example/fhir/Organization/1" "Organization" "1"))
    as [[Hdel _]|[_ [Hone|[Hlast _]]]].
  - done.
  - vm_compute. lia.
  - vm_compute. apply list_elem_of_here.
  - reflexivity.
  - vm_compute in Hdel. discriminate.
  - vm_compute in Hone. discriminate.
  - vm_compute in Hlast. discriminate.
Qed.

(** ** Organization tree *)

Section OrgTreeFacts.
Context {ext : Externals}.

Lemma buildOrgMap_keyed entries : keyedById (buildOrgMap entries).
Proof.
  unfold buildOrgMap.
  assert (∀ m, keyedById m → keyedById (fold_left (λ orgMap entry,
    match Resource entry with
    | None => orgMap
    | Some r =>
        match Unmarshal_Organization r with
        | None => orgMap
        | Some org =>
            match OrgId org with
            | Some id => <[id := org]> orgMap
            | None => orgMap
            end
        end
    end) entries m)) as Hgen.
  { induction entries as [|e entries IH]; intros m Hm; [done|].
    cbn [fold_left]. apply IH.
    destruct (Resource e) as [r|]; [|done].
    destruct (Unmarshal_Organization r) as [org|]; [|done].
    destruct (OrgId org) as [id|] eqn:Hid; [|done].
    intros k o. rewrite lookup_insert. case_decide; [|by apply Hm].
    intros [= <-]. by subst. }
  apply Hgen. intros k org. by rewrite lookup_empty.
Qed.



Lemma elem_of_linked orgMap parentOrg org :
  org ∈ findOrganizationsLinkedToParent orgMap parentOrg ↔
  (∃ k, orgMap !! k = Some org) ∧ sameOrgId org parentOrg = false ∧
  organizationLinksToParent orgMap org parentOrg = true.
Proof.
  unfold findOrganizationsLinkedToParent. rewrite list_elem_of_filter.
  rewrite list_elem_of_fmap. split.
  - intros [Hp [[k o] [-> Hin%elem_of_map_to_list]]]. simpl in *.
    apply andb_true_iff in Hp as [Hs Hl]. apply negb_true_iff in Hs. eauto.
  - intros ([k Hk] & Hs & Hl). split.
    + by rewrite Hs, Hl.
    + exists (k, org). split; [done|]. by apply elem_of_map_to_list.
Qed.

Lemma createOrganizationTree_lookup entries k root linked :
  createOrganizationTree entries !! k = Some (root, linked) ↔
  buildOrgMap entries !! k = Some root ∧ hasURA root = true ∧
  linked = findOrganizationsLinkedToParent (buildOrgMap entries) root.
Proof.
  unfold createOrganizationTree. rewrite lookup_omap.
  destruct (buildOrgMap entries !! k) as [org|]; simpl.
  - destruct (hasURA org) eqn:Hura; split.
    + intros [= <- <-]. done.
    + intros ([= ->] & _ & ->). done.
    + done.
    + intros ([= ->] & ? & _). congruence.
  - split; [done|]. by intros [? _].
Qed.


End OrgTreeFacts.




(** ** Transaction builder *)

Lemma obj_get_delete_eq k m : obj_get k (obj_delete k m) = None.
Proof.
  induction m as [|[k' v] m IH]; [done|]. simpl.
  destruct (String.eqb k k') eqn:Hk; [done|]. simpl. by rewrite Hk.
Qed.

Lemma obj_get_delete_ne k k' m : k ≠ k' → obj_get k (obj_delete k' m) = obj_get k m.
Proof.
  intros Hne. induction m as [|[k'' v] m IH]; [done|]. simpl.
  destruct (String.eqb_spec k' k'') as [<-|Hk'].
  - rewrite IH. by destruct (String.eqb_spec k k').
  - simpl. by rewrite IH.
Qed.

Lemma obj_get_set_eq k v m : obj_get k (obj_set k v m) = Some v.
Proof. unfold obj_set. simpl. by rewrite String.eqb_refl. Qed.

Lemma obj_get_set_ne k k' v m : k ≠ k' → obj_get k (obj_set k' v m) = obj_get k m.
Proof.
  intros Hne. unfold obj_set. simpl.
  destruct (String.eqb_spec k k'); [done|]. by apply obj_get_delete_ne.
Qed.

Section UpdaterFacts.
Context {ext : Externals}.

Lemma traverse_bindings_get base v v' k :
  traverse (convertBinding base) v = Ok v' →
  match obj_get k v with
  | None => obj_get k v' = None
  | Some x => ∃ x', convertReferencesRecursive x base = Ok x' ∧ obj_get k v' = Some x'
  end.
Proof.
  revert v'. induction v as [|[k0 x0] v IH]; intros v' Ht.
  - simpl in Ht. injection Ht as <-. done.
  - simpl in Ht. unfold convertBinding at 1 in Ht. simpl in Ht.
    destruct (convertReferencesRecursive x0 base) as [x0'|] eqn:Hx0; [|done].
    destruct (traverse (convertBinding base) v) as [rest|] eqn:Hrest; [|done].
    injection Ht as <-. simpl.
    destruct (String.eqb k k0); [eauto|]. by apply IH.
Qed.

Lemma convert_object base v j :
  convertReferencesRecursive (JObject v) base = Ok j →
  ∃ v', j = JObject v' ∧
    ∀ k, k ≠ "reference" →
      match obj_get k v with
      | None => obj_get k v' = None
      | Some x => ∃ x', convertReferencesRecursive x base = Ok x' ∧ obj_get k v' = Some x'
      end.
Proof.
  simpl. destruct (rewriteReference v base) as [newRef|]; [|done].
  fold (convertBinding base).
  destruct (traverse (convertBinding base) v) as [v'|] eqn:Ht; [|done].
  intros [= <-]. eexists. split; [done|]. intros k Hk.
  pose proof (traverse_bindings_get base v v' k Ht) as Hget.
  destruct newRef as [r|]; [|done].
  by rewrite obj_get_set_ne.
Qed.


(** C2.  For every PUT or POST entry that [buildUpdateTransaction] accepts
    into the transaction, for any source base URL: the entry had a resource
    with a resource type and an original id, the emitted resource carries
    [meta.source = BuildSourceURL(sourceBase, resourceType, originalId)], and
    the emitted resource has no [id] field. *)
Theorem accepted_entry_source_and_id (tx tx' : Bundle) (entry : BundleEntry)
    (rules : ValidationRules) (tree : parentOrganizationMap)
    (services : list BundleEntry) (discoverable : bool) (sourceBase resourceType : string)
    (request : BundleEntryRequest) :
  Request entry = Some request →
  isDELETE (Method request) = false →
  buildUpdateTransaction tx entry rules tree services discoverable sourceBase
    = (tx', Ok resourceType) →
  tx' ≠ tx →
  ∃ raw resource originalId sourceURL body,
    Resource entry = Some raw ∧
    Unmarshal_map raw = Ok resource ∧
    obj_get_string "resourceType" resource = Some resourceType ∧
    obj_get_string "id" resource = Some originalId ∧
    BuildSourceURL sourceBase [resourceType; originalId] = Some sourceURL ∧
    tx' = appendEntry tx (putEntry resourceType sourceURL (JObject body)) ∧
    (obj_get_map "meta" body ≫= obj_get "source") = Some (JString sourceURL) ∧
    obj_get "id" body = None.
Proof.
  intros Hrq Hput Hbuild Hne. unfold buildUpdateTransaction in Hbuild.
  destruct (FullUrl entry) as [fullUrl|]; [|by injection Hbuild as <-].
  rewrite Hrq, Hput in Hbuild.
  destruct (Resource entry) as [raw|]; [|by injection Hbuild as <-].
  destruct (Unmarshal_map raw) as [resource|] eqn:Hmap; [|by injection Hbuild as <-].
  destruct (obj_get_string "resourceType" resource) as [rt|] eqn:Hrt;
    [|by injection Hbuild as <-].
  destruct (ValidateUpdate rules raw tree services); [by injection Hbuild as <-|].
  match type of Hbuild with
  | context [obj_get_string "id" ?r] => set (resource1 := r) in Hbuild
  end.
  assert (obj_get "id" resource1 = obj_get "id" resource) as Hid1.
  { unfold resource1. destruct (_ && _); [|done]. by apply obj_get_delete_ne. }
  clearbody resource1.
  assert (∀ (d : Result bool) (k : Bundle * Result string),
            match d with Ok true => k | Ok false => (tx, Ok rt) | Err e => (tx, Err e) end
            = (tx', Ok resourceType) → k = (tx', Ok resourceType)) as Hsync.
  { intros [[|]|] k Hk; [done|by injection Hk as <-|by injection Hk as <-]. }
  apply Hsync in Hbuild. clear Hsync.
  destruct (obj_get_string "id" resource1) as [originalId|] eqn:Hid;
    [|by injection Hbuild as <-].
  destruct (BuildSourceURL sourceBase [rt; originalId]) as [sourceURL|] eqn:Hsrc;
    [|by injection Hbuild as <-].
  destruct (convertReferencesRecursive _ sourceBase) as [body|] eqn:Hconv;
    [|by injection Hbuild as <-].
  injection Hbuild as <- <-.
  apply convert_object in Hconv as (body' & -> & Hkeys).
  exists raw, resource, originalId, sourceURL, body'.
  split_and!; try done.
  - unfold obj_get_string in *. by rewrite <- Hid1.
  - specialize (Hkeys "meta" ltac:(done)).
    rewrite obj_get_delete_ne in Hkeys by done.
    unfold updateResourceMeta in Hkeys. rewrite obj_get_set_eq in Hkeys.
    destruct Hkeys as (meta' & Hmeta & Hget).
    apply convert_object in Hmeta as (meta'' & -> & Hmkeys).
    unfold obj_get_map. rewrite Hget. simpl.
    specialize (Hmkeys "source" ltac:(done)).
    rewrite !obj_get_delete_ne, obj_get_set_eq in Hmkeys by done.
    destruct Hmkeys as (s' & Hs & ->). simpl in Hs. by injection Hs as <-.
  - specialize (Hkeys "id" ltac:(done)). by rewrite obj_get_delete_eq in Hkeys.
Qed.






End UpdaterFacts.

(** The theorem at [Feed.endpointCreated], pulled from the root directory:
    the emitted body names its source and has lost its id. *)
Lemma accepted_entry_source_and_id_witness :
  ∃ body,
    (buildUpdateTransaction (ext:=Example.externals) Feed.emptyTransaction
       Feed.endpointCreated Feed.rootRules ∅ [] true Feed.rootBase).1
    = appendEntry Feed.emptyTransaction
        (putEntry (ext:=Example.externals) "Endpoint"
                  "https://root.example/fhir/Endpoint/e1" (JObject body))
    ∧ (obj_get_map "meta" body ≫= obj_get "source")
      = Some (JString "https://root.example/fhir/Endpoint/e1")
    ∧ obj_get "id" body = None.
Proof.
  destruct (accepted_entry_source_and_id (ext:=Example.externals) Feed.emptyTransaction
              (buildUpdateTransaction (ext:=Example.externals) Feed.emptyTransaction
                 Feed.endpointCreated Feed.rootRules ∅ [] true Feed.rootBase).1
              Feed.endpointCreated Feed.rootRules ∅ [] true Feed.rootBase "Endpoint"
              {| Method := HTTPVerbPUT; Url := "Endpoint/e1" |})
    as (raw & resource & originalId & sourceURL & body
        & Hraw & Hmap & _ & Hid & Hsrc & Htx & Hmeta & Hnoid).
  - reflexivity.
  - reflexivity.
  - vm_compute. reflexivity.
  - vm_compute. discriminate.
  - injection Hraw as <-. vm_compute in Hmap. injection Hmap as <-.
    vm_compute in Hid. injection Hid as <-.
    vm_compute in Hsrc. injection Hsrc as <-.
    exists body. split_and!; [exact Htx | exact Hmeta | exact Hnoid].
Defined.



(** ** Directory registry *)

Lemma TrimRight_app_slash s : strings.TrimRight (s +:+ "/") "/" = strings.TrimRight s "/".
Proof.
  induction s as [|a s IH]; [done|].
  change (String a s +:+ "/") with (String a (s +:+ "/")).
  cbn [strings.TrimRight]. by rewrite IH.
Qed.

Lemma TrimRight_equalUpToOneSlash a b :
  equalUpToOneSlash a b → strings.TrimRight a "/" = strings.TrimRight b "/".
Proof.
  intros [->|[->| ->]]; [done | apply TrimRight_app_slash |].
  symmetry. apply TrimRight_app_slash.
Qed.

Section RegistryFacts.
Context {ext : Externals}.

Lemma isExcluded_true c fhirBaseURL excluded :
  excluded ∈ ExcludeAdminDirectories (config c) →
  equalUpToOneSlash fhirBaseURL excluded →
  isExcluded c fhirBaseURL = true.
Proof.
  intros Hin Heq. unfold isExcluded. apply existsb_exists.
  exists excluded. split; [by apply list_elem_of_In|].
  apply String.eqb_eq. symmetry. by apply TrimRight_equalUpToOneSlash.
Qed.

(** C8 (amended).  For every configured exclusion entry and every attempt to
    register a base URL that equals it after ignoring one trailing slash: the
    registry is left as it was, and the attempt returns no error exactly when
    the URL is a valid absolute http or https URL; for an invalid URL the
    invalid-URL error is returned. *)
Theorem excluded_directory_never_registered (c : Component) (fhirBaseURL : string)
    (resourceTypes : list string) (discover : bool)
    (sourceURL authoritativeUra excluded : string) :
  excluded ∈ ExcludeAdminDirectories (config c) →
  equalUpToOneSlash fhirBaseURL excluded →
  (registerAdministrationDirectory c fhirBaseURL resourceTypes discover sourceURL
     authoritativeUra).1 = c
  ∧ ((registerAdministrationDirectory c fhirBaseURL resourceTypes discover sourceURL
        authoritativeUra).2 = None
     ↔ validFHIRBaseURL fhirBaseURL = Ok tt).
Proof.
  intros Hin Heq. unfold registerAdministrationDirectory.
  rewrite (isExcluded_true c fhirBaseURL excluded Hin Heq).
  destruct (validFHIRBaseURL fhirBaseURL) as [[]|e]; simpl; split; try done.
Qed.

End RegistryFacts.

(** The theorem at an exclusion list entry without trailing slash and an
    attempt with one, as in the test of the component. *)
Lemma excluded_directory_never_registered_witness :
  registerAdministrationDirectory (ext:=Example.externals)
    (Feed.componentWith (Feed.configWith ["http://example.com/fhir"] false) [] ∅)
    "http://example.com/fhir/" ["Organization"] false "" ""
  = (Feed.componentWith (Feed.configWith ["http://example.com/fhir"] false) [] ∅, None).
Proof.
  destruct (excluded_directory_never_registered (ext:=Example.externals)
              (Feed.componentWith (Feed.configWith ["http://example.com/fhir"] false) [] ∅)
              "http://example.com/fhir/" ["Organization"] false "" ""
              "http://example.com/fhir") as [Hc Herr].
  - apply list_elem_of_here.
  - right. left. reflexivity.
  - destruct (registerAdministrationDirectory _ _ _ _ _ _) as [c' err].
    simpl in Hc, Herr. subst c'. f_equal. apply Herr. reflexivity.
Defined.

(** C8 as the specification words it does not hold: the attempt to register
    an excluded URL that is not a valid absolute URL returns an error (the
    case of the test "invalid URL returns error even if in exclusion list"). *)
Lemma exclusion_as_specified_fails :
  ¬ exclusion_as_specified (ext:=Example.externals).
Proof.
  intros Hclaim.
  pose proof (Hclaim (Feed.componentWith (Feed.configWith ["not-a-valid-url"] false) [] ∅)
                "not-a-valid-url" ["Organization"] false "" "" "not-a-valid-url"
                (list_elem_of_here _ _) (or_introl eq_refl)) as Habs.
  vm_compute in Habs. discriminate.
Qed.

(** ** Paginated search *)

Section QueryFacts.
Context {rem : Remote}.

Lemma Paginate_within_limit pages : ∀ acc,
  allPagesFetched pages = true →
  length (acc ++ pageEntries pages) < maxUpdateEntries →
  Paginate pages collectPage acc = (acc ++ pageEntries pages, None).
Proof.
  induction pages as [b|b rest IH|b err]; intros acc Hall Hlen; simpl in *.
  - unfold collectPage. by rewrite bool_decide_eq_false_2 by lia.
  - unfold collectPage. rewrite app_assoc in Hlen.
    rewrite bool_decide_eq_false_2 by (rewrite length_app in Hlen; lia).
    rewrite IH by done. by rewrite app_assoc.
  - done.
Qed.

Lemma Paginate_at_limit pages : ∀ acc,
  maxUpdateEntries ≤ length (acc ++ pageEntries pages) →
  ∃ entries msg, Paginate pages collectPage acc = (entries, Some msg).
Proof.
  induction pages as [b|b rest IH|b err]; intros acc Hlen; simpl in *.
  - unfold collectPage. rewrite bool_decide_eq_true_2 by done. eauto.
  - unfold collectPage. case_bool_decide; [eauto|].
    apply IH. by rewrite <- app_assoc.
  - unfold collectPage. rewrite bool_decide_eq_true_2 by done. eauto.
Qed.

(** Below the limit, a search whose pages can all be fetched returns the
    entries of all pages, and the first page as the search set. *)
Lemma queryFHIR_within_limit (w w' : World) (client resourceType : string)
    (searchParams : gmap string string) (includeHistory : bool) (pages : Pages) :
  SearchWithContext w client
    (if includeHistory then resourceType +:+ "/_history" else resourceType) searchParams
    = (w', Ok pages) →
  allPagesFetched pages = true →
  length (pageEntries pages) < maxUpdateEntries →
  queryFHIR w client resourceType searchParams includeHistory
    = (w', Ok (pageEntries pages, firstPage pages)).
Proof.
  intros Hsearch Hall Hlen. unfold queryFHIR.
  destruct includeHistory; rewrite Hsearch;
    by rewrite (Paginate_within_limit pages []).
Qed.

(** C9, the code at the limit.  A search whose pages hold [maxUpdateEntries]
    entries in total, or more, fails with an error. *)
Theorem queryFHIR_fails_at_limit (w w' : World) (client resourceType : string)
    (searchParams : gmap string string) (includeHistory : bool) (pages : Pages) :
  SearchWithContext w client
    (if includeHistory then resourceType +:+ "/_history" else resourceType) searchParams
    = (w', Ok pages) →
  maxUpdateEntries ≤ length (pageEntries pages) →
  ∃ msg, queryFHIR w client resourceType searchParams includeHistory = (w', Err msg).
Proof.
  intros Hsearch Hlen. unfold queryFHIR.
  destruct (Paginate_at_limit pages [] Hlen) as (entries & msg & Hp).
  destruct includeHistory; rewrite Hsearch, Hp; eauto.
Qed.

End QueryFacts.

(** The theorem at a search that returns one page of exactly 1000 entries. *)
Lemma queryFHIR_fails_at_limit_witness :
  length (pageEntries Feed.thousandEntries) = 1000 ∧
  ∃ msg, queryFHIR (rem:=Example.remote (Feed.oneSearch Feed.thousandEntries))
           tt Feed.rootBase "Organization" countParams false
         = (tt, Err msg).
Proof.
  split; [reflexivity|].
  apply (queryFHIR_fails_at_limit (rem:=Example.remote (Feed.oneSearch Feed.thousandEntries))
           tt tt Feed.rootBase "Organization" countParams false Feed.thousandEntries).
  - reflexivity.
  - vm_compute. reflexivity.
Defined.

(** ** What a sync does to the registry and the cursor *)

Section RegistryEffects.
Context {ext : Externals}.

Lemma unregister_fields c fullUrl :
  config (unregisterAdministrationDirectory c fullUrl) = config c ∧
  directoryResourceTypes (unregisterAdministrationDirectory c fullUrl) = directoryResourceTypes c ∧
  lastUpdateTimes (unregisterAdministrationDirectory c fullUrl) = lastUpdateTimes c.
Proof. done. Qed.

Lemma filter_filter_dirs (P Q : administrationDirectory → bool)
    (l : list administrationDirectory) :
  filter (λ d, P d = false) (filter (λ d, Q d = false) l)
  = filter (λ d, Q d || P d = false) l.
Proof.
  rewrite list_filter_filter. apply list_filter_iff. intros d.
  destruct (P d), (Q d); simpl; split; (try done); by intros [? ?].
Qed.

Lemma processEndpointDeletes_effect entries : ∀ c,
  config (processEndpointDeletes c entries) = config c ∧
  directoryResourceTypes (processEndpointDeletes c entries) = directoryResourceTypes c ∧
  lastUpdateTimes (processEndpointDeletes c entries) = lastUpdateTimes c ∧
  administrationDirectories (processEndpointDeletes c entries)
  = filter (λ d, unregisteredBy entries d = false) (administrationDirectories c).
Proof.
  unfold processEndpointDeletes.
  induction entries as [|e entries IH]; intros c.
  - simpl. split_and!; try done.
    induction (administrationDirectories c) as [|d l IHl]; [done|].
    rewrite filter_cons, decide_True by done. by rewrite <- IHl.
  - cbn [fold_left]. destruct (IH (match endpointDeleteFullUrl e with
                                   | Some fullUrl => unregisterAdministrationDirectory c fullUrl
                                   | None => c
                                   end)) as (Hc & Hr & Hl & Hd).
    rewrite Hc, Hr, Hl, Hd. clear IH Hc Hr Hl Hd.
    destruct (endpointDeleteFullUrl e) as [fullUrl|] eqn:He; simpl.
    + split_and!; try done. rewrite filter_filter_dirs.
      unfold unregisteredBy. simpl. by rewrite He.
    + split_and!; try done. unfold unregisteredBy. simpl. by rewrite He.
Qed.

Lemma register_effect c url types disc src ura c' err :
  registerAdministrationDirectory c url types disc src ura = (c', err) →
  config c' = config c ∧ directoryResourceTypes c' = directoryResourceTypes c ∧
  lastUpdateTimes c' = lastUpdateTimes c ∧
  ∃ added, administrationDirectories c' = administrationDirectories c ++ added ∧
           Forall (λ d, Dir.discover d = disc ∧ Dir.sourceURL d = src) added.
Proof.
  unfold registerAdministrationDirectory. intros Hreg.
  destruct (validFHIRBaseURL url).
  2:{ injection Hreg as <- <-. split_and!; try done. exists []. by rewrite app_nil_r. }
  destruct (isExcluded c url).
  { injection Hreg as <- <-. split_and!; try done. exists []. by rewrite app_nil_r. }
  destruct (existsb _ _).
  { injection Hreg as <- <-. split_and!; try done. exists []. by rewrite app_nil_r. }
  injection Hreg as <- <-. split_and!; try done. eexists. split; [done|].
  by repeat constructor.
Qed.

Lemma sameSettings_refl c : sameSettings c c.
Proof. split_and!; try done. exists []. by rewrite app_nil_r. Qed.

Lemma sameSettings_trans c1 c2 c3 :
  sameSettings c1 c2 → sameSettings c2 c3 → sameSettings c1 c3.
Proof.
  intros (Hc & Hr & Hl & a1 & Hd & Ha1) (Hc' & Hr' & Hl' & a2 & Hd' & Ha2).
  split_and!; try congruence. exists (a1 ++ a2).
  rewrite Hd', Hd, app_assoc. split; [done|]. by apply Forall_app.
Qed.

Lemma registerDiscovered_effect ura st kv :
  sameSettings st.1 (registerDiscovered ura st kv).1.
Proof.
  destruct st as [c report], kv as [fullUrl endpoint]. simpl.
  destruct (CodablesIncludesCode _ _); [|apply sameSettings_refl].
  destruct (registerAdministrationDirectory _ _ _ _ _ _) as [c' [err|]] eqn:Hreg;
    apply register_effect in Hreg as (Hc & Hr & Hl & added & Hd & Ha); simpl;
    (split_and!; try done; exists added; split; [done|];
     eapply Forall_impl; [exact Ha|]; by intros d [? _]).
Qed.

Lemma fold_sameSettings {A} (f : Component * DirectoryUpdateReport → A →
                                   Component * DirectoryUpdateReport) (l : list A) :
  (∀ st x, sameSettings st.1 (f st x).1) →
  ∀ st, sameSettings st.1 (fold_left f l st).1.
Proof.
  intros Hf. induction l as [|x l IH]; intros st; [apply sameSettings_refl|].
  cbn [fold_left]. eapply sameSettings_trans; [apply Hf | apply IH].
Qed.

Lemma discover_effect c entries tree report :
  sameSettings c (discoverAndRegisterEndpoints c entries tree report).1.
Proof.
  unfold discoverAndRegisterEndpoints.
  apply (fold_sameSettings _ _) with (st := (c, report)).
  intros st kv.
  destruct (FilterIdentifiersBySystem _ _) as [|[sys [v|]] ids]; try apply sameSettings_refl.
  destruct (OrgEndpoint _); [apply sameSettings_refl|].
  apply fold_sameSettings. intros st' kv'. apply registerDiscovered_effect.
Qed.

End RegistryEffects.

Section SyncEffects.
Context {ext : Externals} {rem : Remote}.

Lemma applyEntries_effect c w base types disc ura key t0 entries fb c' w' rep err :
  applyEntries c w base types disc ura key t0 entries fb = (c', w', rep, err) →
  syncEffect c c' disc entries (lastUpdateTimes c)
  ∨ (err = None ∧ ∃ ts, syncEffect c c' disc entries (<[key := ts]> (lastUpdateTimes c))).
Proof.
  unfold applyEntries. intros Happly.
  set (c1 := if disc then processEndpointDeletes c (deduplicateHistoryEntries entries) else c)
    in Happly.
  assert (syncEffect c c1 disc entries (lastUpdateTimes c)) as Hc1.
  { unfold c1. destruct disc.
    - destruct (processEndpointDeletes_effect (deduplicateHistoryEntries entries) c)
        as (Hc & Hr & Hl & Hd).
      split_and!; try done. exists []. rewrite app_nil_r. split_and!; try done.
    - split_and!; try done. exists []. rewrite app_nil_r. split_and!; try done. }
  clearbody c1.
  assert (∀ c2, sameSettings c1 c2 → (disc = false → c2 = c1) →
                syncEffect c c2 disc entries (lastUpdateTimes c)) as Hstep.
  { intros c2 (Hc & Hr & Hl & added & Hd & Ha) Hsame.
    destruct Hc1 as (Hc1 & Hr1 & Hl1 & added1 & Hd1 & Ha1 & Hn1).
    split_and!; try congruence. exists (added1 ++ added).
    rewrite Hd, Hd1, app_assoc. split_and!; [done | by apply Forall_app |].
    intros Hdisc. rewrite (Hn1 Hdisc). simpl.
    specialize (Hsame Hdisc). subst c2.
    apply (f_equal length) in Hd. rewrite length_app in Hd.
    destruct added; [done|]. simpl in Hd. lia. }
  destruct (ensureParentOrganizationsMap w base ura) as [w1 [tree|e]].
  2:{ injection Happly as <- <- <- <-. left. apply Hstep; [apply sameSettings_refl|done]. }
  destruct (ValidateParentOrganizations tree).
  { injection Happly as <- <- <- <-. left. apply Hstep; [apply sameSettings_refl|done]. }
  destruct (fold_left _ _ _) as [[tx report] n].
  set (st := if disc then discoverAndRegisterEndpoints c1 entries tree report else (c1, report))
    in Happly.
  assert (sameSettings c1 st.1 ∧ (disc = false → st.1 = c1)) as [Hst Hst'].
  { unfold st. destruct disc; [|split; [apply sameSettings_refl|done]].
    split; [apply discover_effect|done]. }
  destruct st as [c2 report2]. simpl in Hst, Hst'.
  destruct (Entry tx).
  { injection Happly as <- <- <- <-. left. by apply Hstep. }
  destruct (CreateWithContext w1 _ tx) as [w2 [txResult|e]].
  2:{ injection Happly as <- <- <- <-. left. by apply Hstep. }
  destruct (fold_left resultStep _ _) as [report3 n3].
  injection Happly as <- <- <- <-. right. split; [done|].
  eexists. specialize (Hstep c2 Hst Hst').
  destruct Hstep as (Hc & Hr & Hl & Hd).
  split_and!; try done. simpl. by rewrite Hl.
Qed.

Lemma Paginate_success pages : ∀ acc entries,
  Paginate pages collectPage acc = (entries, None) → entries = acc ++ pageEntries pages.
Proof.
  induction pages as [b|b rest IH|b e]; intros acc entries; simpl; unfold collectPage;
    case_bool_decide; try done.
  - by intros [= <-].
  - intros Hp. apply IH in Hp. by rewrite <- app_assoc in Hp.
Qed.

Lemma queryFHIR_success w client resourceType searchParams includeHistory w' entries first :
  queryFHIR w client resourceType searchParams includeHistory = (w', Ok (entries, first)) →
  ∃ path pages, SearchWithContext w client path searchParams = (w', Ok pages) ∧
                entries = pageEntries pages ∧ first = firstPage pages.
Proof.
  unfold queryFHIR. intros Hq.
  destruct includeHistory;
    (destruct (SearchWithContext w client _ searchParams) as [w1 [pages|e]] eqn:Hs;
     [|done];
     destruct (Paginate pages collectPage []) as [es [e|]] eqn:Hp; [done|];
     injection Hq as <- <- <-; apply Paginate_success in Hp;
     eexists _, pages; split_and!; done).
Qed.

Section EntriesOfSearches.
Variable P : BundleEntry → Prop.
Hypothesis searches_P :
  ∀ (w : World) (client path : string) (searchParams : gmap string string)
    (w' : World) (pages : Pages),
    SearchWithContext w client path searchParams = (w', Ok pages) →
    Forall P (pageEntries pages).
Hypothesis snapshot_P : ∀ resourceType e, P e → P (addSnapshotRequest resourceType e).

Lemma historyLoop_entries c client searchParams types : ∀ w i acc first w' entries first',
  historyLoop c w client types searchParams i acc first = (w', HistoryDone entries first') →
  Forall P acc → Forall P entries.
Proof.
  induction types as [|rt types IH]; intros w i acc first w' entries first' Hloop Hacc.
  - simpl in Hloop. by injection Hloop as <- <- <-.
  - simpl in Hloop. unfold queryHistory in Hloop.
    destruct (queryFHIR w client rt searchParams true) as [w1 [[es fb]|e]] eqn:Hq.
    + apply queryFHIR_success in Hq as (path & pages & Hs & -> & _).
      eapply IH; [exact Hloop|]. apply Forall_app. split; [done|]. by eapply searches_P.
    + destruct (is410GoneError e); [destruct (negb _)|]; done.
Qed.

Lemma historyLoop_gone c client searchParams types : ∀ w i acc first w' first',
  historyLoop c w client types searchParams i acc first = (w', HistoryGone first') →
  SnapshotModeSupport (config c) = true.
Proof.
  induction types as [|rt types IH]; intros w i acc first w' first' Hloop; [done|].
  simpl in Hloop.
  destruct (queryHistory w client rt searchParams) as [w1 [[es fb]|e]].
  - by eapply IH.
  - destruct (is410GoneError e); [|done].
    destruct (SnapshotModeSupport (config c)); done.
Qed.

Lemma snapshotLoop_entries client searchParams types : ∀ w i acc first w' entries first',
  snapshotLoop w client types searchParams i acc first = (w', Ok (entries, first')) →
  Forall P acc → Forall P entries.
Proof.
  induction types as [|rt types IH]; intros w i acc first w' entries first' Hloop Hacc.
  - simpl in Hloop. by injection Hloop as <- <- <-.
  - simpl in Hloop. unfold query in Hloop.
    destruct (queryFHIR w client rt searchParams false) as [w1 [[es fb]|e]] eqn:Hq; [|done].
    apply queryFHIR_success in Hq as (path & pages & Hs & -> & _).
    eapply IH; [exact Hloop|]. apply Forall_app. split; [done|].
    apply Forall_fmap. eapply Forall_impl; [by eapply searches_P|].
    intros e He. by apply snapshot_P.
Qed.

Lemma syncEffect_refl c disc : syncEffect c c disc [] (lastUpdateTimes c).
Proof.
  split_and!; try done. exists []. rewrite app_nil_r. split_and!; try done.
  destruct disc; [|done].
  assert (deduplicateHistoryEntries [] = []) as -> by done.
  induction (administrationDirectories c) as [|d l IH]; [done|].
  rewrite filter_cons, decide_True by done. by rewrite <- IH.
Qed.

Lemma syncEffect_cursor c c1 c' disc entries cursors :
  config c1 = config c → directoryResourceTypes c1 = directoryResourceTypes c →
  administrationDirectories c1 = administrationDirectories c →
  syncEffect c1 c' disc entries cursors → syncEffect c c' disc entries cursors.
Proof.
  intros Hc Hr Hd (Hc' & Hr' & Hl' & added & Hd' & Ha).
  split_and!; try congruence. exists added. by rewrite <- Hd.
Qed.

Lemma snapshotAndApply_effect c w base types disc ura key t0 params first c' w' rep err :
  SnapshotModeSupport (config c) = true →
  snapshotAndApply c w base types disc ura key t0 params first = (c', w', rep, err) →
  ∃ entries cursors, Forall P entries ∧ syncEffect c c' disc entries cursors ∧
                     cursorOutcome c key err cursors.
Proof.
  intros Hsnap. unfold snapshotAndApply. intros Hs.
  destruct (snapshotLoop w base types params 0 [] first) as [w1 [[entries fb]|e]] eqn:Hloop.
  - apply snapshotLoop_entries in Hloop; [|done].
    apply applyEntries_effect in Hs as [Heff|(-> & ts & Heff)].
    + exists entries, (delete key (lastUpdateTimes c)). split_and!; [done| |].
      * by eapply syncEffect_cursor; [..|exact Heff].
      * right. by left.
    + simpl in Heff. rewrite insert_delete_eq in Heff.
      exists entries, (<[key := ts]> (lastUpdateTimes c)). split_and!; [done| |].
      * by eapply syncEffect_cursor; [..|exact Heff].
      * right. right. eauto.
  - injection Hs as <- <- <- <-. exists [], (lastUpdateTimes c).
    split_and!; [done | apply syncEffect_refl | by left].
Qed.

Lemma updateFromDirectory_effect c w base types disc ura c' w' rep err :
  updateFromDirectory c w base types disc ura = (c', w', rep, err) →
  ∃ entries cursors, Forall P entries ∧ syncEffect c c' disc entries cursors ∧
                     cursorOutcome c (makeDirectoryKey base ura) err cursors.
Proof.
  unfold updateFromDirectory. intros Hu.
  assert (∃ entries cursors, Forall P entries ∧ syncEffect c c disc entries cursors ∧
            cursorOutcome c (makeDirectoryKey base ura) err cursors) as Hnone.
  { exists [], (lastUpdateTimes c). split_and!; [done | apply syncEffect_refl | by left]. }
  destruct (url_Parse base); [|by injection Hu as <- <- <- <-].
  destruct (url_Parse (FHIRBaseURL (QueryDirectory (config c))));
    [|by injection Hu as <- <- <- <-].
  clear Hnone.
  destruct (lastUpdateTimes c !! makeDirectoryKey base ura) as [lastUpdate|] eqn:Hcur.
  - destruct (historyLoop c w base types _ 0 [] emptyBundle)
      as [w1 [entries fb|fb|e]] eqn:Hloop.
    + apply historyLoop_entries in Hloop; [|done].
      apply applyEntries_effect in Hu as [Heff|(-> & ts & Heff)].
      * exists entries, (lastUpdateTimes c). split_and!; [done..|by left].
      * exists entries, (<[makeDirectoryKey base ura := ts]> (lastUpdateTimes c)).
        split_and!; [done..|]. right. right. eauto.
    + apply historyLoop_gone in Hloop. by eapply snapshotAndApply_effect.
    + injection Hu as <- <- <- <-. exists [], (lastUpdateTimes c).
      split_and!; [done | apply syncEffect_refl | by left].
  - destruct (SnapshotModeSupport (config c)) eqn:Hsnap; simpl in Hu.
    + by eapply snapshotAndApply_effect.
    + destruct (historyLoop c w base types _ 0 [] emptyBundle)
        as [w1 [entries fb|fb|e]] eqn:Hloop.
      * apply historyLoop_entries in Hloop; [|done].
        apply applyEntries_effect in Hu as [Heff|(-> & ts & Heff)].
        -- exists entries, (lastUpdateTimes c). split_and!; [done..|by left].
        -- exists entries, (<[makeDirectoryKey base ura := ts]> (lastUpdateTimes c)).
           split_and!; [done..|]. right. right. eauto.
      * apply historyLoop_gone in Hloop. congruence.
      * injection Hu as <- <- <- <-. exists [], (lastUpdateTimes c).
        split_and!; [done | apply syncEffect_refl | by left].
Qed.

End EntriesOfSearches.

End SyncEffects.

Section DedupSubset.
Context {ext : Externals}.

Lemma dedupStep_subset (seen : list BundleEntry) m l e :
  (∀ k v, m !! k = Some v → v ∈ seen) → (∀ v, v ∈ l → v ∈ seen) →
  (∀ k v, (dedupStep (m, l) e).1 !! k = Some v → v ∈ seen ++ [e]) ∧
  (∀ v, v ∈ (dedupStep (m, l) e).2 → v ∈ seen ++ [e]).
Proof.
  intros Hm Hl. unfold dedupStep.
  assert (∀ k v, <[entryResourceID e:=e]> m !! k = Some v → v ∈ seen ++ [e]) as Hins.
  { intros k v. rewrite lookup_insert. case_decide.
    - intros [= <-]. apply elem_of_app. right. apply list_elem_of_here.
    - intros Hv. apply elem_of_app. left. by eapply Hm. }
  assert (∀ k v, m !! k = Some v → v ∈ seen ++ [e]) as Hm'.
  { intros k v Hv. apply elem_of_app. left. by eapply Hm. }
  assert (∀ v, v ∈ l → v ∈ seen ++ [e]) as Hl'.
  { intros v Hv. apply elem_of_app. left. by apply Hl. }
  destruct (negb _).
  - destruct (m !! entryResourceID e) as [cur|]; [destruct (isMoreRecent e cur)|]; done.
  - simpl. split; [done|]. intros v [Hv|Hv]%elem_of_app; [by apply Hl'|].
    apply elem_of_app. by right.
Qed.

Lemma dedup_subset entries e :
  e ∈ deduplicateHistoryEntries entries → e ∈ entries.
Proof.
  unfold deduplicateHistoryEntries, dedupLoop.
  assert (∀ seen m l,
    (∀ k v, m !! k = Some v → v ∈ seen) → (∀ v, v ∈ l → v ∈ seen) →
    (∀ k v, (fold_left dedupStep entries (m, l)).1 !! k = Some v → v ∈ seen ++ entries) ∧
    (∀ v, v ∈ (fold_left dedupStep entries (m, l)).2 → v ∈ seen ++ entries)) as Hgen.
  { induction entries as [|x entries IH]; intros seen m l Hm Hl.
    - simpl. rewrite app_nil_r. done.
    - cbn [fold_left]. destruct (dedupStep_subset seen m l x Hm Hl) as [Hm' Hl'].
      destruct (dedupStep (m, l) x) as [m' l'].
      destruct (IH (seen ++ [x]) m' l' Hm' Hl') as [H1 H2].
      rewrite <- app_assoc in H1, H2. done. }
  destruct (Hgen [] ∅ []) as [H1 H2].
  { intros k v. by rewrite lookup_empty. }
  { intros v Hv. by apply elem_of_nil in Hv. }
  destruct (fold_left dedupStep entries (∅, [])) as [m l]. simpl in *.
  intros [Hin|Hin]%elem_of_app; [|by apply H2].
  apply list_elem_of_fmap in Hin as [[k v] [-> Hkv%elem_of_map_to_list]].
  by eapply H1.
Qed.

End DedupSubset.

Section RunFacts.
Context {ext : Externals} {rem : Remote}.

Lemma addSnapshotRequest_delete resourceType e :
  endpointDeleteFullUrl e ≠ Some "" →
  endpointDeleteFullUrl (addSnapshotRequest resourceType e) ≠ Some "".
Proof.
  unfold addSnapshotRequest. destruct (Request e) eqn:Hr; [done|].
  intros _. unfold endpointDeleteFullUrl. simpl. by destruct (FullUrl e).
Qed.

Lemma unregisteredBy_empty_source entries d :
  Forall (λ e, endpointDeleteFullUrl e ≠ Some "") entries →
  Dir.sourceURL d = "" →
  unregisteredBy (deduplicateHistoryEntries entries) d = false.
Proof.
  intros Hall Hsrc. unfold unregisteredBy.
  apply not_true_is_false. intros (e & Hin & He)%existsb_exists.
  apply list_elem_of_In, dedup_subset in Hin.
  rewrite Forall_forall in Hall. specialize (Hall e Hin).
  destruct (endpointDeleteFullUrl e) as [u|]; [|done].
  apply String.eqb_eq in He. congruence.
Qed.

Lemma filter_keeps_all (P : administrationDirectory → Prop) `{∀ d, Decision (P d)}
    (l : list administrationDirectory) :
  Forall P l → filter P l = l.
Proof.
  induction 1 as [|d l Hd _ IH]; [done|].
  rewrite filter_cons, decide_True by done. by rewrite IH.
Qed.

(** One iteration of the loop of [update] keeps the shape of the registry
    and the directories up to the one processed. *)
Lemma step_keeps_prefix c w i d c' w' rep err :
  noEmptyFullUrlDelete →
  rootsFirst (administrationDirectories c) →
  administrationDirectories c !! i = Some d →
  updateFromDirectory c w (Dir.fhirBaseURL d) (Dir.resourceTypes d) (Dir.discover d)
    (Dir.authoritativeUra d) = (c', w', rep, err) →
  rootsFirst (administrationDirectories c') ∧
  take (S i) (administrationDirectories c') = take i (administrationDirectories c) ++ [d].
Proof.
  intros Hremote (roots & rest & Hl & Hroots & Hrest) Hi Hu.
  apply (updateFromDirectory_effect (λ e, endpointDeleteFullUrl e ≠ Some "")) in Hu
    as (entries & cursors & HP & (_ & _ & _ & added & Hd & Hadded & Hnone) & _).
  2:{ intros w0 client path params w1 pages Hs. apply Forall_forall.
      by eapply Hremote. }
  2:{ intros rt e. apply addSnapshotRequest_delete. }
  rewrite <- (take_S_r _ _ _ Hi).
  destruct (Dir.discover d) eqn:Hdisc.
  - assert (i < length roots) as Hlt.
    { destruct (decide (i < length roots)) as [|Hge]; [done|]. exfalso.
      rewrite Hl, lookup_app_r in Hi by lia.
      rewrite Forall_forall in Hrest.
      apply list_elem_of_lookup_2, Hrest in Hi. congruence. }
    rewrite Hl, filter_app in Hd.
    rewrite (filter_keeps_all _ roots) in Hd.
    2:{ eapply Forall_impl; [exact Hroots|]. intros x Hx.
        by apply unregisteredBy_empty_source. }
    split.
    + exists roots, (filter (λ d0, unregisteredBy (deduplicateHistoryEntries entries) d0 = false)
                       rest ++ added).
      split_and!; [by rewrite Hd, app_assoc | done |].
      apply Forall_app. split; [|done].
      apply Forall_forall. intros x [_ Hx]%list_elem_of_filter.
      rewrite Forall_forall in Hrest. by apply Hrest.
    + rewrite Hd, Hl, <- !app_assoc. by rewrite !take_app_le by lia.
  - rewrite (Hnone eq_refl), app_nil_r in Hd. rewrite Hd. split; [|done].
    by exists roots, rest.
Qed.

Lemma updateLoop_processed fuel : ∀ i c w result processed c' w' result' processed',
  noEmptyFullUrlDelete →
  rootsFirst (administrationDirectories c) →
  processed = take i (administrationDirectories c) →
  updateLoop fuel i c w result processed = Some (c', w', result', processed') →
  processed' = administrationDirectories c'.
Proof.
  induction fuel as [|fuel IH]; intros i c w result processed c' w' result' processed'
    Hremote Hshape Hproc Hloop; simpl in Hloop.
  - destruct (administrationDirectories c !! i) eqn:Hi; [done|].
    injection Hloop as <- <- <- <-. apply lookup_ge_None in Hi.
    by rewrite Hproc, take_ge.
  - destruct (administrationDirectories c !! i) as [d|] eqn:Hi.
    2:{ injection Hloop as <- <- <- <-. apply lookup_ge_None in Hi.
        by rewrite Hproc, take_ge. }
    destruct (updateFromDirectory c w _ _ _ _) as [[[c1 w1] rep] err] eqn:Hu.
    destruct (step_keeps_prefix c w i d c1 w1 rep err Hremote Hshape Hi Hu) as [Hshape' Htake].
    eapply IH; [done | exact Hshape' | | exact Hloop]. by rewrite Htake, Hproc.
Qed.

End RunFacts.

(** ** Termination of the run *)

Lemma sublist_drop_S {A} (l : list A) : ∀ n, drop (S n) l `sublist_of` drop n l.
Proof.
  induction l as [|x l IH]; intros n; [by destruct n|].
  destruct n; simpl; [|apply IH]. rewrite drop_0. by apply sublist_cons.
Qed.

Lemma drop_filter_sublist (P : administrationDirectory → Prop) `{∀ d, Decision (P d)}
    (l : list administrationDirectory) : ∀ n,
  drop n (filter P l) `sublist_of` drop n l.
Proof.
  induction l as [|d l IH]; intros n; [by destruct n|].
  rewrite filter_cons. destruct (decide (P d)).
  - destruct n; simpl; [|apply IH]. apply sublist_skip, sublist_filter.
  - destruct n; simpl.
    + apply sublist_cons, sublist_filter.
    + etrans; [apply sublist_drop_S | apply IH].
Qed.

Lemma discoverable_sublist l1 l2 :
  l1 `sublist_of` l2 → discoverable l1 ≤ discoverable l2.
Proof.
  unfold discoverable. induction 1 as [|x l1 l2 _ IH|x l1 l2 _ IH]; [done|..];
    rewrite !filter_cons; destruct (decide (Dir.discover x = true)); simpl; lia.
Qed.

Lemma discoverable_none l :
  Forall (λ d, Dir.discover d = false) l → discoverable l = 0.
Proof.
  unfold discoverable. induction 1 as [|d l Hd _ IH]; [done|].
  rewrite filter_cons, decide_False by congruence. done.
Qed.

Lemma discoverable_app l1 l2 : discoverable (l1 ++ l2) = discoverable l1 + discoverable l2.
Proof. unfold discoverable. by rewrite filter_app, length_app. Qed.

Section Totality.
Context {ext : Externals} {rem : Remote}.

Lemma step_measure c w i d c' w' rep err :
  administrationDirectories c !! i = Some d →
  updateFromDirectory c w (Dir.fhirBaseURL d) (Dir.resourceTypes d) (Dir.discover d)
    (Dir.authoritativeUra d) = (c', w', rep, err) →
  (Dir.discover d = false → administrationDirectories c' = administrationDirectories c) ∧
  (Dir.discover d = true →
     discoverable (drop (S i) (administrationDirectories c'))
     < discoverable (drop i (administrationDirectories c))).
Proof.
  intros Hi Hu.
  apply (updateFromDirectory_effect (λ _, True)) in Hu
    as (entries & cursors & _ & (_ & _ & _ & added & Hd & Hadded & Hnone) & _).
  2:{ intros. by apply Forall_true. }
  2:{ done. }
  split; intros Hdisc; rewrite Hdisc in Hd.
  - by rewrite (Hnone Hdisc), app_nil_r in Hd.
  - rewrite Hd, drop_app, discoverable_app.
    rewrite (discoverable_none (drop _ added)).
    2:{ by apply Forall_drop. }
    pose proof (discoverable_sublist _ _
                  (drop_filter_sublist
                     (λ d0, unregisteredBy (deduplicateHistoryEntries entries) d0 = false)
                     (administrationDirectories c) (S i))) as Hle.
    rewrite (drop_S _ _ _ Hi).
    change (d :: drop (S i) (administrationDirectories c))
      with ([d] ++ drop (S i) (administrationDirectories c)).
    rewrite (discoverable_app [d]).
    assert (discoverable [d] = 1) as ->.
    { unfold discoverable. by rewrite filter_cons, decide_True. }
    lia.
Qed.

Lemma updateLoop_total_gen n : ∀ m i c w result processed,
  discoverable (drop i (administrationDirectories c)) ≤ n →
  length (administrationDirectories c) - i ≤ m →
  ∃ fuel r, updateLoop fuel i c w result processed = Some r.
Proof.
  induction n as [n IHn] using lt_wf_ind.
  induction m as [|m IHm]; intros i c w result processed Hn Hm.
  - exists 0. simpl. rewrite (proj2 (lookup_ge_None _ _)) by lia. eauto.
  - destruct (administrationDirectories c !! i) as [d|] eqn:Hi.
    2:{ exists 0. simpl. rewrite Hi. eauto. }
    destruct (updateFromDirectory c w (Dir.fhirBaseURL d) (Dir.resourceTypes d)
                (Dir.discover d) (Dir.authoritativeUra d)) as [[[c1 w1] rep] err] eqn:Hu.
    destruct (step_measure c w i d c1 w1 rep err Hi Hu) as [Hsame Hless].
    destruct (Dir.discover d) eqn:Hdisc.
    + specialize (Hless eq_refl).
      destruct (IHn (discoverable (drop (S i) (administrationDirectories c1)))
                  ltac:(lia) (length (administrationDirectories c1) - S i) (S i) c1 w1
                  (<[makeDirectoryKey (Dir.fhirBaseURL d) (Dir.authoritativeUra d)
                     := finishReport rep err]> result)
                  (processed ++ [d]) ltac:(lia) ltac:(lia)) as (fuel & r & Hr).
      exists (S fuel), r. simpl. by rewrite Hi, Hdisc, Hu.
    + specialize (Hsame eq_refl).
      destruct (IHm (S i) c1 w1
                  (<[makeDirectoryKey (Dir.fhirBaseURL d) (Dir.authoritativeUra d)
                     := finishReport rep err]> result)
                  (processed ++ [d])) as (fuel & r & Hr).
      * rewrite Hsame. rewrite (drop_S _ _ _ Hi) in Hn. unfold discoverable in Hn.
        rewrite filter_cons, decide_False in Hn by congruence. done.
      * rewrite Hsame. lia.
      * exists (S fuel), r. simpl. by rewrite Hi, Hdisc, Hu.
Qed.

(** The loop of [update] terminates: some amount of fuel gives a result. *)
Lemma updateLoop_total i c w result processed :
  ∃ fuel r, updateLoop fuel i c w result processed = Some r.
Proof. by eapply updateLoop_total_gen. Qed.

End Totality.

(** ** The cursor and the 410 Gone answer *)

Section GoneFacts.
Context {ext : Externals} {rem : Remote}.




End GoneFacts.

(** ** The order of processing and the pre-scan *)

Section OrderFacts.
Context {ext : Externals} {rem : Remote}.

(** C7 (amended).  For a registry whose configured roots come first, as
    [New] and discovery build it, and remote servers that never return the
    DELETE of an Endpoint with an empty fullUrl: the run terminates, and the
    sources it has processed are exactly the directories of the registry at
    the end of the run, in registry order.  So every directory that discovery
    appends during the run and that is still registered when the loop
    reaches its position is processed in the same run, after all directories
    before it. *)
Theorem run_processes_registry_in_order (c : Component) (w : World) :
  noEmptyFullUrlDelete →
  rootsFirst (administrationDirectories c) →
  (∃ fuel r, update fuel c w = Some r)
  ∧ (∀ fuel c' w' result processed,
       update fuel c w = Some (c', w', result, processed) →
       processed = administrationDirectories c').
Proof.
  intros Hremote Hshape. split; [apply updateLoop_total|].
  intros fuel c' w' result processed Hrun.
  exact (updateLoop_processed fuel 0 c w ∅ [] c' w' result processed
           Hremote Hshape eq_refl Hrun).
Qed.

Lemma registerRoots_roots roots : ∀ c c',
  registerRoots c roots = Ok c' →
  Forall (λ d, Dir.sourceURL d = "") (administrationDirectories c) →
  Forall (λ d, Dir.sourceURL d = "") (administrationDirectories c').
Proof.
  induction roots as [|[name root] roots IH]; intros c c' Hreg Hall.
  - simpl in Hreg. by injection Hreg as <-.
  - simpl in Hreg.
    destruct (registerAdministrationDirectory c _ _ _ _ _) as [c1 [e|]] eqn:Hr; [done|].
    apply register_effect in Hr as (_ & _ & _ & added & Hd & Ha).
    eapply IH; [exact Hreg|]. rewrite Hd. apply Forall_app. split; [done|].
    eapply Forall_impl; [exact Ha|]. by intros d [_ ?].
Qed.

(** [New] registers every configured root with an empty source URL. *)
Lemma New_roots cfg w c :
  New cfg w = Ok c → Forall (λ d, Dir.sourceURL d = "") (administrationDirectories c).
Proof.
  unfold New. intros HN.
  destruct (registerRoots _ _) as [c1|e] eqn:Hreg; [|done].
  injection HN as <-.
  apply registerRoots_roots in Hreg; [|by constructor].
  unfold withDefaultResourceTypes. by destruct (bool_decide _).
Qed.

Lemma New_rootsFirst cfg w c :
  New cfg w = Ok c → rootsFirst (administrationDirectories c).
Proof.
  intros HN%New_roots. exists (administrationDirectories c), [].
  by rewrite app_nil_r.
Qed.

(** C10 (amended).  When the deduplicated feed, on which the pre-scan of a
    discoverable source runs, contains the DELETE of an Endpoint whose
    fullUrl is present and empty, the pre-scan unregisters every directory
    whose source URL is the empty string; the registry that [New] builds from
    the configured roots is emptied. *)
Theorem empty_fullUrl_delete_unregisters_roots (c : Component) (feed : list BundleEntry)
    (e : BundleEntry) :
  e ∈ deduplicateHistoryEntries feed →
  endpointDeleteFullUrl e = Some "" →
  (∀ d, d ∈ administrationDirectories
              (processEndpointDeletes c (deduplicateHistoryEntries feed)) →
        Dir.sourceURL d ≠ "")
  ∧ (∀ cfg w, New cfg w = Ok c →
       administrationDirectories
         (processEndpointDeletes c (deduplicateHistoryEntries feed)) = []).
Proof.
  intros Hin He.
  destruct (processEndpointDeletes_effect (deduplicateHistoryEntries feed) c)
    as (_ & _ & _ & Hd).
  assert (∀ d, Dir.sourceURL d = "" →
               unregisteredBy (deduplicateHistoryEntries feed) d = true) as Hun.
  { intros d Hsrc. unfold unregisteredBy. apply existsb_exists.
    exists e. split; [by apply list_elem_of_In|]. rewrite He, Hsrc. done. }
  split.
  - intros d. rewrite Hd. intros [Hkeep _]%list_elem_of_filter Hsrc.
    rewrite (Hun d Hsrc) in Hkeep. done.
  - intros cfg w HN%New_roots. rewrite Hd. clear Hd.
    induction HN as [|d l Hsrc _ IH]; [done|].
    rewrite filter_cons, decide_False by (by rewrite (Hun d Hsrc)). exact IH.
Qed.

End OrderFacts.

(** *** The results on concrete servers *)

Lemma searchTable_entries (P : BundleEntry → Prop) rows :
  Forall (λ row, match row.2 with
                 | Ok pages => Forall P (pageEntries pages)
                 | Err _ => True
                 end) rows →
  ∀ base path params pages,
    Example.searchTable rows base path params = Ok pages → Forall P (pageEntries pages).
Proof.
  induction 1 as [|[[b p] r] rows Hrow _ IH]; intros base path params pages; [done|].
  simpl. destruct (String.eqb b base && String.eqb p path).
  - intros ->. exact Hrow.
  - apply IH.
Qed.

Lemma servers_noEmptyFullUrlDelete rows :
  Forall (λ row, match row.2 with
                 | Ok pages => Forall (λ e, endpointDeleteFullUrl e ≠ Some "") (pageEntries pages)
                 | Err _ => True
                 end) rows →
  noEmptyFullUrlDelete (rem:=Example.remote (Example.servers rows)).
Proof.
  intros Hrows w client path params w' pages Hs e He. simpl in Hs.
  injection Hs as _ Hs.
  pose proof (searchTable_entries _ rows Hrows client path params pages Hs) as Hall.
  rewrite Forall_forall in Hall. by apply Hall.
Qed.

(** The theorem at a root directory that is configured alone: the run
    processes the root and then the directory discovered from it. *)
Lemma run_processes_registry_in_order_witness :
  ∃ c' result,
    update (ext:=Example.externals)
      (rem:=Example.remote (Example.servers (Feed.rootRows ++ Feed.careRows))) 2
      (Feed.componentWith (Feed.configWith [] false) [Feed.rootDirectory Feed.rootBase] ∅) tt
    = Some (c', tt, result, administrationDirectories c')
    ∧ administrationDirectories c' = [Feed.rootDirectory Feed.rootBase; Feed.careDirectory].
Proof.
  destruct (update (ext:=Example.externals)
              (rem:=Example.remote (Example.servers (Feed.rootRows ++ Feed.careRows))) 2
              (Feed.componentWith (Feed.configWith [] false)
                 [Feed.rootDirectory Feed.rootBase] ∅) tt)
    as [[[[c' []] result] processed]|] eqn:Hrun; [|vm_compute in Hrun; discriminate].
  exists c', result.
  destruct (run_processes_registry_in_order (ext:=Example.externals)
              (rem:=Example.remote (Example.servers (Feed.rootRows ++ Feed.careRows)))
              (Feed.componentWith (Feed.configWith [] false)
                 [Feed.rootDirectory Feed.rootBase] ∅) tt) as [_ Horder].
  - apply servers_noEmptyFullUrlDelete.
    repeat (constructor; [simpl; repeat (constructor; [by vm_compute|]); try done|]).
    constructor.
  - exists [Feed.rootDirectory Feed.rootBase], []. split_and!; [done| |done].
    by repeat constructor.
  - rewrite (Horder 2 c' tt result processed Hrun). split; [done|].
    rewrite <- (Horder 2 c' tt result processed Hrun).
    vm_compute in Hrun. by injection Hrun as _ _ <-.
Defined.

(** C7 as the specification words it does not hold: with two configured
    roots, the directory discovered from the first root is appended to the
    registry, the second root then reports its Endpoint as deleted, and the
    run ends without having processed the directory. *)
Lemma appended_directories_processed_fails :
  ¬ appended_directories_processed_as_specified (ext:=Example.externals)
      (rem:=Example.remote
              (Example.servers (Feed.rootRows ++ Feed.mirrorRows ++ Feed.careRows))).
Proof.
  intros Hclaim.
  destruct (update (ext:=Example.externals)
              (rem:=Example.remote
                      (Example.servers (Feed.rootRows ++ Feed.mirrorRows ++ Feed.careRows))) 2
              (Feed.componentWith (Feed.configWith [] false)
                 [Feed.rootDirectory Feed.rootBase; Feed.rootDirectory Feed.mirrorBase] ∅) tt)
    as [[[[c' []] result] processed]|] eqn:Hrun; [|vm_compute in Hrun; discriminate].
  pose proof (Hclaim 2
                (Feed.componentWith (Feed.configWith [] false)
                   [Feed.rootDirectory Feed.rootBase; Feed.rootDirectory Feed.mirrorBase] ∅)
                c' tt tt (Feed.rootDirectory Feed.rootBase) result processed
                eq_refl Hrun Feed.careDirectory) as Hin.
  assert (Feed.careDirectory ∈ processed) as Habs.
  { apply Hin.
    - apply list_elem_of_In. vm_compute. right. right. by left.
    - intros Hd. apply list_elem_of_In in Hd. simpl in Hd.
      destruct Hd as [Hd|[Hd|[]]]; discriminate. }
  vm_compute in Hrun. injection Hrun as _ _ <-.
  apply list_elem_of_In in Habs. simpl in Habs.
  destruct Habs as [Hd|[Hd|[]]]; discriminate.
Qed.




(** The theorem at a feed that starts with the DELETE of an Endpoint with an
    empty fullUrl: the registry built from one configured root is emptied. *)
Lemma empty_fullUrl_delete_unregisters_roots_witness :
  match New (ext:=Example.externals) (rem:=Example.remote (Example.servers []))
          {| AdministrationDirectories := {[ "lrza" := {| FHIRBaseURL := Feed.rootBase |} ]};
             QueryDirectory := {| FHIRBaseURL := "http://localhost:8080/fhir" |};
             ExcludeAdminDirectories := [];
             DirectoryResourceTypes := defaultDirectoryResourceTypes;
             StateFile := "";
             SnapshotModeSupport := false |} tt with
  | Ok c =>
      administrationDirectories c = [Feed.rootDirectory Feed.rootBase] ∧
      administrationDirectories
        (processEndpointDeletes c
           (deduplicateHistoryEntries (ext:=Example.externals)
              (rev Feed.recreatedEndpoint))) = []
  | Err _ => False
  end.
Proof.
  destruct (New _ _) as [c|e] eqn:HN; [|vm_compute in HN; discriminate].
  split; [vm_compute in HN; by injection HN as <-|].
  refine (proj2 (empty_fullUrl_delete_unregisters_roots (ext:=Example.externals)
                   (rem:=Example.remote (Example.servers [])) c
                   (rev Feed.recreatedEndpoint) (Feed.delete "" "Endpoint" "e1") _ _)
            _ tt HN).
  - apply list_elem_of_In. vm_compute. by left.
  - reflexivity.
Defined.

(** C10 as the claim words it does not hold: in [Feed.recreatedEndpoint] the
    DELETE with the empty fullUrl is not the first entry of its resource ID,
    deduplication drops it, and the pre-scan leaves the root registered. *)
Lemma prescan_as_specified_fails :
  ¬ prescan_as_specified (ext:=Example.externals).
Proof.
  intros Hclaim.
  apply (Hclaim (Feed.componentWith (Feed.configWith [] false)
                   [Feed.rootDirectory Feed.rootBase] ∅)
           Feed.recreatedEndpoint (Feed.delete "" "Endpoint" "e1")
           ltac:(apply list_elem_of_In; vm_compute; right; by left) eq_refl
           (Feed.rootDirectory Feed.rootBase)).
  - apply list_elem_of_In. vm_compute. by left.
  - reflexivity.
Qed.

(** * Further results *)

(** ** Strings *)

Lemma segment_cons a s : segment (String a s) ↔ a ≠ "/"%char ∧ segment s.
Proof.
  unfold segment. cbn [strings.Contains String.prefix].
  destruct (ascii_dec "/" a) as [<-|Hne].
  - destruct s; cbn; split; intros H; try discriminate; by destruct H.
  - cbn. split; [intros H; split; [congruence|done]|by intros [_ H]].
Qed.

Lemma Split_segment s : segment s → strings.Split s "/" = [s].
Proof.
  induction s as [|a s IH]; [done|].
  intros [Hne Hs]%segment_cons. cbn.
  destruct (Ascii.eqb_spec a "/"%char); [done|]. by rewrite IH.
Qed.

Lemma app_String a s t : String a s +:+ t = String a (s +:+ t).
Proof. done. Qed.

Lemma app_EmptyString t : "" +:+ t = t.
Proof. done. Qed.

Lemma app_slash_not_empty s t : (s +:+ "/" +:+ t =? "")%string = false.
Proof. by destruct s. Qed.

Lemma Split_segment_cons s rest :
  segment s → strings.Split (s +:+ String "/" rest) "/" = s :: strings.Split rest "/".
Proof.
  induction s as [|a s IH]; [by rewrite app_EmptyString|].
  intros [Hne Hs]%segment_cons. rewrite app_String. cbn [strings.Split].
  destruct (Ascii.eqb_spec a "/"%char); [done|]. by rewrite (IH Hs).
Qed.

Lemma Split_segment_app s rest :
  segment s → strings.Split (s +:+ "/" +:+ rest) "/" = s :: strings.Split rest "/".
Proof. apply Split_segment_cons. Qed.

Lemma Split_not_nil s sep : strings.Split s sep ≠ [].
Proof.
  destruct s as [|a s]; [done|]. cbn.
  destruct (Ascii.eqb a sep); [done|]. by destruct (strings.Split s sep).
Qed.

Lemma last_cons_cons {A} (x y : A) l d : List.last (x :: y :: l) d = List.last (y :: l) d.
Proof. done. Qed.

Lemma Split_two base s :
  ∃ h h' t, strings.Split (base +:+ String "/" s) "/" = h :: h' :: t.
Proof.
  induction base as [|b base IH].
  - rewrite app_EmptyString. cbn [strings.Split]. rewrite Ascii.eqb_refl.
    pose proof (Split_not_nil s "/"). destruct (strings.Split s "/"); [done|]. eauto.
  - rewrite app_String. cbn [strings.Split]. destruct IH as (h & h' & t & ->).
    destruct (Ascii.eqb b "/"); eauto.
Qed.

Lemma last_Split_cons base s :
  segment s → List.last (strings.Split (base +:+ String "/" s) "/") "" = s.
Proof.
  intros Hs. induction base as [|a base IH].
  - rewrite app_EmptyString. cbn [strings.Split]. rewrite Ascii.eqb_refl.
    by rewrite Split_segment.
  - rewrite app_String. cbn [strings.Split].
    destruct (Split_two base s) as (h & h' & t & E). rewrite E in *.
    destruct (Ascii.eqb a "/"); by rewrite !last_cons_cons in *.
Qed.

Lemma last_Split_app base s :
  segment s → List.last (strings.Split (base +:+ "/" +:+ s) "/") "" = s.
Proof. apply last_Split_cons. Qed.


Lemma filter_all {A} (P : A → Prop) `{∀ x, Decision (P x)} (l : list A) :
  Forall P l → filter P l = l.
Proof.
  induction 1 as [|x l Hx _ IH]; [done|]. by rewrite filter_cons_True, IH.
Qed.

(** ** History deduplication *)

Section DedupMore.
Context {ext : Externals}.

Lemma dedupStep_snd m l e :
  (dedupStep (m, l) e).2 = l ++ filter (λ e, entryResourceID e = "") [e].
Proof.
  unfold dedupStep. destruct (String.eqb_spec (entryResourceID e) "") as [Heq|Hne]; cbn.
  - by rewrite decide_True.
  - rewrite decide_False, app_nil_r by done.
    destruct (m !! _); [destruct (isMoreRecent _ _)|]; done.
Qed.

Lemma dedupLoop_snd_gen entries : ∀ m l,
  (fold_left dedupStep entries (m, l)).2 = l ++ filter (λ e, entryResourceID e = "") entries.
Proof.
  induction entries as [|e entries IH]; intros m l; cbn [fold_left].
  - by rewrite filter_nil, app_nil_r.
  - destruct (dedupStep (m, l) e) as [m' l'] eqn:E.
    rewrite IH. pose proof (dedupStep_snd m l e) as H. rewrite E in H. cbn in H. subst l'.
    rewrite <- app_assoc. f_equal. rewrite filter_cons. by destruct (decide _).
Qed.

Lemma dedupLoop_snd entries :
  (dedupLoop entries).2 = filter (λ e, entryResourceID e = "") entries.
Proof. unfold dedupLoop. by rewrite dedupLoop_snd_gen. Qed.

Lemma dedupStep_submseteq seen m l e :
  (map_to_list m).*2 ++ l ⊆+ seen →
  (map_to_list (dedupStep (m, l) e).1).*2 ++ (dedupStep (m, l) e).2 ⊆+ seen ++ [e].
Proof.
  intros Hsub. unfold dedupStep.
  destruct (String.eqb_spec (entryResourceID e) "") as [Heq|Hne]; cbn.
  - rewrite app_assoc. by apply submseteq_skips_r.
  - assert (Hnew : ∀ vs : list BundleEntry, vs ++ l ⊆+ seen → e :: vs ++ l ⊆+ seen ++ [e]).
    { intros vs H. rewrite <- (Permutation_cons_append seen e). by apply submseteq_skip. }
    destruct (m !! entryResourceID e) as [cur|] eqn:Hm.
    + destruct (isMoreRecent e cur).
      * cbn. rewrite <- insert_delete_eq.
        rewrite map_to_list_insert by apply lookup_delete_eq. cbn.
        apply Hnew. etrans; [|exact Hsub].
        rewrite <- (map_to_list_delete m _ _ Hm). cbn. apply submseteq_cons. done.
      * cbn. etrans; [exact Hsub|]. apply submseteq_inserts_r. done.
    + cbn. rewrite map_to_list_insert by done. cbn. by apply Hnew.
Qed.

(** X1 (deduplicateHistoryEntries): deduplication only selects.  The output
    is a sub-multiset of the input: every entry it returns is an entry of the
    input, no entry is returned more often than the input holds it, and the
    output is never longer than the input. *)
Theorem dedup_selects_input_entries (entries : list BundleEntry) :
  deduplicateHistoryEntries entries ⊆+ entries.
Proof.
  unfold deduplicateHistoryEntries, dedupLoop.
  assert (H : ∀ seen st, (map_to_list st.1).*2 ++ st.2 ⊆+ seen →
            (map_to_list (fold_left dedupStep entries st).1).*2
              ++ (fold_left dedupStep entries st).2 ⊆+ seen ++ entries).
  { induction entries as [|e entries IH]; intros seen [m l] Hst; cbn [fold_left].
    - by rewrite app_nil_r.
    - replace (seen ++ e :: entries) with ((seen ++ [e]) ++ entries)
        by (by rewrite <- app_assoc).
      apply IH. destruct (dedupStep (m, l) e) as [m' l'] eqn:E.
      pose proof (dedupStep_submseteq seen m l e Hst) as H. by rewrite E in H. }
  specialize (H [] (∅, []) ltac:(cbn; by rewrite map_to_list_empty)).
  destruct (fold_left dedupStep entries (∅, [])) as [m l]. exact H.
Qed.

(** X2 (deduplicateHistoryEntries): entries without a resource ID are never
    dropped or merged.  The output is the list of the kept entries that have
    an ID, followed by all entries of the input without ID, in input order. *)
Theorem dedup_keeps_entries_without_id (entries : list BundleEntry) :
  ∃ keyed,
    deduplicateHistoryEntries entries
    = keyed ++ filter (λ e, entryResourceID e = "") entries
    ∧ Forall (λ e, entryResourceID e ≠ "") keyed.
Proof.
  unfold deduplicateHistoryEntries.
  pose proof (dedupLoop_snd entries) as Hsnd.
  pose proof (dedupLoop_keys entries) as [Hkeys _].
  destruct (dedupLoop entries) as [m l]. cbn in *. subst l.
  eexists. split; [done|].
  apply Forall_forall. intros e [[k e'] [-> Hin]]%list_elem_of_fmap.
  apply elem_of_map_to_list in Hin. apply Hkeys in Hin as [Hid Hne]. cbn. congruence.
Qed.


(** X4 (isMoreRecent, getLastUpdated): "more recent" is a strict order on the
    entries that carry a timestamp, and an entry without a resource body, a
    DELETE, is never more recent than another entry, nor is any entry more
    recent than it. *)
Theorem isMoreRecent_strict_order :
  (∀ e, isMoreRecent e e = false)
  ∧ (∀ e1 e2, isMoreRecent e1 e2 = true → isMoreRecent e2 e1 = false)
  ∧ (∀ e1 e2 e3, isMoreRecent e1 e2 = true → isMoreRecent e2 e3 = true →
                 isMoreRecent e1 e3 = true)
  ∧ (∀ e1 e2, Resource e1 = None ∨ Resource e2 = None → isMoreRecent e1 e2 = false).
Proof.
  split_and!.
  - intros e. apply not_true_is_false. rewrite isMoreRecent_true. lia.
  - intros e1 e2 H. apply not_true_is_false. rewrite isMoreRecent_true in *. lia.
  - intros e1 e2 e3 H1 H2. rewrite isMoreRecent_true in *. lia.
  - intros e1 e2 H. apply not_true_is_false. rewrite isMoreRecent_true.
    unfold getLastUpdated. destruct H as [-> | ->]; lia.
Qed.

(** X5 (extractResourceIDFromURL): the resource ID of a DELETE is the second
    segment of its request URL, for a plain URL [Type/id] and for a versioned
    one [Type/id/_history/v]; when the request URL has no second segment the
    ID is the last segment of the fullUrl. *)
Theorem delete_url_resource_id (entry : BundleEntry) (rq : BundleEntryRequest)
    (type id : string) :
  Request entry = Some rq →
  segment id →
  (segment type ∧
   (Url rq = type +:+ "/" +:+ id
    ∨ ∃ version, Url rq = type +:+ "/" +:+ id +:+ "/_history/" +:+ version))
  ∨ (segment (Url rq) ∧ ∃ base, FullUrl entry = Some (base +:+ "/" +:+ id)) →
  extractResourceIDFromURL entry = id.
Proof.
  intros Hrq Hid H. unfold extractResourceIDFromURL. rewrite Hrq.
  destruct H as [[Htype [Hurl|[version Hurl]]]|[Hurl [base Hfull]]].
  - by rewrite Hurl, app_slash_not_empty, Split_segment_app, Split_segment.
  - rewrite Hurl, app_slash_not_empty.
    change (type +:+ "/" +:+ id +:+ "/_history/" +:+ version)
      with (type +:+ "/" +:+ (id +:+ "/" +:+ ("_history/" +:+ version))).
    by rewrite !Split_segment_app.
  - rewrite Split_segment by done.
    assert (idFromFullUrl entry = id) as ->; [|by destruct (negb _)].
    unfold idFromFullUrl. rewrite Hfull. by apply last_Split_app.
Qed.

End DedupMore.

Lemma delete_url_resource_id_witness :
  extractResourceIDFromURL
    {| FullUrl := Some "https://root.example/fhir/Organization/1"; Resource := None;
       Request := Some {| Method := HTTPVerbDELETE; Url := "Organization/1/_history/3" |};
       Response := None |} = "1".
Proof.
  apply (delete_url_resource_id _ {| Method := HTTPVerbDELETE;
                                     Url := "Organization/1/_history/3" |}
           "Organization" "1"); [reflexivity|reflexivity|].
  left. split; [reflexivity|]. right. by exists "3".
Defined.

(** ** Organization tree *)

Section OrgTreeMore.
Context {ext : Externals}.

Lemma NoDup_values_keyed (orgMap : gmap string Organization) :
  keyedById orgMap → NoDup (map_to_list orgMap).*2.
Proof.
  intros Hkeyed. apply NoDup_fmap_2_strong; [|apply NoDup_map_to_list].
  intros [k1 v1] [k2 v2] H1%elem_of_map_to_list H2%elem_of_map_to_list Heq.
  cbn in Heq. subst v2. apply Hkeyed in H1, H2. congruence.
Qed.

(** X6 (createOrganizationTree, findOrganizationsLinkedToParent): every root
    of the organization tree is stored under its own ID and has a URA
    identifier; its members are organizations of the input with an ID other
    than the root's, none is listed twice, and the root is not a member of
    its own set. *)
Theorem tree_roots_and_members (entries : list BundleEntry) (k : string)
    (root : Organization) (linked : list Organization) :
  createOrganizationTree entries !! k = Some (root, linked) →
  OrgId root = Some k ∧ hasURA root = true ∧ NoDup linked ∧ (root ∉ linked) ∧
  ∀ org, org ∈ linked →
    ∃ k', k' ≠ k ∧ buildOrgMap entries !! k' = Some org ∧ OrgId org = Some k'.
Proof.
  intros (Hroot & Hura & ->)%createOrganizationTree_lookup.
  pose proof (buildOrgMap_keyed entries) as Hkeyed.
  assert (Hid : OrgId root = Some k) by by apply Hkeyed.
  assert (Hmem : ∀ org, org ∈ findOrganizationsLinkedToParent (buildOrgMap entries) root →
            ∃ k', k' ≠ k ∧ buildOrgMap entries !! k' = Some org ∧ OrgId org = Some k').
  { intros org ([k' Hk'] & Hsame & _)%elem_of_linked.
    exists k'. split_and!; [|done|by apply Hkeyed].
    intros ->. unfold sameOrgId in Hsame.
    rewrite (Hkeyed _ _ Hk'), Hid, String.eqb_refl in Hsame. done. }
  split_and!; try done.
  - unfold findOrganizationsLinkedToParent. apply NoDup_filter. by apply NoDup_values_keyed.
  - intros (k' & Hne & _ & Hk')%Hmem. congruence.
Qed.

End OrgTreeMore.

Lemma tree_roots_and_members_witness :
  OrgId Feed.hospitalOrg = Some "hospital"
  ∧ hasURA (ext:=Example.externals) Feed.hospitalOrg = true
  ∧ NoDup [Feed.wardOf "hospital"] ∧ (Feed.hospitalOrg ∉ [Feed.wardOf "hospital"])
  ∧ ∀ org, org ∈ [Feed.wardOf "hospital"] →
      ∃ k', k' ≠ "hospital"
            ∧ buildOrgMap (ext:=Example.externals) Feed.hospitalWithWard !! k' = Some org
            ∧ OrgId org = Some k'.
Proof.
  apply (tree_roots_and_members (ext:=Example.externals) Feed.hospitalWithWard).
  vm_compute. reflexivity.
Defined.

(** The walk along partOf *)

Lemma ancestor_add orgMap i j : ∀ org,
  ancestor orgMap (i + j) org = ancestor orgMap i org ≫= ancestor orgMap j.
Proof.
  induction i as [|i IH]; intros org; [done|]. cbn.
  destruct (partOfOrg orgMap org) as [next|]; [|done]. cbn. apply IH.
Qed.

Lemma ancestor_in_map orgMap n : ∀ org b,
  (∃ k, orgMap !! k = Some org) → ancestor orgMap n org = Some b →
  ∃ k, orgMap !! k = Some b.
Proof.
  induction n as [|n IH]; intros org b Hin Hanc; cbn in Hanc.
  - by simplify_eq.
  - destruct (partOfOrg orgMap org) as [next|] eqn:Hnext; [|done]. cbn in Hanc.
    eapply (IH next); [|done]. unfold partOfOrg in Hnext.
    destruct (PartOf org) as [[[ref|]]|]; try done. eauto.
Qed.

Lemma links_reaches orgMap parentOrg pid :
  OrgId parentOrg = Some pid →
  ∀ budget org visited,
    organizationLinksToParentRecursive orgMap org parentOrg visited budget = true →
    ∃ n, n < budget ∧ reaches orgMap n org pid.
Proof.
  intros Hpid. induction budget as [|budget IH]; intros org visited Hlinks; [done|].
  cbn in Hlinks.
  assert (Hcont : ∀ visited,
            match PartOf org with
            | Some {| ReferenceRef := Some ref |} =>
                match orgMap !! partOfParentID ref with
                | Some nextOrg =>
                    organizationLinksToParentRecursive orgMap nextOrg parentOrg visited budget
                | None => false
                end
            | _ => false
            end = true → ∃ n, n < S budget ∧ reaches orgMap n org pid).
  { intros visited' H. destruct (PartOf org) as [[[ref|]]|] eqn:Hpart; try done.
    destruct (orgMap !! partOfParentID ref) as [next|] eqn:Hnext; [|done].
    apply IH in H as (n & Hn & Hreach). exists (S n). split; [lia|].
    unfold reaches in *. cbn. unfold partOfOrg. by rewrite Hpart, Hnext. }
  destruct (OrgId org) as [id|] eqn:Hid; [|by eapply Hcont].
  destruct (bool_decide (id ∈ visited)); [done|].
  destruct (bool_decide (OrgId parentOrg = Some id)) eqn:Hsame; [|by eapply Hcont].
  apply bool_decide_eq_true in Hsame. exists 0. split; [lia|].
  unfold reaches. cbn. congruence.
Qed.

Lemma reaches_links orgMap parentOrg pid :
  keyedById orgMap → OrgId parentOrg = Some pid →
  ∀ n org visited budget,
    n < budget →
    (∃ k, orgMap !! k = Some org) →
    reaches orgMap n org pid →
    (∀ i, i < n → ¬ reaches orgMap i org pid) →
    (∀ i b id, i ≤ n → ancestor orgMap i org = Some b → OrgId b = Some id →
               id ∉ visited) →
    organizationLinksToParentRecursive orgMap org parentOrg visited budget = true.
Proof.
  intros Hkeyed Hpid. induction n as [|n IH];
    intros org visited [|budget] Hlt [k Hk] Hreach Hmin Hvis; try lia.
  - unfold reaches in Hreach. cbn in Hreach. cbn. rewrite Hreach.
    rewrite bool_decide_eq_false_2 by (by eapply (Hvis 0 org); [lia|done|done]).
    by rewrite bool_decide_eq_true_2.
  - pose proof (Hkeyed _ _ Hk) as Hid. cbn. rewrite Hid.
    rewrite bool_decide_eq_false_2 by (by eapply (Hvis 0 org); [lia|done|done]).
    rewrite bool_decide_eq_false_2.
    2:{ intros Heq. apply (Hmin 0); [lia|]. unfold reaches. cbn. congruence. }
    unfold reaches in Hreach. cbn in Hreach.
    destruct (partOfOrg orgMap org) as [next|] eqn:Hnext; [|done]. cbn in Hreach.
    pose proof Hnext as Hpart. unfold partOfOrg in Hpart.
    destruct (PartOf org) as [[[ref|]]|]; try done. rewrite Hpart.
    apply IH; [lia|eauto|done|..].
    + intros i Hi Hr. apply (Hmin (S i)); [lia|]. unfold reaches. cbn. by rewrite Hnext.
    + intros i b id Hi Hb Hbid [->%elem_of_singleton|Hin]%elem_of_union.
      * assert (b = org) as ->.
        { destruct (ancestor_in_map orgMap i next b ltac:(eauto) Hb) as [kb Hkb].
          pose proof (Hkeyed _ _ Hkb). congruence. }
        apply (Hmin (n - i)); [lia|]. unfold reaches.
        replace n with (i + (n - i)) in Hreach by lia.
        by rewrite ancestor_add, Hb in Hreach.
      * eapply (Hvis (S i) b id); [lia| |done|done]. cbn. by rewrite Hnext.
Qed.

Lemma reaches_least orgMap org pid n :
  (∀ i, i < n → ¬ reaches orgMap i org pid)
  ∨ ∃ m, m < n ∧ reaches orgMap m org pid ∧ ∀ i, i < m → ¬ reaches orgMap i org pid.
Proof.
  induction n as [|n [IH|(m & Hm & Hr & Hmin)]].
  - left. lia.
  - destruct (decide (ancestor orgMap n org ≫= OrgId = Some pid)) as [Hr|Hr].
    + right. exists n. split_and!; [lia|done|done].
    + left. intros i Hi. destruct (decide (i = n)) as [->|]; [done|]. apply IH. lia.
  - right. exists m. split_and!; [lia|done|done].
Qed.

(** X7 (organizationLinksToParent, organizationLinksToParentRecursive): an
    organization of the map links to the parent exactly when its partOf chain
    reaches an organization with the parent's ID within [maxDepth] = 10
    steps.  Chains that run into a cycle, leave the map or need more than 10
    steps do not link. *)
Theorem linked_iff_parent_within_max_depth (orgMap : gmap string Organization)
    (k : string) (org parentOrg : Organization) (pid : string) :
  keyedById orgMap →
  orgMap !! k = Some org →
  OrgId parentOrg = Some pid →
  organizationLinksToParent orgMap org parentOrg = true
  ↔ ∃ n, n ≤ maxDepth ∧ reaches orgMap n org pid.
Proof.
  intros Hkeyed Hk Hpid. unfold organizationLinksToParent. split.
  - intros (n & Hn & Hr)%(links_reaches _ _ pid Hpid). exists n. split; [lia|done].
  - intros (n & Hn & Hr).
    destruct (reaches_least orgMap org pid (S n)) as [Hnone|(m & Hm & Hrm & Hmin)].
    { exfalso. apply (Hnone n); [lia|done]. }
    apply (reaches_links orgMap parentOrg pid Hkeyed Hpid m); [lia|eauto|done|done|].
    intros i b id _ _ _. set_solver.
Qed.

Lemma linked_iff_parent_within_max_depth_witness :
  organizationLinksToParent (buildOrgMap (ext:=Example.externals) Feed.hospitalWithWard)
    (Feed.wardOf "hospital") Feed.hospitalOrg = true
  ↔ ∃ n, n ≤ maxDepth
         ∧ reaches (buildOrgMap (ext:=Example.externals) Feed.hospitalWithWard) n
             (Feed.wardOf "hospital") "hospital".
Proof.
  apply (linked_iff_parent_within_max_depth _ "ward").
  - apply buildOrgMap_keyed.
  - vm_compute. reflexivity.
  - reflexivity.
Defined.

(** ** Transaction builder *)

Section UpdaterMore.
Context {ext : Externals}.

(** X8 (buildUpdateTransaction): a call appends at most one entry to the
    transaction and leaves the entries it already holds as they are; a call
    that returns an error leaves the transaction unchanged. *)
Theorem transaction_grows_by_at_most_one (tx : Bundle) (entry : BundleEntry)
    (rules : ValidationRules) (tree : parentOrganizationMap)
    (services : list BundleEntry) (discoverable : bool) (sourceBase : string) :
  let out := buildUpdateTransaction tx entry rules tree services discoverable sourceBase in
  (out.1 = tx ∨ ∃ e, out.1 = appendEntry tx e)
  ∧ (isOk out.2 = false → out.1 = tx).
Proof.
  unfold buildUpdateTransaction.
  repeat (case_match; cbn [fst snd isOk]; try (split; [by eauto|done]));
    split; eauto; done.
Qed.

(** X9 (buildUpdateTransaction): a DELETE entry with an allowed resource type
    is forwarded as a conditional DELETE on the [_source] of the resource,
    built from the first two segments of the request URL: the version part of
    a URL [Type/id/_history/v] is ignored.  This holds for discoverable and
    for other sources alike, and the validator is not consulted. *)
Theorem delete_becomes_conditional_delete (tx : Bundle) (entry : BundleEntry)
    (rq : BundleEntryRequest) (rules : ValidationRules) (tree : parentOrganizationMap)
    (services : list BundleEntry) (discoverable : bool)
    (sourceBase type id sourceURL : string) :
  is_Some (FullUrl entry) →
  Request entry = Some rq →
  Method rq = HTTPVerbDELETE →
  segment type → segment id →
  (Url rq = type +:+ "/" +:+ id
   ∨ ∃ version, Url rq = type +:+ "/" +:+ id +:+ "/_history/" +:+ version) →
  type ∈ AllowedResourceTypes rules →
  BuildSourceURL sourceBase [type; id] = Some sourceURL →
  buildUpdateTransaction tx entry rules tree services discoverable sourceBase
  = (appendEntry tx (deleteEntry type sourceURL), Ok type).
Proof.
  intros [fullUrl Hfull] Hrq Hmethod Htype Hid Hurl Hallowed Hsrc.
  unfold buildUpdateTransaction. rewrite Hfull, Hrq, Hmethod. cbn [isDELETE].
  assert (∃ rest, strings.Split (Url rq) "/" = type :: id :: rest) as [rest ->].
  { destruct Hurl as [->|[version ->]].
    - rewrite Split_segment_app, Split_segment by done. eauto.
    - change (type +:+ "/" +:+ id +:+ "/_history/" +:+ version)
        with (type +:+ "/" +:+ (id +:+ "/" +:+ ("_history/" +:+ version))).
      rewrite !Split_segment_app by done. eauto. }
  rewrite bool_decide_eq_true_2 by done. cbn [negb]. by rewrite Hsrc.
Qed.

(** The exits of [buildUpdateTransaction] without error for an entry that is
    not a DELETE: nothing is emitted, for a discoverable source, or a PUT is
    emitted whose body is the converted resource, after the name rule, the new
    meta and the removal of the ID. *)
Lemma accepted_put_body (tx tx' : Bundle) (entry : BundleEntry)
    (rules : ValidationRules) (tree : parentOrganizationMap)
    (services : list BundleEntry) (discoverable : bool) (sourceBase resourceType : string)
    (request : BundleEntryRequest) :
  Request entry = Some request →
  isDELETE (Method request) = false →
  buildUpdateTransaction tx entry rules tree services discoverable sourceBase
    = (tx', Ok resourceType) →
  (discoverable = true ∧ tx' = tx)
  ∨ ∃ raw resource sourceURL body,
    Resource entry = Some raw ∧
    Unmarshal_map raw = Ok resource ∧
    obj_get_string "resourceType" resource = Some resourceType ∧
    tx' = appendEntry tx (putEntry resourceType sourceURL (JObject body)) ∧
    convertReferencesRecursive
      (JObject (obj_delete "id"
         (updateResourceMeta
            (if String.eqb resourceType "Organization" && negb discoverable
                && hasURAIdentifier resource
             then obj_delete "name" resource else resource) sourceURL))) sourceBase
    = Ok (JObject body).
Proof.
  intros Hrq Hput Hbuild. unfold buildUpdateTransaction in Hbuild.
  destruct (FullUrl entry) as [fullUrl|]; [|done].
  rewrite Hrq, Hput in Hbuild.
  destruct (Resource entry) as [raw|]; [|done].
  destruct (Unmarshal_map raw) as [resource|] eqn:Hmap; [|done].
  destruct (obj_get_string "resourceType" resource) as [rt|] eqn:Hrt; [|done].
  destruct (ValidateUpdate rules raw tree services); [done|].
  assert (∀ (d : Result bool) (k : Bundle * Result string),
            (discoverable = false → d = Ok true) →
            match d with Ok true => k | Ok false => (tx, Ok rt) | Err e => (tx, Err e) end
            = (tx', Ok resourceType) →
            (discoverable = true ∧ tx' = tx) ∨ k = (tx', Ok resourceType)) as Hsync.
  { intros [[|]|] k Hd Hk; [by right| |done].
    left. injection Hk as <- <-. split; [|done]. destruct discoverable; [done|].
    by specialize (Hd eq_refl). }
  apply Hsync in Hbuild as [Hleft|Hbuild]; [by left| |by intros ->]. clear Hsync.
  right.
  destruct (obj_get_string "id" _) as [originalId|] eqn:Hid; [|done].
  destruct (BuildSourceURL sourceBase [rt; originalId]) as [sourceURL|] eqn:Hsrc; [|done].
  destruct (convertReferencesRecursive _ sourceBase) as [body|] eqn:Hconv; [|done].
  injection Hbuild as <- <-.
  pose proof Hconv as (body' & -> & _)%convert_object.
  exists raw, resource, sourceURL, body'. done.
Qed.

(** X10 (buildUpdateTransaction, hasURAIdentifier): the name authority rule.
    An Organization with a URA identifier that a source which is not
    discoverable provides is forwarded without its [name]. *)
Theorem ura_organization_forwarded_without_name (tx tx' : Bundle) (entry : BundleEntry)
    (rules : ValidationRules) (tree : parentOrganizationMap)
    (services : list BundleEntry) (sourceBase : string)
    (request : BundleEntryRequest) (raw : JSON) (resource : JMap) :
  Request entry = Some request →
  isDELETE (Method request) = false →
  Resource entry = Some raw →
  Unmarshal_map raw = Ok resource →
  hasURAIdentifier resource = true →
  buildUpdateTransaction tx entry rules tree services false sourceBase
    = (tx', Ok "Organization") →
  ∃ sourceURL body,
    tx' = appendEntry tx (putEntry "Organization" sourceURL (JObject body))
    ∧ obj_get "name" body = None.
Proof.
  intros Hrq Hput Hraw Hmap Hura Hbuild.
  destruct (accepted_put_body _ _ _ _ _ _ _ _ _ _ Hrq Hput Hbuild)
    as [[? _]|(raw' & resource' & sourceURL & body & Hraw' & Hmap' & _ & -> & Hconv)];
    [done|].
  assert (raw' = raw) as -> by congruence.
  assert (resource' = resource) as -> by congruence.
  rewrite Hura in Hconv. cbn [String.eqb Ascii.eqb Bool.eqb negb andb] in Hconv.
  exists sourceURL, body. split; [done|].
  apply convert_object in Hconv as (body' & [= <-] & Hkeys).
  specialize (Hkeys "name" ltac:(done)).
  rewrite obj_get_delete_ne in Hkeys by done.
  unfold updateResourceMeta in Hkeys. rewrite obj_get_set_ne in Hkeys by done.
  by rewrite obj_get_delete_eq in Hkeys.
Qed.

(** X11 (buildUpdateTransaction, updateResourceMeta): the meta of a forwarded
    resource is rewritten.  The emitted resource has a [meta] object without
    [versionId] and without [lastUpdated]; every other field of the original
    meta, [source] apart, is kept, with its references converted. *)
Theorem forwarded_meta_is_rewritten (tx tx' : Bundle) (entry : BundleEntry)
    (rules : ValidationRules) (tree : parentOrganizationMap)
    (services : list BundleEntry) (discoverable : bool) (sourceBase resourceType : string)
    (request : BundleEntryRequest) :
  Request entry = Some request →
  isDELETE (Method request) = false →
  buildUpdateTransaction tx entry rules tree services discoverable sourceBase
    = (tx', Ok resourceType) →
  tx' ≠ tx →
  ∃ raw resource sourceURL body meta,
    Resource entry = Some raw ∧ Unmarshal_map raw = Ok resource ∧
    tx' = appendEntry tx (putEntry resourceType sourceURL (JObject body)) ∧
    obj_get "meta" body = Some (JObject meta) ∧
    obj_get "versionId" meta = None ∧
    obj_get "lastUpdated" meta = None ∧
    ∀ k, k ≠ "source" → k ≠ "versionId" → k ≠ "lastUpdated" → k ≠ "reference" →
      match obj_get_map "meta" resource ≫= obj_get k with
      | None => obj_get k meta = None
      | Some x => ∃ x', convertReferencesRecursive x sourceBase = Ok x'
                        ∧ obj_get k meta = Some x'
      end.
Proof.
  intros Hrq Hput Hbuild Hne.
  destruct (accepted_put_body _ _ _ _ _ _ _ _ _ _ Hrq Hput Hbuild)
    as [[_ ?]|(raw & resource & sourceURL & body & Hraw & Hmap & _ & -> & Hconv)];
    [done|].
  apply convert_object in Hconv as (body' & [= <-] & Hkeys).
  specialize (Hkeys "meta" ltac:(done)).
  rewrite obj_get_delete_ne in Hkeys by done.
  unfold updateResourceMeta in Hkeys. rewrite obj_get_set_eq in Hkeys.
  destruct Hkeys as (meta' & Hmeta & Hget).
  apply convert_object in Hmeta as (meta & -> & Hmkeys).
  exists raw, resource, sourceURL, body, meta. split_and!; try done.
  - specialize (Hmkeys "versionId" ltac:(done)).
    rewrite obj_get_delete_ne, obj_get_delete_eq in Hmkeys by done. done.
  - specialize (Hmkeys "lastUpdated" ltac:(done)).
    by rewrite obj_get_delete_eq in Hmkeys.
  - intros k Hk1 Hk2 Hk3 Hk4. specialize (Hmkeys k Hk4).
    rewrite !obj_get_delete_ne, obj_get_set_ne in Hmkeys by done.
    assert (obj_get_map "meta" resource
            = obj_get_map "meta"
                (if (resourceType =? "Organization")%string && negb discoverable
                    && hasURAIdentifier resource
                 then obj_delete "name" resource else resource)) as Hsame.
    { unfold obj_get_map. destruct (_ && _); [|done]. by rewrite obj_get_delete_ne. }
    rewrite Hsame. destruct (obj_get_map "meta" _) as [m|]; exact Hmkeys.
Qed.

Lemma traverse_lookup {A B} (f : A → Result B) (l : list A) (l' : list B) i x :
  traverse f l = Ok l' → l !! i = Some x → ∃ x', f x = Ok x' ∧ l' !! i = Some x'.
Proof.
  revert l' i. induction l as [|y l IH]; intros l' i Ht Hi; [done|].
  cbn in Ht. destruct (f y) as [y'|] eqn:Hy; [|done].
  destruct (traverse f l) as [rest|] eqn:Hrest; [|done]. injection Ht as <-.
  destruct i as [|i]; cbn in *.
  - injection Hi as <-. eauto.
  - by apply IH.
Qed.

Lemma convert_field base v j k x :
  convertReferencesRecursive (JObject v) base = Ok j →
  obj_get k v = Some x →
  (∀ s, x ≠ JString s) →
  ∃ v' x', j = JObject v' ∧ convertReferencesRecursive x base = Ok x'
           ∧ obj_get k v' = Some x'.
Proof.
  intros Hconv Hget Hx. cbn in Hconv.
  destruct (rewriteReference v base) as [newRef|] eqn:Hrw; [|done].
  fold (convertBinding base) in Hconv.
  destruct (traverse (convertBinding base) v) as [v'|] eqn:Ht; [|done].
  injection Hconv as <-.
  pose proof (traverse_bindings_get base v v' k Ht) as Hk. rewrite Hget in Hk.
  destruct Hk as (x' & Hx' & Hget').
  destruct newRef as [r|]; [|by eauto].
  destruct (String.eqb_spec k "reference") as [->|Hne].
  - unfold rewriteReference, obj_get_string in Hrw. rewrite Hget in Hrw.
    destruct x; try done. by destruct (Hx s).
  - eexists _, x'. split_and!; [done|done|]. by rewrite obj_get_set_ne.
Qed.

Lemma convert_reference_field base v v' :
  convertReferencesRecursive (JObject v) base = Ok (JObject v') →
  match obj_get_string "reference" v with
  | Some ref =>
      match strings.Split ref "/" with
      | [resourceType; _] =>
          ∃ sourceURL, BuildSourceURL base [ref] = Some sourceURL
            ∧ obj_get "reference" v'
              = Some (JString (resourceType +:+ "?_source=" +:+ QueryEscape sourceURL))
      | _ => obj_get "reference" v' = Some (JString ref)
      end
  | None => True
  end.
Proof.
  intros Hconv. cbn in Hconv.
  destruct (rewriteReference v base) as [newRef|] eqn:Hrw; [|done].
  fold (convertBinding base) in Hconv.
  destruct (traverse (convertBinding base) v) as [w|] eqn:Ht; [|done].
  injection Hconv as <-.
  unfold rewriteReference in Hrw.
  destruct (obj_get_string "reference" v) as [ref|] eqn:Href; [|done].
  assert (Hkeep : newRef = None → obj_get "reference" w = Some (JString ref)).
  { intros ->. pose proof (traverse_bindings_get base v w "reference" Ht) as Hk.
    unfold obj_get_string in Href.
    destruct (obj_get "reference" v) as [[]|]; try done. injection Href as ->.
    destruct Hk as (x' & Hx' & ->). cbn in Hx'. by injection Hx' as <-. }
  destruct (strings.Split ref "/") as [|resourceType [|second [|third rest]]];
    try (injection Hrw as <-; by apply Hkeep).
  destruct (BuildSourceURL base [ref]) as [sourceURL|]; [|done].
  injection Hrw as <-. exists sourceURL. split; [done|]. by rewrite obj_get_set_eq.
Qed.

(** X12 (convertReferencesRecursive): references are converted at every
    depth.  Wherever the resource holds an object, the converted resource
    holds an object at the same place; a [reference] of that object with
    exactly two segments [Type/id] becomes the conditional reference
    [Type?_source=...] on the source URL of the referenced resource, and any
    other reference string is kept as it is. *)
Theorem references_converted_at_every_depth (sourceBaseURL : string) (path : list Step) :
  ∀ (obj obj' : JSON) (v : JMap),
    convertReferencesRecursive obj sourceBaseURL = Ok obj' →
    at_path path obj = Some (JObject v) →
    ∃ v', at_path path obj' = Some (JObject v') ∧
      match obj_get_string "reference" v with
      | Some ref =>
          match strings.Split ref "/" with
          | [resourceType; _] =>
              ∃ sourceURL, BuildSourceURL sourceBaseURL [ref] = Some sourceURL
                ∧ obj_get "reference" v'
                  = Some (JString (resourceType +:+ "?_source=" +:+ QueryEscape sourceURL))
          | _ => obj_get "reference" v' = Some (JString ref)
          end
      | None => True
      end.
Proof.
  induction path as [|step path IH]; intros obj obj' v Hconv Hpath.
  - cbn in Hpath. injection Hpath as ->.
    pose proof Hconv as (v' & -> & _)%convert_object.
    exists v'. split; [done|]. by apply convert_reference_field.
  - destruct step as [k|i]; cbn in Hpath.
    + destruct obj as [| | | |items|m]; try done.
      destruct (obj_get k m) as [x|] eqn:Hget; [|done]. cbn in Hpath.
      assert (Hx : ∀ s, x ≠ JString s).
      { intros s ->. by destruct path as [|[]]. }
      destruct (convert_field _ _ _ _ _ Hconv Hget Hx) as (m' & x' & -> & Hx' & Hget').
      destruct (IH x x' v Hx' Hpath) as (v' & Hpath' & Href).
      exists v'. split; [|done]. cbn. by rewrite Hget'.
    + destruct obj as [| | | |items|m]; try done.
      destruct (items !! i) as [x|] eqn:Hget; [|done]. cbn in Hpath, Hconv.
      destruct (traverse _ items) as [items'|] eqn:Ht; [|done]. injection Hconv as <-.
      destruct (traverse_lookup _ _ _ _ _ Ht Hget) as (x' & Hx' & Hget').
      destruct (IH x x' v Hx' Hpath) as (v' & Hpath' & Href).
      exists v'. split; [|done]. cbn. by rewrite Hget'.
Qed.

End UpdaterMore.

Lemma delete_becomes_conditional_delete_witness :
  buildUpdateTransaction (ext:=Example.externals) Feed.emptyTransaction versionedDelete
    providerRules ∅ [] false Feed.careBase
  = (appendEntry Feed.emptyTransaction
       (deleteEntry (ext:=Example.externals) "Organization"
          "https://care.example/fhir/Organization/1"),
     Ok "Organization").
Proof.
  apply (delete_becomes_conditional_delete (ext:=Example.externals) _ versionedDelete
           {| Method := HTTPVerbDELETE; Url := "Organization/1/_history/3" |}
           providerRules ∅ [] false Feed.careBase "Organization" "1").
  - by eexists.
  - reflexivity.
  - reflexivity.
  - reflexivity.
  - reflexivity.
  - right. by exists "3".
  - apply list_elem_of_here.
  - reflexivity.
Defined.

Lemma ura_organization_forwarded_without_name_witness :
  ∃ sourceURL body,
    (buildUpdateTransaction (ext:=Example.externals) Feed.emptyTransaction namedHospital
       providerRules ∅ [] false Feed.careBase).1
    = appendEntry Feed.emptyTransaction
        (putEntry (ext:=Example.externals) "Organization" sourceURL (JObject body))
    ∧ obj_get "name" body = None.
Proof.
  apply (ura_organization_forwarded_without_name (ext:=Example.externals) _ _ namedHospital
           providerRules ∅ [] Feed.careBase
           {| Method := HTTPVerbPUT; Url := "Organization/hospital" |}
           (Feed.organization "hospital"
              [Feed.ura "100"; ("name", JString "General Hospital")])
           (("resourceType", JString "Organization") :: ("id", JString "hospital")
            :: [Feed.ura "100"; ("name", JString "General Hospital")])).
  - reflexivity.
  - reflexivity.
  - reflexivity.
  - reflexivity.
  - reflexivity.
  - vm_compute. reflexivity.
Defined.

Lemma forwarded_meta_is_rewritten_witness :
  ∃ sourceURL body meta,
    (buildUpdateTransaction (ext:=Example.externals) Feed.emptyTransaction
       Feed.endpointCreated Feed.rootRules ∅ [] true Feed.rootBase).1
    = appendEntry Feed.emptyTransaction
        (putEntry (ext:=Example.externals) "Endpoint" sourceURL (JObject body))
    ∧ obj_get "meta" body = Some (JObject meta)
    ∧ obj_get "versionId" meta = None
    ∧ obj_get "lastUpdated" meta = None.
Proof.
  destruct (forwarded_meta_is_rewritten (ext:=Example.externals) Feed.emptyTransaction
              (buildUpdateTransaction (ext:=Example.externals) Feed.emptyTransaction
                 Feed.endpointCreated Feed.rootRules ∅ [] true Feed.rootBase).1
              Feed.endpointCreated Feed.rootRules ∅ [] true Feed.rootBase "Endpoint"
              {| Method := HTTPVerbPUT; Url := "Endpoint/e1" |})
    as (raw & resource & sourceURL & body & meta & _ & _ & Htx & Hmeta & Hv & Hl & _).
  - reflexivity.
  - reflexivity.
  - vm_compute. reflexivity.
  - intros Heq. vm_compute in Heq. discriminate.
  - by exists sourceURL, body, meta.
Defined.

Lemma references_converted_at_every_depth_witness :
  ∃ obj' v',
    convertReferencesRecursive (ext:=Example.externals) Feed.hospitalWithEndpoint
      Feed.rootBase = Ok obj'
    ∧ at_path [Field "endpoint"; Item 0] obj' = Some (JObject v')
    ∧ obj_get "reference" v'
      = Some (JString "Endpoint?_source=https%3A%2F%2Froot.example%2Ffhir%2FEndpoint%2Fe1").
Proof.
  destruct (convertReferencesRecursive (ext:=Example.externals) Feed.hospitalWithEndpoint
              Feed.rootBase) as [obj'|e] eqn:Hconv; [|vm_compute in Hconv; discriminate].
  destruct (references_converted_at_every_depth (ext:=Example.externals) Feed.rootBase
              [Field "endpoint"; Item 0] Feed.hospitalWithEndpoint obj'
              [("reference", JString "Endpoint/e1")] Hconv eq_refl)
    as (v' & Hpath & Href).
  exists obj', v'. split_and!; [done|done|].
  change (∃ sourceURL,
            Example.buildSourceURL Feed.rootBase ["Endpoint/e1"] = Some sourceURL
            ∧ obj_get "reference" v'
              = Some (JString ("Endpoint" +:+ "?_source=" +:+ Example.queryEscape sourceURL)))
    in Href.
  destruct Href as (sourceURL & Hsrc & ->). vm_compute in Hsrc. by injection Hsrc as <-.
Defined.

(** ** Directory registry *)

Section RegistryMore.
Context {ext : Externals}.

Lemma existsb_registered (l : list administrationDirectory) fhirBaseURL authoritativeUra :
  existsb (λ directory,
             String.eqb (Dir.fhirBaseURL directory) fhirBaseURL
             && String.eqb (Dir.authoritativeUra directory) authoritativeUra) l = true
  ↔ (fhirBaseURL, authoritativeUra) ∈ registryKey <$> l.
Proof.
  rewrite existsb_exists, list_elem_of_fmap. split.
  - intros (d & Hin%list_elem_of_In & [Hu%String.eqb_eq Ha%String.eqb_eq]%andb_true_iff).
    exists d. unfold registryKey. by rewrite Hu, Ha.
  - intros (d & [= -> ->] & Hin). exists d. split; [by apply list_elem_of_In|].
    by rewrite !String.eqb_refl.
Qed.

(** X13 (registerAdministrationDirectory): registration is idempotent, and
    the first registration of a base URL with an authoritative URA wins.  A
    further attempt for the same base URL and URA gives the same answer and
    leaves the registry as it is, whatever resource types, discover flag and
    source URL it passes. *)
Theorem first_registration_wins (c c1 : Component) (fhirBaseURL : string)
    (resourceTypes : list string) (discover : bool) (sourceURL authoritativeUra : string)
    (err : option string) :
  registerAdministrationDirectory c fhirBaseURL resourceTypes discover sourceURL
    authoritativeUra = (c1, err) →
  ∀ resourceTypes' discover' sourceURL',
    registerAdministrationDirectory c1 fhirBaseURL resourceTypes' discover' sourceURL'
      authoritativeUra = (c1, err).
Proof.
  unfold registerAdministrationDirectory. intros Hreg types' disc' src'.
  destruct (validFHIRBaseURL fhirBaseURL); [|by injection Hreg as <- <-].
  destruct (isExcluded c fhirBaseURL) eqn:Hex.
  { injection Hreg as <- <-. by rewrite Hex. }
  destruct (existsb _ (administrationDirectories c)) eqn:Hexists.
  { injection Hreg as <- <-. by rewrite Hex, Hexists. }
  injection Hreg as <- <-.
  assert (isExcluded (setDirectories c (administrationDirectories c ++
            [{| Dir.fhirBaseURL := fhirBaseURL; Dir.resourceTypes := resourceTypes;
                Dir.discover := discover; Dir.sourceURL := sourceURL;
                Dir.authoritativeUra := authoritativeUra |}])) fhirBaseURL = false) as ->
    by exact Hex.
  cbn [administrationDirectories setDirectories].
  rewrite existsb_app. cbn. rewrite !String.eqb_refl. cbn. by rewrite orb_true_r.
Qed.

(** X14 (registerAdministrationDirectory, unregisterAdministrationDirectory):
    unregistering undoes a registration.  When no directory of the registry
    has the source URL, registering a directory under that source URL and
    unregistering the source URL gives back the component as it was. *)
Theorem unregister_undoes_register (c : Component) (fhirBaseURL : string)
    (resourceTypes : list string) (discover : bool) (sourceURL authoritativeUra : string) :
  Forall (λ d, Dir.sourceURL d ≠ sourceURL) (administrationDirectories c) →
  unregisterAdministrationDirectory
    (registerAdministrationDirectory c fhirBaseURL resourceTypes discover sourceURL
       authoritativeUra).1 sourceURL = c.
Proof.
  intros Hfresh.
  assert (Hkeep : filter (λ dir, String.eqb (Dir.sourceURL dir) sourceURL = false)
                         (administrationDirectories c) = administrationDirectories c).
  { apply filter_all. eapply Forall_impl; [exact Hfresh|].
    intros d Hd. by apply String.eqb_neq. }
  unfold registerAdministrationDirectory, unregisterAdministrationDirectory.
  destruct (validFHIRBaseURL fhirBaseURL); cbn [fst].
  2:{ rewrite Hkeep. by destruct c. }
  destruct (isExcluded c fhirBaseURL); cbn [fst]; [rewrite Hkeep; by destruct c|].
  destruct (existsb _ _); cbn [fst]; [rewrite Hkeep; by destruct c|].
  cbn [administrationDirectories setDirectories config directoryResourceTypes lastUpdateTimes].
  rewrite filter_app, Hkeep, filter_cons_False, filter_nil, app_nil_r.
  - by destruct c.
  - cbn. rewrite String.eqb_refl. done.
Qed.

End RegistryMore.

Lemma unregister_undoes_register_witness :
  unregisterAdministrationDirectory
    (registerAdministrationDirectory (ext:=Example.externals)
       (Feed.componentWith (Feed.configWith [] false) [Feed.rootDirectory Feed.rootBase] ∅)
       Feed.careBase defaultDirectoryResourceTypes false
       "https://root.example/fhir/Endpoint/e1" "100").1
    "https://root.example/fhir/Endpoint/e1"
  = Feed.componentWith (Feed.configWith [] false) [Feed.rootDirectory Feed.rootBase] ∅.
Proof.
  apply (unregister_undoes_register (ext:=Example.externals)).
  repeat constructor. done.
Defined.

Lemma first_registration_wins_witness :
  registerAdministrationDirectory (ext:=Example.externals)
    (Feed.componentWith (Feed.configWith [] false)
       [Feed.rootDirectory Feed.rootBase; Feed.careDirectory] ∅)
    Feed.careBase rootDirectoryResourceTypes true "" "100"
  = (Feed.componentWith (Feed.configWith [] false)
       [Feed.rootDirectory Feed.rootBase; Feed.careDirectory] ∅, None).
Proof.
  apply (first_registration_wins (ext:=Example.externals)
           (Feed.componentWith (Feed.configWith [] false) [Feed.rootDirectory Feed.rootBase] ∅)
           _ Feed.careBase defaultDirectoryResourceTypes false
           "https://root.example/fhir/Endpoint/e1" "100" None).
  vm_compute. reflexivity.
Defined.

(** Invariants of the registry *)

Section RegistryInvariant.
Context {ext : Externals} {rem : Remote}.

(** A property of components that depends on the configuration and the
    registry only, and that registering and unregistering keep. *)
Variable Inv : Component → Prop.
Hypothesis Inv_same : ∀ c c',
  config c' = config c → administrationDirectories c' = administrationDirectories c →
  Inv c → Inv c'.
Hypothesis Inv_register : ∀ c fhirBaseURL resourceTypes discover sourceURL authoritativeUra,
  Inv c →
  Inv (registerAdministrationDirectory c fhirBaseURL resourceTypes discover sourceURL
         authoritativeUra).1.
Hypothesis Inv_unregister : ∀ c fullUrl, Inv c → Inv (unregisterAdministrationDirectory c fullUrl).

Lemma processEndpointDeletes_inv entries : ∀ c, Inv c → Inv (processEndpointDeletes c entries).
Proof.
  unfold processEndpointDeletes. induction entries as [|e entries IH]; intros c Hc; [done|].
  cbn [fold_left]. apply IH. destruct (endpointDeleteFullUrl e); [|done].
  by apply Inv_unregister.
Qed.

Lemma fold_inv {A} (f : Component * DirectoryUpdateReport → A →
                        Component * DirectoryUpdateReport) (l : list A) :
  (∀ st x, Inv st.1 → Inv (f st x).1) →
  ∀ st, Inv st.1 → Inv (fold_left f l st).1.
Proof.
  intros Hf. induction l as [|x l IH]; intros st Hst; [done|].
  cbn [fold_left]. by apply IH, Hf.
Qed.

Lemma registerDiscovered_inv ura st kv : Inv st.1 → Inv (registerDiscovered ura st kv).1.
Proof.
  destruct st as [c report], kv as [fullUrl endpoint]. cbn. intros Hc.
  destruct (CodablesIncludesCode _ _); [|done].
  pose proof (Inv_register c (Address endpoint) (directoryResourceTypes c) false fullUrl ura Hc)
    as H.
  by destruct (registerAdministrationDirectory _ _ _ _ _ _) as [c' [err|]].
Qed.

Lemma discover_inv c entries tree report :
  Inv c → Inv (discoverAndRegisterEndpoints c entries tree report).1.
Proof.
  intros Hc. unfold discoverAndRegisterEndpoints.
  apply (fold_inv _ _) with (st := (c, report)); [|done].
  intros st kv Hst.
  destruct (FilterIdentifiersBySystem _ _) as [|[sys [v|]] ids]; try done.
  destruct (OrgEndpoint _); [done|].
  apply fold_inv; [|done]. intros st' kv'. apply registerDiscovered_inv.
Qed.

Lemma applyEntries_inv c w base types disc ura key t0 entries fb c' w' rep err :
  applyEntries c w base types disc ura key t0 entries fb = (c', w', rep, err) →
  Inv c → Inv c'.
Proof.
  unfold applyEntries. intros Happly Hc.
  set (c1 := if disc then processEndpointDeletes c (deduplicateHistoryEntries entries) else c)
    in Happly.
  assert (Inv c1) as Hc1.
  { unfold c1. destruct disc; [by apply processEndpointDeletes_inv|done]. }
  clearbody c1.
  destruct (ensureParentOrganizationsMap w base ura) as [w1 [tree|e]];
    [|by injection Happly as <- <- <- <-].
  destruct (ValidateParentOrganizations tree); [by injection Happly as <- <- <- <-|].
  destruct (fold_left _ _ _) as [[tx report] n].
  set (st := if disc then discoverAndRegisterEndpoints c1 entries tree report else (c1, report))
    in Happly.
  assert (Inv st.1) as Hst.
  { unfold st. destruct disc; [by apply discover_inv|done]. }
  destruct st as [c2 report2]. cbn in Hst.
  destruct (Entry tx); [by injection Happly as <- <- <- <-|].
  destruct (CreateWithContext w1 _ tx) as [w2 [txResult|e]];
    [|by injection Happly as <- <- <- <-].
  destruct (fold_left resultStep _ _) as [report3 n3].
  injection Happly as <- <- <- <-. by eapply Inv_same; [..|exact Hst].
Qed.

Lemma snapshotAndApply_inv c w base types disc ura key t0 params first c' w' rep err :
  snapshotAndApply c w base types disc ura key t0 params first = (c', w', rep, err) →
  Inv c → Inv c'.
Proof.
  unfold snapshotAndApply. intros Hs Hc.
  destruct (snapshotLoop w base types params 0 [] first) as [w1 [[entries fb]|e]];
    [|by injection Hs as <- <- <- <-].
  eapply applyEntries_inv; [exact Hs|]. by eapply Inv_same; [..|exact Hc].
Qed.

Lemma updateFromDirectory_inv c w base types disc ura c' w' rep err :
  updateFromDirectory c w base types disc ura = (c', w', rep, err) →
  Inv c → Inv c'.
Proof.
  unfold updateFromDirectory. intros Hu Hc.
  destruct (url_Parse base); [|by injection Hu as <- <- <- <-].
  destruct (url_Parse (FHIRBaseURL (QueryDirectory (config c))));
    [|by injection Hu as <- <- <- <-].
  destruct (lastUpdateTimes c !! makeDirectoryKey base ura) as [lastUpdate|].
  - destruct (historyLoop c w base types _ 0 [] emptyBundle) as [w1 [entries fb|fb|e]].
    + by eapply applyEntries_inv.
    + by eapply snapshotAndApply_inv.
    + by injection Hu as <- <- <- <-.
  - destruct (SnapshotModeSupport (config c)); cbn in Hu.
    + by eapply snapshotAndApply_inv.
    + destruct (historyLoop c w base types _ 0 [] emptyBundle) as [w1 [entries fb|fb|e]].
      * by eapply applyEntries_inv.
      * by eapply snapshotAndApply_inv.
      * by injection Hu as <- <- <- <-.
Qed.

Lemma updateLoop_inv fuel : ∀ i c w result processed c' w' result' processed',
  updateLoop fuel i c w result processed = Some (c', w', result', processed') →
  Inv c → Inv c'.
Proof.
  induction fuel as [|fuel IH]; intros i c w result processed c' w' result' processed'
    Hloop Hc; cbn in Hloop.
  - destruct (administrationDirectories c !! i); [done|]. by injection Hloop as <- <- <- <-.
  - destruct (administrationDirectories c !! i) as [d|];
      [|by injection Hloop as <- <- <- <-].
    destruct (updateFromDirectory c w _ _ _ _) as [[[c1 w1] rep] err] eqn:Hu.
    eapply IH; [exact Hloop|]. by eapply updateFromDirectory_inv.
Qed.

Lemma registerRoots_inv roots : ∀ c c', registerRoots c roots = Ok c' → Inv c → Inv c'.
Proof.
  induction roots as [|[name root] roots IH]; intros c c' Hreg Hc; cbn in Hreg.
  - by injection Hreg as <-.
  - pose proof (Inv_register c (FHIRBaseURL root) rootDirectoryResourceTypes true "" "" Hc)
      as H.
    destruct (registerAdministrationDirectory _ _ _ _ _ _) as [c1 [e|]]; [done|].
    by eapply IH.
Qed.

End RegistryInvariant.

Section RegistryInvariants.
Context {ext : Externals} {rem : Remote}.

Lemma unique_register c fhirBaseURL resourceTypes discover sourceURL authoritativeUra :
  uniqueDirectories (administrationDirectories c) →
  uniqueDirectories
    (administrationDirectories
       (registerAdministrationDirectory c fhirBaseURL resourceTypes discover sourceURL
          authoritativeUra).1).
Proof.
  unfold registerAdministrationDirectory, uniqueDirectories. intros Hc.
  destruct (validFHIRBaseURL fhirBaseURL); [|done].
  destruct (isExcluded c fhirBaseURL); [done|].
  destruct (existsb _ _) eqn:Hexists; [done|]. cbn.
  rewrite fmap_app. apply NoDup_app. split_and!; [done| |by apply NoDup_singleton].
  intros key Hin ->%list_elem_of_singleton.
  apply existsb_registered in Hin. cbn in Hin. congruence.
Qed.

Lemma unique_unregister c fullUrl :
  uniqueDirectories (administrationDirectories c) →
  uniqueDirectories (administrationDirectories (unregisterAdministrationDirectory c fullUrl)).
Proof.
  unfold uniqueDirectories. cbn. intros Hc.
  eapply sublist_NoDup; [exact Hc|]. apply fmap_sublist, sublist_filter.
Qed.

(** X15 (New, update, registerAdministrationDirectory,
    unregisterAdministrationDirectory): the registry never holds two
    directories with the same base URL and the same authoritative URA.  This
    holds for the component that [New] builds, and a run of [update] keeps
    it. *)
Theorem registry_has_no_duplicates :
  (∀ cfg w c, New cfg w = Ok c → uniqueDirectories (administrationDirectories c))
  ∧ (∀ fuel c w c' w' result processed,
       uniqueDirectories (administrationDirectories c) →
       update fuel c w = Some (c', w', result, processed) →
       uniqueDirectories (administrationDirectories c')).
Proof.
  split.
  - intros cfg w c HNew. unfold New in HNew.
    destruct (registerRoots _ _) as [c1|] eqn:Hroots; [|done]. injection HNew as <-.
    assert (uniqueDirectories (administrationDirectories c1)) as H.
    { eapply (registerRoots_inv (λ c, uniqueDirectories (administrationDirectories c)));
        [|exact Hroots|by apply NoDup_nil].
      intros. by apply unique_register. }
    unfold withDefaultResourceTypes. by case_bool_decide.
  - intros fuel c w c' w' result processed Hc Hupdate.
    eapply (updateLoop_inv (λ c, uniqueDirectories (administrationDirectories c)));
      [..|exact Hupdate|exact Hc].
    + intros c0 c0' _ Hd. by rewrite Hd.
    + intros. by apply unique_register.
    + intros. by apply unique_unregister.
Qed.

Lemma admissible_register c fhirBaseURL resourceTypes discover sourceURL authoritativeUra :
  admissibleDirectories c →
  admissibleDirectories
    (registerAdministrationDirectory c fhirBaseURL resourceTypes discover sourceURL
       authoritativeUra).1.
Proof.
  unfold registerAdministrationDirectory, admissibleDirectories. intros Hc.
  destruct (validFHIRBaseURL fhirBaseURL) as [[]|] eqn:Hvalid; [|done].
  destruct (isExcluded c fhirBaseURL) eqn:Hex; [done|].
  destruct (existsb _ _); [done|]. cbn.
  apply Forall_app. split; [done|]. by repeat constructor.
Qed.

Lemma admissible_unregister c fullUrl :
  admissibleDirectories c → admissibleDirectories (unregisterAdministrationDirectory c fullUrl).
Proof.
  unfold admissibleDirectories. cbn. intros Hc.
  apply Forall_forall. intros d [_ Hd]%list_elem_of_filter.
  rewrite Forall_forall in Hc. by apply Hc.
Qed.

Lemma admissible_same c c' :
  ExcludeAdminDirectories (config c') = ExcludeAdminDirectories (config c) →
  administrationDirectories c' = administrationDirectories c →
  admissibleDirectories c → admissibleDirectories c'.
Proof.
  unfold admissibleDirectories, isExcluded. intros Hcfg Hd Hc. by rewrite Hd, Hcfg.
Qed.

(** X16 (New, update, registerAdministrationDirectory): no excluded and no
    malformed base URL is ever in the registry.  Every directory of the
    component that [New] builds has a base URL that passes the URL check and
    is not excluded by the configuration, and a run of [update], with all the
    directories it discovers, keeps it so. *)
Theorem registry_holds_admissible_directories :
  (∀ cfg w c, New cfg w = Ok c → admissibleDirectories c)
  ∧ (∀ fuel c w c' w' result processed,
       admissibleDirectories c →
       update fuel c w = Some (c', w', result, processed) →
       admissibleDirectories c').
Proof.
  split.
  - intros cfg w c HNew. unfold New in HNew.
    destruct (registerRoots _ _) as [c1|] eqn:Hroots; [|done]. injection HNew as <-.
    assert (admissibleDirectories c1) as H.
    { eapply (registerRoots_inv admissibleDirectories); [|exact Hroots|by apply Forall_nil].
      intros. by apply admissible_register. }
    unfold withDefaultResourceTypes. case_bool_decide; [|done].
    by eapply admissible_same; [..|exact H].
  - intros fuel c w c' w' result processed Hc Hupdate.
    eapply (updateLoop_inv admissibleDirectories); [..|exact Hupdate|exact Hc].
    + intros c0 c0' Hcfg Hd. apply admissible_same; [by rewrite Hcfg|done].
    + intros. by apply admissible_register.
    + intros. by apply admissible_unregister.
Qed.

(** X17 (updateFromDirectory, processEndpointDeletes,
    discoverAndRegisterEndpoints): only a discoverable source changes the
    registry.  The sync of a source that is not discoverable leaves the
    registry, the configuration and the resource types for discovered
    directories as they are, whatever its feed holds and however it ends. *)
Theorem only_discoverable_sources_change_registry (c c' : Component) (w w' : World)
    (fhirBaseURLRaw : string) (allowedResourceTypes : list string)
    (authoritativeUra : string) (report : DirectoryUpdateReport) (err : option string) :
  updateFromDirectory c w fhirBaseURLRaw allowedResourceTypes false authoritativeUra
    = (c', w', report, err) →
  administrationDirectories c' = administrationDirectories c
  ∧ config c' = config c
  ∧ directoryResourceTypes c' = directoryResourceTypes c.
Proof.
  intros Hu.
  apply (updateFromDirectory_effect (λ _, True)) in Hu
    as (entries & cursors & _ & (Hc & Hr & _ & added & Hd & _ & Hnone) & _).
  2:{ intros. by apply Forall_true. }
  2:{ done. }
  rewrite (Hnone eq_refl), app_nil_r in Hd. done.
Qed.

End RegistryInvariants.

Lemma only_discoverable_sources_change_registry_witness :
  administrationDirectories
    (updateFromDirectory (ext:=Example.externals)
       (rem:=Example.remote (Example.servers Feed.careRows))
       (Feed.componentWith (Feed.configWith [] false)
          [Feed.rootDirectory Feed.rootBase; Feed.careDirectory] ∅)
       tt Feed.careBase defaultDirectoryResourceTypes false "100").1.1.1
  = [Feed.rootDirectory Feed.rootBase; Feed.careDirectory].
Proof.
  destruct (updateFromDirectory (ext:=Example.externals)
              (rem:=Example.remote (Example.servers Feed.careRows))
              (Feed.componentWith (Feed.configWith [] false)
                 [Feed.rootDirectory Feed.rootBase; Feed.careDirectory] ∅)
              tt Feed.careBase defaultDirectoryResourceTypes false "100")
    as [[[c' w'] report] err] eqn:Hu.
  exact (proj1 (only_discoverable_sources_change_registry
                  (ext:=Example.externals)
                  (rem:=Example.remote (Example.servers Feed.careRows))
                  _ _ _ _ _ _ _ _ _ Hu)).
Defined.

(** ** Keys and error texts *)

Lemma length_app_string s t :
  String.length (s +:+ t) = String.length s + String.length t.
Proof. induction s as [|a s IH]; [done|]. rewrite app_String. cbn. by rewrite IH. Qed.

Lemma app_cancel_r s1 : ∀ s2 t, s1 +:+ t = s2 +:+ t → s1 = s2.
Proof.
  induction s1 as [|a s1 IH]; intros [|b s2] t H; [done|..].
  - apply (f_equal String.length) in H. rewrite !length_app_string in H. cbn in H. lia.
  - apply (f_equal String.length) in H. rewrite !length_app_string in H. cbn in H. lia.
  - rewrite !app_String in H. injection H as -> H. f_equal. by eapply IH.
Qed.

(** X18 (makeDirectoryKey): the directory key keeps the sync state of
    directories apart that share a base URL and differ in the authoritative
    URA, and of directories that share the URA and differ in the base URL. *)
Theorem directory_key_separates :
  (∀ fhirBaseURL ura1 ura2,
     makeDirectoryKey fhirBaseURL ura1 = makeDirectoryKey fhirBaseURL ura2 → ura1 = ura2)
  ∧ (∀ fhirBaseURL1 fhirBaseURL2 ura,
       makeDirectoryKey fhirBaseURL1 ura = makeDirectoryKey fhirBaseURL2 ura →
       fhirBaseURL1 = fhirBaseURL2).
Proof.
  unfold makeDirectoryKey. split.
  - intros u a b H.
    destruct (String.eqb_spec a "") as [Ha|Ha]; destruct (String.eqb_spec b "") as [Hb|Hb].
    + congruence.
    + apply (f_equal String.length) in H. rewrite !length_app_string in H. cbn in H. lia.
    + apply (f_equal String.length) in H. rewrite !length_app_string in H. cbn in H. lia.
    + apply String.app_inj in H. by injection H.
  - intros u v a H. destruct (String.eqb_spec a ""); [done|]. by apply app_cancel_r in H.
Qed.

Lemma prefix_spec p : ∀ s, String.prefix p s = true ↔ ∃ b, s = p +:+ b.
Proof.
  induction p as [|a p IH]; intros s.
  - cbn. split; [intros _; by exists s|by destruct s].
  - destruct s as [|c s]; cbn.
    + split; [done|]. by intros [b H].
    + destruct (ascii_dec a c) as [->|Hne].
      * rewrite IH. split; intros [b H]; exists b; [by rewrite app_String, H|].
        rewrite app_String in H. by injection H.
      * split; [done|]. intros [b H]. rewrite app_String in H. by injection H.
Qed.

Lemma Contains_spec sub : ∀ s,
  strings.Contains s sub = true ↔ ∃ a b, s = a +:+ sub +:+ b.
Proof.
  induction s as [|c s IH].
  - cbn [strings.Contains]. rewrite orb_false_r, prefix_spec. split.
    + intros [b H]. by exists "", b.
    + intros (a & b & H). destruct a; [by exists b|done].
  - cbn [strings.Contains]. rewrite orb_true_iff, prefix_spec, IH. split.
    + intros [[b H]|(a & b & H)]; [by exists "", b|].
      exists (String c a), b. by rewrite app_String, H.
    + intros (a & b & H). destruct a as [|c' a].
      * left. by exists b.
      * right. rewrite app_String in H. injection H as -> H. by exists a, b.
Qed.

Lemma ToLower_app s t : strings.ToLower (s +:+ t) = strings.ToLower s +:+ strings.ToLower t.
Proof. induction s as [|a s IH]; [done|]. rewrite app_String. cbn. by rewrite IH. Qed.

Lemma ToLower_split x : ∀ s y,
  strings.ToLower s = x +:+ y →
  ∃ s1 s2, s = s1 +:+ s2 ∧ strings.ToLower s1 = x ∧ strings.ToLower s2 = y.
Proof.
  induction x as [|a x IH]; intros s y H.
  - by exists "", s.
  - destruct s as [|c s]; [done|]. rewrite app_String in H. cbn in H. injection H as Ha H.
    destruct (IH _ _ H) as (s1 & s2 & -> & H1 & H2).
    exists (String c s1), s2. cbn. by rewrite Ha, H1.
Qed.

(** X19 (is410GoneError): the 410 Gone answer is recognised by the text of
    the error alone.  An error counts as 410 Gone exactly when its message
    contains the digits 410, or the word gone in any mix of upper and lower
    case. *)
Theorem gone_error_is_recognised_by_text (err : string) :
  is410GoneError err = true
  ↔ (∃ a b, err = a +:+ "410" +:+ b)
    ∨ (∃ a g b, err = a +:+ g +:+ b ∧ strings.ToLower g = "gone").
Proof.
  unfold is410GoneError. rewrite orb_true_iff, !Contains_spec. split.
  - intros [H|(a' & b' & H)]; [by left|]. right.
    destruct (ToLower_split _ _ _ H) as (a & rest & -> & _ & Hrest).
    destruct (ToLower_split _ _ _ Hrest) as (g & b & -> & Hg & _).
    by exists a, g, b.
  - intros [H|(a & g & b & -> & Hg)]; [by left|]. right.
    exists (strings.ToLower a), (strings.ToLower b). by rewrite !ToLower_app, Hg.
Qed.

(** ** The sync of one source and the report of a run *)

Section ReportFacts.
Context {ext : Externals} {rem : Remote}.

Lemma applyEntries_failed c w base types disc ura key t0 entries fb c' w' rep e :
  applyEntries c w base types disc ura key t0 entries fb = (c', w', rep, Some e) →
  rep = emptyReport.
Proof.
  unfold applyEntries. intros Happly.
  destruct (ensureParentOrganizationsMap w base ura) as [w1 [tree|e1]];
    [|by injection Happly as <- <- <- <-].
  destruct (ValidateParentOrganizations tree); [by injection Happly as <- <- <- <-|].
  destruct (fold_left _ _ _) as [[tx report] n].
  destruct (if disc then _ else _) as [c2 report2].
  destruct (Entry tx); [done|].
  destruct (CreateWithContext w1 _ tx) as [w2 [txResult|e1]];
    [|by injection Happly as <- <- <- <-].
  by destruct (fold_left resultStep _ _) as [report3 n3].
Qed.

Lemma snapshotAndApply_failed c w base types disc ura key t0 params first c' w' rep e :
  snapshotAndApply c w base types disc ura key t0 params first = (c', w', rep, Some e) →
  rep = emptyReport.
Proof.
  unfold snapshotAndApply. intros Hs.
  destruct (snapshotLoop w base types params 0 [] first) as [w1 [[entries fb]|e1]];
    [|by injection Hs as <- <- <- <-].
  by eapply applyEntries_failed.
Qed.

(** X20 (updateFromDirectory, update): a sync that fails reports nothing but
    its error.  Whenever the sync of a source ends with an error, the report
    it returns is empty: the counts are zero and the warnings collected up to
    the failure are dropped; the run stores this report with the error as its
    only message. *)
Theorem failed_sync_reports_only_the_error (c c' : Component) (w w' : World)
    (fhirBaseURLRaw : string) (allowedResourceTypes : list string) (allowDiscovery : bool)
    (authoritativeUra : string) (report : DirectoryUpdateReport) (e : string) :
  updateFromDirectory c w fhirBaseURLRaw allowedResourceTypes allowDiscovery authoritativeUra
    = (c', w', report, Some e) →
  report = emptyReport
  ∧ finishReport report (Some e)
    = {| CountCreated := 0; CountUpdated := 0; CountDeleted := 0;
         Warnings := []; Errors := [e] |}.
Proof.
  intros Hu. assert (report = emptyReport) as ->; [|done].
  unfold updateFromDirectory in Hu.
  destruct (url_Parse fhirBaseURLRaw); [|by injection Hu as <- <- <- <-].
  destruct (url_Parse (FHIRBaseURL (QueryDirectory (config c))));
    [|by injection Hu as <- <- <- <-].
  destruct (lastUpdateTimes c !! _) as [lastUpdate|].
  - destruct (historyLoop c w _ _ _ 0 [] emptyBundle) as [w1 [entries fb|fb|e1]].
    + by eapply applyEntries_failed.
    + by eapply snapshotAndApply_failed.
    + by injection Hu as <- <- <- <-.
  - destruct (SnapshotModeSupport (config c)); cbn in Hu.
    + by eapply snapshotAndApply_failed.
    + destruct (historyLoop c w _ _ _ 0 [] emptyBundle) as [w1 [entries fb|fb|e1]].
      * by eapply applyEntries_failed.
      * by eapply snapshotAndApply_failed.
      * by injection Hu as <- <- <- <-.
Qed.

Lemma updateLoop_report fuel : ∀ i c w result processed c' w' result' processed',
  updateLoop fuel i c w result processed = Some (c', w', result', processed') →
  (∀ key, is_Some (result !! key) ↔ ∃ d, d ∈ processed ∧ key = reportKey d) →
  ∀ key, is_Some (result' !! key) ↔ ∃ d, d ∈ processed' ∧ key = reportKey d.
Proof.
  induction fuel as [|fuel IH]; intros i c w result processed c' w' result' processed'
    Hloop Hinv; cbn in Hloop.
  - destruct (administrationDirectories c !! i); [done|]. by injection Hloop as <- <- <- <-.
  - destruct (administrationDirectories c !! i) as [d|];
      [|by injection Hloop as <- <- <- <-].
    destruct (updateFromDirectory c w _ _ _ _) as [[[c1 w1] rep] err].
    eapply IH; [exact Hloop|]. intros key.
    fold (reportKey d). rewrite lookup_insert_is_Some', Hinv. split.
    + intros [<-|(d' & Hd' & ->)].
      * exists d. split; [|done]. apply elem_of_app. right. by apply list_elem_of_singleton.
      * exists d'. split; [|done]. apply elem_of_app. by left.
    + intros (d' & [Hd'| ->%list_elem_of_singleton]%elem_of_app & ->); [|by left].
      right. by exists d'.
Qed.

(** X21 (update): the report of a run has an entry for every directory that
    the run processed, under the directory key, and no other entry. *)
Theorem report_covers_processed_directories (fuel : nat) (c c' : Component) (w w' : World)
    (result : UpdateReport) (processed : list administrationDirectory) :
  update fuel c w = Some (c', w', result, processed) →
  ∀ key, is_Some (result !! key) ↔ ∃ d, d ∈ processed ∧ key = reportKey d.
Proof.
  intros Hupdate. eapply updateLoop_report; [exact Hupdate|].
  intros key. rewrite lookup_empty. split; [by intros [? ?]|].
  by intros (d & Hd%elem_of_nil & _).
Qed.

End ReportFacts.

Lemma hasStatus_exclusive e :
  (hasStatus "201" e = true → hasStatus "200" e = false ∧ hasStatus "204" e = false)
  ∧ (hasStatus "200" e = true → hasStatus "204" e = false).
Proof.
  unfold hasStatus, strings.HasPrefix. destruct (Response e) as [[status]|]; [|done].
  cbn [Status]. split.
  - intros [b ->]%prefix_spec. by split.
  - by intros [b ->]%prefix_spec.
Qed.

(** X22 (updateFromDirectory, the loop over the transaction response): every
    entry of the response of the query directory is accounted for exactly
    once.  The loop adds to the created, updated and deleted counts the number
    of entries whose status starts with 201, 200 and 204, adds one warning for
    every other entry, and never adds an error. *)
Theorem every_response_is_counted_once (entries : list BundleEntry)
    (report : DirectoryUpdateReport) (i : nat) :
  let out := fold_left resultStep entries (report, i) in
  CountCreated out.1 = CountCreated report + length (filter (λ e, hasStatus "201" e = true) entries)
  ∧ CountUpdated out.1
    = CountUpdated report + length (filter (λ e, hasStatus "200" e = true) entries)
  ∧ CountDeleted out.1
    = CountDeleted report + length (filter (λ e, hasStatus "204" e = true) entries)
  ∧ length (Warnings out.1)
    = length (Warnings report) + length (filter (λ e, isCounted e = false) entries)
  ∧ Errors out.1 = Errors report
  ∧ out.2 = i + length entries.
Proof.
  cbn zeta. revert report i. induction entries as [|e entries IH]; intros report i.
  - cbn. split_and!; try done; lia.
  - cbn [fold_left]. destruct (resultStep (report, i) e) as [report1 i1] eqn:Hstep.
    specialize (IH report1 i1). destruct IH as (H1 & H2 & H3 & H4 & H5 & H6).
    rewrite H1, H2, H3, H4, H5, H6. clear H1 H2 H3 H4 H5 H6.
    rewrite !filter_cons. pose proof (hasStatus_exclusive e) as [Hx Hy].
    unfold resultStep in Hstep. unfold isCounted, hasStatus, strings.HasPrefix in *.
    destruct (Response e) as [[status]|]; cbn [Status] in *.
    + destruct (String.prefix "201" status) eqn:E1.
      { destruct (Hx eq_refl) as [-> ->]. injection Hstep as <- <-. cbn.
        repeat case_decide; try done; cbn [length]; split_and!; try done; lia. }
      destruct (String.prefix "200" status) eqn:E2.
      { rewrite (Hy eq_refl). injection Hstep as <- <-. cbn.
        repeat case_decide; try done; cbn [length]; split_and!; try done; lia. }
      destruct (String.prefix "204" status) eqn:E3.
      { injection Hstep as <- <-. cbn.
        repeat case_decide; try done; cbn [length]; split_and!; try done; lia. }
      injection Hstep as <- <-. cbn. rewrite length_app.
      repeat case_decide; try done; cbn [length]; split_and!; try done; lia.
    + injection Hstep as <- <-. cbn. rewrite length_app.
      repeat case_decide; try done; cbn [length]; split_and!; try done; lia.
Qed.

Lemma failed_sync_reports_only_the_error_witness :
  (updateFromDirectory (ext:=Example.externals)
     (rem:=Example.remote (Example.servers Feed.goneRows))
     (Feed.componentWith (Feed.configWith [] false) [Feed.rootDirectory Feed.rootBase] ∅)
     tt Feed.rootBase rootDirectoryResourceTypes true "").1.2 = emptyReport.
Proof.
  refine (proj1 (failed_sync_reports_only_the_error (ext:=Example.externals)
                   (rem:=Example.remote (Example.servers Feed.goneRows))
                   (Feed.componentWith (Feed.configWith [] false)
                      [Feed.rootDirectory Feed.rootBase] ∅)
                   _ tt _ Feed.rootBase rootDirectoryResourceTypes true "" _
                   (goneError "Organization") _)).
  vm_compute. reflexivity.
Defined.

Lemma report_covers_processed_directories_witness :
  ∃ c' result,
    update (ext:=Example.externals)
      (rem:=Example.remote (Example.servers (Feed.rootRows ++ Feed.careRows))) 2
      (Feed.componentWith (Feed.configWith [] false) [Feed.rootDirectory Feed.rootBase] ∅) tt
    = Some (c', tt, result, [Feed.rootDirectory Feed.rootBase; Feed.careDirectory])
    ∧ ∀ key, is_Some (result !! key)
             ↔ ∃ d, d ∈ [Feed.rootDirectory Feed.rootBase; Feed.careDirectory]
                    ∧ key = reportKey d.
Proof.
  destruct (update (ext:=Example.externals)
              (rem:=Example.remote (Example.servers (Feed.rootRows ++ Feed.careRows))) 2
              (Feed.componentWith (Feed.configWith [] false)
                 [Feed.rootDirectory Feed.rootBase] ∅) tt)
    as [[[[c' []] result] processed]|] eqn:Hupdate; [|vm_compute in Hupdate; discriminate].
  assert (processed = [Feed.rootDirectory Feed.rootBase; Feed.careDirectory]) as ->.
  { vm_compute in Hupdate. by injection Hupdate as _ _ <-. }
  exists c', result. split; [done|].
  exact (report_covers_processed_directories (ext:=Example.externals)
           (rem:=Example.remote (Example.servers (Feed.rootRows ++ Feed.careRows)))
           _ _ _ _ _ _ _ Hupdate).
Defined.

(** ** Construction of the component *)

Section NewFacts.
Context {ext : Externals} {rem : Remote}.

Lemma registerRoots_fields roots : ∀ c c',
  registerRoots c roots = Ok c' →
  config c' = config c ∧ directoryResourceTypes c' = directoryResourceTypes c
  ∧ lastUpdateTimes c' = lastUpdateTimes c.
Proof.
  induction roots as [|[name root] roots IH]; intros c c' Hreg; cbn in Hreg.
  - by injection Hreg as <-.
  - destruct (registerAdministrationDirectory _ _ _ _ _ _) as [c1 [e|]] eqn:Hr; [done|].
    apply register_effect in Hr as (Hc & Hr & Hl & _).
    apply IH in Hreg as (Hc' & Hr' & Hl'). split_and!; congruence.
Qed.

(** X23 (New): the resource types for discovered directories are those of
    the configuration as it is given.  When the configuration lists no
    resource types, [New] puts the six default types into the configuration
    of the component, but the list it registers discovered directories with
    stays empty. *)
Theorem New_keeps_given_resource_types (cfg : Config) (w : World) (c : Component) :
  New cfg w = Ok c →
  directoryResourceTypes c = DirectoryResourceTypes cfg
  ∧ DirectoryResourceTypes (config c)
    = (if bool_decide (DirectoryResourceTypes cfg = [])
       then defaultDirectoryResourceTypes else DirectoryResourceTypes cfg).
Proof.
  unfold New. intros HNew.
  destruct (registerRoots _ _) as [c1|] eqn:Hroots; [|done]. injection HNew as <-.
  apply registerRoots_fields in Hroots as (Hc & Hr & _). cbn in Hc, Hr.
  unfold withDefaultResourceTypes. rewrite Hc. cbn [config DirectoryResourceTypes].
  destruct (DirectoryResourceTypes cfg) as [|t types] eqn:Htypes.
  - rewrite bool_decide_eq_true_2 by done. cbn. by rewrite Hr.
  - rewrite bool_decide_eq_false_2 by done. cbn. by rewrite Hr, Hc.
Qed.

Lemma registerRoots_spec roots : ∀ c c',
  registerRoots c roots = Ok c' →
  (∃ added, administrationDirectories c' = administrationDirectories c ++ added
            ∧ Forall (λ d, ∃ kv, kv ∈ roots ∧ d = configuredRoot kv.2) added)
  ∧ Forall (λ kv, validFHIRBaseURL (FHIRBaseURL kv.2) = Ok tt
                  ∧ (isExcluded c (FHIRBaseURL kv.2) = false →
                     ∃ d, d ∈ administrationDirectories c'
                          ∧ Dir.fhirBaseURL d = FHIRBaseURL kv.2)) roots.
Proof.
  induction roots as [|[name root] roots IH]; intros c c' Hreg; cbn in Hreg.
  - injection Hreg as <-. split; [|done]. exists []. by rewrite app_nil_r.
  - destruct (registerAdministrationDirectory _ _ _ _ _ _) as [c1 [e|]] eqn:Hr; [done|].
    destruct (IH _ _ Hreg) as [(added & Hd & Hadded) Hroots].
    assert (Hex : ∀ url, isExcluded c1 url = isExcluded c url).
    { intros url. apply register_effect in Hr as (Hc & _). unfold isExcluded. by rewrite Hc. }
    unfold registerAdministrationDirectory in Hr.
    destruct (validFHIRBaseURL (FHIRBaseURL root)) as [[]|] eqn:Hvalid; [|done].
    assert (Hrest : Forall (λ kv, validFHIRBaseURL (FHIRBaseURL kv.2) = Ok tt
                      ∧ (isExcluded c (FHIRBaseURL kv.2) = false →
                         ∃ d, d ∈ administrationDirectories c'
                              ∧ Dir.fhirBaseURL d = FHIRBaseURL kv.2)) roots).
    { eapply Forall_impl; [exact Hroots|]. intros kv [Hv Hd']. split; [done|].
      intros Hne. apply Hd'. by rewrite Hex. }
    destruct (isExcluded c (FHIRBaseURL root)) eqn:Hexcl.
    { injection Hr as <-. split.
      - exists added. split; [done|]. eapply Forall_impl; [exact Hadded|].
        intros d (kv & Hkv & ->). exists kv. split; [by apply list_elem_of_further|done].
      - constructor; [|done]. split; [done|]. cbn. congruence. }
    destruct (existsb _ _) eqn:Hexists.
    { injection Hr as <-. split.
      - exists added. split; [done|]. eapply Forall_impl; [exact Hadded|].
        intros d (kv & Hkv & ->). exists kv. split; [by apply list_elem_of_further|done].
      - constructor; [|done]. split; [done|]. intros _.
        apply existsb_exists in Hexists as (d & Hin%list_elem_of_In & [Hu _]%andb_true_iff).
        apply String.eqb_eq in Hu. exists d. split; [|done].
        rewrite Hd. apply elem_of_app. by left. }
    injection Hr as <-. cbn in Hd. split.
    + eexists (_ :: added). split; [by rewrite Hd, <- app_assoc|].
      constructor.
      * exists (name, root). split; [apply list_elem_of_here|done].
      * eapply Forall_impl; [exact Hadded|].
        intros d (kv & Hkv & ->). exists kv. split; [by apply list_elem_of_further|done].
    + constructor; [|done]. split; [done|]. intros _.
      exists (configuredRoot root). split; [|done].
      rewrite Hd. apply elem_of_app. left. apply elem_of_app. right. apply list_elem_of_here.
Qed.

(** X24 (New, registerAdministrationDirectory): [New] succeeds only when the
    base URL of every configured root directory passes the URL check.  The
    registry it builds holds nothing but the configured roots, each as a
    discoverable directory for Organization and Endpoint with no source URL
    and no authoritative URA, and it holds every configured root that is not
    excluded. *)
Theorem New_registers_configured_roots (cfg : Config) (w : World) (c : Component) :
  New cfg w = Ok c →
  (∀ d, d ∈ administrationDirectories c →
     ∃ name rootDirectory,
       AdministrationDirectories cfg !! name = Some rootDirectory
       ∧ d = configuredRoot rootDirectory)
  ∧ (∀ name rootDirectory,
       AdministrationDirectories cfg !! name = Some rootDirectory →
       validFHIRBaseURL (FHIRBaseURL rootDirectory) = Ok tt
       ∧ (isExcluded c (FHIRBaseURL rootDirectory) = false →
          configuredRoot rootDirectory ∈ administrationDirectories c)).
Proof.
  unfold New. intros HNew.
  destruct (registerRoots _ _) as [c1|] eqn:Hroots; [|done]. injection HNew as <-.
  pose proof (registerRoots_fields _ _ _ Hroots) as (Hc & _).
  destruct (registerRoots_spec _ _ _ Hroots) as [(added & Hd & Hadded) Hall].
  cbn in Hd, Hc.
  assert (Hdirs : administrationDirectories (withDefaultResourceTypes c1)
                  = administrationDirectories c1).
  { unfold withDefaultResourceTypes. by case_bool_decide. }
  assert (Hexcl : ∀ url, isExcluded (withDefaultResourceTypes c1) url
                         = existsb (λ excludedURL,
                             String.eqb (strings.TrimRight excludedURL "/")
                                        (strings.TrimRight url "/"))
                             (ExcludeAdminDirectories cfg)).
  { intros url. unfold isExcluded, withDefaultResourceTypes.
    case_bool_decide; cbn; by rewrite Hc. }
  assert (Hmem : ∀ d, d ∈ administrationDirectories c1 →
            ∃ name rootDirectory,
              AdministrationDirectories cfg !! name = Some rootDirectory
              ∧ d = configuredRoot rootDirectory).
  { intros d Hin. rewrite Hd in Hin. rewrite Forall_forall in Hadded.
    destruct (Hadded d Hin) as ([name root] & Hkv%elem_of_map_to_list & ->). eauto. }
  rewrite Hdirs. split; [done|].
  intros name root Hlookup%elem_of_map_to_list.
  rewrite Forall_forall in Hall. destruct (Hall _ Hlookup) as [Hvalid Hreg].
  split; [done|]. rewrite Hexcl. intros Hne. cbn in Hreg.
  destruct Hreg as (d & Hin & Hurl); [exact Hne|].
  destruct (Hmem d Hin) as (name' & root' & _ & ->). cbn in Hurl.
  destruct root, root'. cbn in Hurl. by subst.
Qed.

End NewFacts.

Lemma New_keeps_given_resource_types_witness :
  match New (ext:=Example.externals) (rem:=Example.remote (Example.servers []))
          bareConfig tt with
  | Ok c => directoryResourceTypes c = []
            ∧ DirectoryResourceTypes (config c) = defaultDirectoryResourceTypes
  | Err _ => False
  end.
Proof.
  destruct (New _ _) as [c|e] eqn:HN; [|vm_compute in HN; discriminate].
  exact (New_keeps_given_resource_types (ext:=Example.externals)
           (rem:=Example.remote (Example.servers [])) bareConfig tt c HN).
Defined.

Lemma New_registers_configured_roots_witness :
  match New (ext:=Example.externals) (rem:=Example.remote (Example.servers []))
          bareConfig tt with
  | Ok c => configuredRoot {| FHIRBaseURL := "https://root.example/fhir" |}
              ∈ administrationDirectories c
  | Err _ => False
  end.
Proof.
  destruct (New _ _) as [c|e] eqn:HN; [|vm_compute in HN; discriminate].
  refine (proj2 (proj2 (New_registers_configured_roots (ext:=Example.externals)
                          (rem:=Example.remote (Example.servers [])) bareConfig tt c HN)
                   "lrza" _ _) _).
  - reflexivity.
  - vm_compute in HN. injection HN as <-. reflexivity.
Defined.

(** ** Discovery *)

Section DiscoveryFacts.
Context {ext : Externals} {rem : Remote}.

Lemma updateLoop_discovered (initial : list administrationDirectory) fuel :
  ∀ i c w result processed c' w' result' processed',
    updateLoop fuel i c w result processed = Some (c', w', result', processed') →
    (∀ d, d ∈ administrationDirectories c → d ∈ initial ∨ Dir.discover d = false) →
    (∀ d, d ∈ processed → d ∈ initial ∨ Dir.discover d = false) →
    (∀ d, d ∈ administrationDirectories c' → d ∈ initial ∨ Dir.discover d = false)
    ∧ (∀ d, d ∈ processed' → d ∈ initial ∨ Dir.discover d = false).
Proof.
  induction fuel as [|fuel IH]; intros i c w result processed c' w' result' processed'
    Hloop Hdirs Hproc; cbn in Hloop.
  - destruct (administrationDirectories c !! i); [done|]. by injection Hloop as <- <- <- <-.
  - destruct (administrationDirectories c !! i) as [d|] eqn:Hi;
      [|by injection Hloop as <- <- <- <-].
    destruct (updateFromDirectory c w _ _ _ _) as [[[c1 w1] rep] err] eqn:Hu.
    apply (updateFromDirectory_effect (λ _, True)) in Hu
      as (entries & cursors & _ & (_ & _ & _ & added & Hd & Hadded & _) & _).
    2:{ intros. by apply Forall_true. }
    2:{ done. }
    eapply IH; [exact Hloop| |].
    + intros d' Hd'. rewrite Hd in Hd'. apply elem_of_app in Hd' as [Hd'|Hd'].
      * apply Hdirs. destruct (Dir.discover d); [|done].
        by apply list_elem_of_filter in Hd' as [_ ?].
      * right. rewrite Forall_forall in Hadded. by apply Hadded.
    + intros d' [Hd'| ->%list_elem_of_singleton]%elem_of_app; [by apply Hproc|].
      apply Hdirs. by eapply list_elem_of_lookup_2.
Qed.

(** X25 (update, discoverAndRegisterEndpoints): discovery is one level deep.
    Every directory that a run adds to the registry is registered as not
    discoverable, so the run never uses a discovered directory to discover
    further ones: whatever is in the registry, or was processed, at the end
    of a run was in the registry at its start or is not discoverable. *)
Theorem discovery_is_one_level_deep (fuel : nat) (c c' : Component) (w w' : World)
    (result : UpdateReport) (processed : list administrationDirectory) :
  update fuel c w = Some (c', w', result, processed) →
  (∀ d, d ∈ administrationDirectories c' →
        d ∈ administrationDirectories c ∨ Dir.discover d = false)
  ∧ (∀ d, d ∈ processed → d ∈ administrationDirectories c ∨ Dir.discover d = false).
Proof.
  intros Hupdate.
  eapply (updateLoop_discovered (administrationDirectories c)); [exact Hupdate| |].
  - intros d Hd. by left.
  - by intros d Hd%elem_of_nil.
Qed.

(** X26 (ensureParentOrganizationsMap): the organization tree of a directory
    with an authoritative URA holds only roots that carry this URA.  The
    roots are roots of the tree of all Organizations that the directory
    returns; with an authoritative URA, a root is kept exactly when one of its
    URA identifiers has this value, and without one all roots are kept.  A
    failure of the Organization search is returned as it is. *)
Theorem parent_map_holds_authoritative_roots (w w' : World) (client authoritativeUra : string)
    (tree : parentOrganizationMap) :
  ensureParentOrganizationsMap w client authoritativeUra = (w', Ok tree) →
  ∃ orgEntries searchSet,
    query w client "Organization" countParams = (w', Ok (orgEntries, searchSet))
    ∧ (authoritativeUra = "" → tree = createOrganizationTree orgEntries)
    ∧ (authoritativeUra ≠ "" →
       ∀ k root linked,
         tree !! k = Some (root, linked)
         ↔ createOrganizationTree orgEntries !! k = Some (root, linked)
           ∧ ∃ ura, ura ∈ FilterIdentifiersBySystem (OrgIdentifier root) URANamingSystem
                    ∧ Value ura = Some authoritativeUra).
Proof.
  unfold ensureParentOrganizationsMap. intros Hensure.
  destruct (query w client "Organization" countParams) as [w1 [[orgEntries searchSet]|e]];
    [|done].
  injection Hensure as <- <-. exists orgEntries, searchSet. split; [done|].
  unfold filterByAuthoritativeUra. split.
  - by intros ->.
  - intros Hne%String.eqb_neq. rewrite Hne. intros k root linked.
    rewrite map_lookup_filter_Some. cbn. unfold hasUraValue.
    rewrite existsb_exists. split.
    + intros [Hk (ura & Hin%list_elem_of_In & Hv)]. split; [done|]. exists ura. split; [done|].
      destruct (Value ura) as [v|]; [|done]. by apply String.eqb_eq in Hv as ->.
    + intros [Hk (ura & Hin & Hv)]. split; [done|]. exists ura.
      split; [by apply list_elem_of_In|]. rewrite Hv. apply String.eqb_refl.
Qed.

End DiscoveryFacts.

Lemma discovery_is_one_level_deep_witness :
  ∃ c' result,
    update (ext:=Example.externals)
      (rem:=Example.remote (Example.servers (Feed.rootRows ++ Feed.careRows))) 2
      (Feed.componentWith (Feed.configWith [] false) [Feed.rootDirectory Feed.rootBase] ∅) tt
    = Some (c', tt, result, [Feed.rootDirectory Feed.rootBase; Feed.careDirectory])
    ∧ ∀ d, d ∈ [Feed.rootDirectory Feed.rootBase; Feed.careDirectory] →
           d ∈ [Feed.rootDirectory Feed.rootBase] ∨ Dir.discover d = false.
Proof.
  destruct (update (ext:=Example.externals)
              (rem:=Example.remote (Example.servers (Feed.rootRows ++ Feed.careRows))) 2
              (Feed.componentWith (Feed.configWith [] false)
                 [Feed.rootDirectory Feed.rootBase] ∅) tt)
    as [[[[c' []] result] processed]|] eqn:Hupdate; [|vm_compute in Hupdate; discriminate].
  assert (processed = [Feed.rootDirectory Feed.rootBase; Feed.careDirectory]) as ->.
  { vm_compute in Hupdate. by injection Hupdate as _ _ <-. }
  exists c', result. split; [done|].
  exact (proj2 (discovery_is_one_level_deep (ext:=Example.externals)
                  (rem:=Example.remote (Example.servers (Feed.rootRows ++ Feed.careRows)))
                  _ _ _ _ _ _ _ Hupdate)).
Defined.

Lemma parent_map_holds_authoritative_roots_witness :
  ∃ tree,
    ensureParentOrganizationsMap (ext:=Example.externals)
      (rem:=Example.remote (Example.servers Feed.rootRows)) tt Feed.rootBase "100"
    = (tt, Ok tree)
    ∧ ∀ k root linked,
        tree !! k = Some (root, linked) →
        ∃ ura, ura ∈ Example.filterIdentifiersBySystem (OrgIdentifier root)
                       Example.uraNamingSystem
               ∧ Value ura = Some "100".
Proof.
  destruct (ensureParentOrganizationsMap (ext:=Example.externals)
              (rem:=Example.remote (Example.servers Feed.rootRows)) tt Feed.rootBase "100")
    as [[] [tree|e]] eqn:Hensure; [|vm_compute in Hensure; discriminate].
  exists tree. split; [done|]. intros k root linked Hk.
  destruct (parent_map_holds_authoritative_roots (ext:=Example.externals)
              (rem:=Example.remote (Example.servers Feed.rootRows))
              tt tt Feed.rootBase "100" tree Hensure)
    as (orgEntries & searchSet & _ & _ & Hiff).
  exact (proj2 (proj1 (Hiff ltac:(done) k root linked) Hk)).
Defined.

(** ** Bearer tokens *)

Section TokenFacts.
Context {env : httpauth.Env}.

Lemma GetToken_returns_stored_token (p p' : httpauth.TokenProvider) (s s' : httpauth.State)
    (tok : string) :
  httpauth.GetToken p s = (p', s', Ok tok) → httpauth.token p' = tok.
Proof.
  unfold httpauth.GetToken, httpauth.refresh. intros H.
  destruct (httpauth.time_Now s) as [s1 t1].
  destruct (httpauth.fresh p t1); [by injection H as <- <- <-|].
  destruct (httpauth.time_Now s1) as [s2 t2].
  destruct (httpauth.fresh p t2); [by injection H as <- <- <-|].
  destruct (httpauth.refreshFunc p s2) as [s3 [[tok' d]|e]]; [|done].
  destruct (httpauth.time_Now s3) as [s4 t4]. by injection H as <- <- <-.
Qed.

(** X27 (TokenProvider.GetToken): a token is reused until it is due.  A token
    that [GetToken] has returned is returned again, with the provider left as
    it is and the refresh function not called, by every call whose first
    reading of the clock is before the expiry less the refresh buffer. *)
Theorem token_is_reused_until_it_is_due (p p' : httpauth.TokenProvider)
    (s s' s1 s2 : httpauth.State) (tok : string) (now : Time) :
  httpauth.GetToken p s = (p', s', Ok tok) →
  httpauth.time_Now s1 = (s2, now) →
  httpauth.fresh p' now = true →
  httpauth.GetToken p' s1 = (p', s2, Ok tok).
Proof.
  intros Hfirst Hnow Hfresh. apply GetToken_returns_stored_token in Hfirst.
  unfold httpauth.GetToken. by rewrite Hnow, Hfresh, Hfirst.
Qed.

(** X28 (TokenProvider.GetToken): a failed refresh leaves the provider as it
    was.  When [GetToken] returns an error, the error is the one of the
    refresh function behind the words "token refresh failed", and the stored
    token and its expiry are unchanged, so the next call tries again. *)
Theorem failed_refresh_keeps_provider (p p' : httpauth.TokenProvider)
    (s s' : httpauth.State) (e : string) :
  httpauth.GetToken p s = (p', s', Err e) →
  p' = p
  ∧ ∃ s2 err, httpauth.refreshFunc p s2 = (s', Err err)
              ∧ e = "token refresh failed: " +:+ err.
Proof.
  unfold httpauth.GetToken, httpauth.refresh. intros H.
  destruct (httpauth.time_Now s) as [s1 t1].
  destruct (httpauth.fresh p t1); [done|].
  destruct (httpauth.time_Now s1) as [s2 t2].
  destruct (httpauth.fresh p t2); [done|].
  destruct (httpauth.refreshFunc p s2) as [s3 [[tok' d]|err]] eqn:Hrefresh.
  - by destruct (httpauth.time_Now s3) as [s4 t4].
  - injection H as <- <- <-. split; [done|]. by exists s2, err.
Qed.

Lemma wrap64_neg (b : Z) : (0 < b < 2 ^ 63)%Z → httpauth.wrap64 (- b) = (- b)%Z.
Proof.
  intros Hb. unfold httpauth.wrap64.
  rewrite Z.mod_small by lia. lia.
Qed.

(** X29 (TokenProvider.GetToken): a token that does not outlive the refresh
    buffer is never reused.  When the stored token expires at most one
    refresh buffer after the instant [stored], every call whose readings of the
    clock are not before [stored] goes on to the refresh. *)
Theorem short_lived_token_is_never_reused (p : httpauth.TokenProvider)
    (s s1 s2 : httpauth.State) (stored t1 t2 : Time) (expiresIn : httpauth.Duration) :
  httpauth.expiresAt p = httpauth.Add stored expiresIn →
  (expiresIn ≤ httpauth.refreshBuffer p)%Z →
  (0 < httpauth.refreshBuffer p < 2 ^ 63)%Z →
  httpauth.time_Now s = (s1, t1) →
  httpauth.time_Now s1 = (s2, t2) →
  (stored ≤ t1)%Z → (stored ≤ t2)%Z →
  httpauth.GetToken p s = httpauth.refresh p s2.
Proof.
  intros Hexp Hshort Hbuffer Hnow1 Hnow2 Ht1 Ht2.
  assert (Hdue : ∀ t, (stored ≤ t)%Z → httpauth.fresh p t = false).
  { intros t Ht. unfold httpauth.fresh, httpauth.Before, httpauth.Add.
    rewrite Hexp, wrap64_neg by done. unfold httpauth.Add. apply Z.ltb_ge. lia. }
  unfold httpauth.GetToken. by rewrite Hnow1, (Hdue t1 Ht1), Hnow2, (Hdue t2 Ht2).
Qed.

(** X30 (fetchOAuth2Token): a fetched token is not empty and has a positive
    lifetime.  The fetch succeeds only on a response with status 200 whose
    body decodes to a token response with an access token; the lifetime is
    the [expires_in] of the response in seconds, and one hour when that is
    missing, not positive, or so large that the int64 count of nanoseconds
    wraps around to a value that is not positive. *)
Theorem fetched_token_has_positive_lifetime (config : httpauth.OAuth2Config)
    (s s' : httpauth.State) (tok : string) (expiresIn : httpauth.Duration) :
  httpauth.fetchOAuth2Token config s = (s', Ok (tok, expiresIn)) →
  tok ≠ "" ∧ (0 < expiresIn < 2 ^ 63)%Z
  ∧ ∃ body form tokenResp,
      httpauth.Do s (httpauth.TokenURL config) form
        = (s', Ok {| httpauth.StatusCode := 200; httpauth.Body := Ok body |})
      ∧ httpauth.Unmarshal_oauth2TokenResponse body = Ok tokenResp
      ∧ tok = httpauth.AccessToken tokenResp
      ∧ ((0 < httpauth.ExpiresIn tokenResp ≤ 9223372036)%Z →
         expiresIn = (httpauth.ExpiresIn tokenResp * httpauth.Second)%Z)
      ∧ ((httpauth.ExpiresIn tokenResp ≤ 0)%Z → (- 9223372036 ≤ httpauth.ExpiresIn tokenResp)%Z →
         expiresIn = httpauth.Hour).
Proof.
  unfold httpauth.fetchOAuth2Token. intros H.
  destruct (httpauth.NewRequest_error _); [done|].
  destruct (httpauth.Do s _ _) as [s1 [[status [body|e]]|e]] eqn:Hdo; try done.
  cbn [httpauth.Body httpauth.StatusCode] in H.
  destruct (Z.eqb_spec status 200) as [->|]; [|done]. cbn [negb] in H.
  destruct (httpauth.Unmarshal_oauth2TokenResponse body) as [tokenResp|e] eqn:Hdecode;
    [|done].
  destruct (String.eqb_spec (httpauth.AccessToken tokenResp) "") as [|Htok]; [done|].
  injection H as <- <- <-.
  assert (Hrange : ∀ z, (- 2 ^ 63 ≤ httpauth.wrap64 z < 2 ^ 63)%Z).
  { intros z. unfold httpauth.wrap64.
    pose proof (Z.mod_pos_bound (z + 2 ^ 63) (2 ^ 64) ltac:(lia)). lia. }
  assert (Hsmall : ∀ z, (- 2 ^ 63 ≤ z < 2 ^ 63)%Z → httpauth.wrap64 z = z).
  { intros z Hz. unfold httpauth.wrap64. rewrite Z.mod_small by lia. lia. }
  split_and!; [done| | |].
  - destruct (Z.leb_spec (httpauth.wrap64 (httpauth.ExpiresIn tokenResp * httpauth.Second)) 0);
      [by unfold httpauth.Hour, httpauth.Second|lia].
  - destruct (Z.leb_spec (httpauth.wrap64 (httpauth.ExpiresIn tokenResp * httpauth.Second)) 0);
      [by unfold httpauth.Hour, httpauth.Second|].
    pose proof (Hrange (httpauth.ExpiresIn tokenResp * httpauth.Second)%Z). lia.
  - eexists body, _, tokenResp. split_and!; [exact Hdo|done|done| |].
    + intros Hin. rewrite Hsmall by (unfold httpauth.Second; lia).
      destruct (Z.leb_spec (httpauth.ExpiresIn tokenResp * httpauth.Second) 0); [|done].
      unfold httpauth.Second in *. lia.
    + intros Hneg Hlow. rewrite Hsmall by (unfold httpauth.Second; lia).
      destruct (Z.leb_spec (httpauth.ExpiresIn tokenResp * httpauth.Second) 0); [done|].
      unfold httpauth.Second in *. lia.
Qed.

End TokenFacts.

Lemma token_is_reused_until_it_is_due_witness :
  httpauth.GetToken
    (httpauth.GetToken (httpauth.provider (httpauth.answers httpauth.oneHourToken))
       0%nat).1.1 3%nat
  = ((httpauth.GetToken (httpauth.provider (httpauth.answers httpauth.oneHourToken))
        0%nat).1.1,
     4%nat, Ok "secret").
Proof.
  apply (token_is_reused_until_it_is_due (env:=httpauth.answers httpauth.oneHourToken)
           (httpauth.provider (httpauth.answers httpauth.oneHourToken)) _
           0%nat 3%nat 3%nat 4%nat "secret" (30 * httpauth.Second)%Z).
  - vm_compute. reflexivity.
  - reflexivity.
  - vm_compute. reflexivity.
Defined.

Lemma failed_refresh_keeps_provider_witness :
  (httpauth.GetToken (httpauth.provider httpauth.unavailable) 0%nat).1.1
  = httpauth.provider httpauth.unavailable.
Proof.
  refine (proj1 (failed_refresh_keeps_provider (env:=httpauth.unavailable)
                   (httpauth.provider httpauth.unavailable) _ 0%nat 2%nat
                   "token refresh failed: token request returned status 503: Service Unavailable"
                   _)).
  vm_compute. reflexivity.
Defined.

Lemma short_lived_token_is_never_reused_witness :
  httpauth.GetToken httpauth.briefProvider 3%nat
  = httpauth.refresh httpauth.briefProvider 5%nat.
Proof.
  apply (short_lived_token_is_never_reused (env:=httpauth.answers httpauth.twentySecondToken)
           httpauth.briefProvider 3%nat 4%nat 5%nat
           (20 * httpauth.Second)%Z (30 * httpauth.Second)%Z (40 * httpauth.Second)%Z
           (20 * httpauth.Second)%Z).
  - reflexivity.
  - by vm_compute.
  - split; by vm_compute.
  - reflexivity.
  - reflexivity.
  - by vm_compute.
  - by vm_compute.
Defined.

Lemma fetched_token_has_positive_lifetime_witness :
  "secret" ≠ "" ∧ (0 < 3600 * httpauth.Second < 2 ^ 63)%Z.
Proof.
  destruct (fetched_token_has_positive_lifetime (env:=httpauth.answers httpauth.oneHourToken)
              httpauth.client 0%nat 0%nat "secret" (3600 * httpauth.Second)%Z)
    as (Htok & Hlife & _).
  - vm_compute. reflexivity.
  - by split.
Defined.
